(** * Verification of the typing-script pipeline

    Shallow embedding of [script_runner.py] (normalisation passes and the
    fallback tokenizer), [hwp_controller.py] (the document composer) and the
    typing worker of [gui_app.py], with the properties proved about them. *)

From Stdlib Require Import List Bool Arith NArith ZArith Lia Ascii String.
Import ListNotations.

Set Implicit Arguments.

(** ** Python strings

    A Python [str] is a sequence of Unicode code points.  A code point is a
    number; a string is a list of them, so that [len], indexing, slicing and
    the character classes of [re] and [str.strip] are what they are in
    Python whatever the encoding of the script. *)

Module PyStr.

Definition char := N.
Definition str := list char.

(** An ASCII literal of the source, as code points. *)
Definition lit (s : string) : str :=
  List.map N_of_ascii (list_ascii_of_string s).

Definition ch (a : ascii) : char := N_of_ascii a.

(** Characters of the source that are not ASCII. *)
Definition c_jeom : char := 51216%N.        (* U+C810, the score suffix *)
Definition c_giyeok : char := 12593%N.      (* U+3131 *)
Definition c_nieun : char := 12596%N.       (* U+3134 *)
Definition c_digeut : char := 12599%N.      (* U+3137 *)
Definition c_ga : char := 44032%N.          (* U+AC00 *)
Definition c_na : char := 45208%N.          (* U+B098 *)
Definition c_da : char := 45796%N.          (* U+B2E4 *)
Definition c_white_circle : char := 9675%N. (* U+25CB *)
Definition c_bullseye : char := 9678%N.     (* U+25CE *)
Definition c_black_circle : char := 9679%N. (* U+25CF *)
Definition c_bullet : char := 8226%N.       (* U+2022 *)
Definition c_circled_one : char := 9312%N.  (* U+2460 *)
Definition c_prime : char := 8242%N.        (* U+2032 *)
Definition c_rquote : char := 8217%N.       (* U+2019 *)
Definition c_ls : char := 8232%N.           (* U+2028 *)
Definition c_ps : char := 8233%N.           (* U+2029 *)

Definition c_nl : char := 10%N.
Definition c_cr : char := 13%N.
Definition c_tab : char := 9%N.
Definition c_space : char := 32%N.
Definition c_squote : char := 39%N.
Definition c_dquote : char := 34%N.
Definition c_backslash : char := 92%N.
Definition c_lparen : char := 40%N.
Definition c_rparen : char := 41%N.

Fixpoint str_eqb (a b : str) : bool :=
  match a, b with
  | [], [] => true
  | x :: a', y :: b' => N.eqb x y && str_eqb a' b'
  | _, _ => false
  end.

Definition in_ranges (rs : list (N * N)) (c : char) : bool :=
  existsb (fun r => N.leb (fst r) c && N.leb c (snd r)) rs.

(** [str.isspace] for one character, which is also the class [\s] of [re]
    on [str] patterns. *)
Definition space_ranges : list (N * N) :=
  [(9, 13); (28, 32); (133, 133); (160, 160); (5760, 5760); (8192, 8202);
   (8232, 8233); (8239, 8239); (8287, 8287); (12288, 12288)]%N.

Definition isspace (c : char) : bool := in_ranges space_ranges c.

(** [s.startswith(p)] *)
Fixpoint startswith (p s : str) : bool :=
  match p, s with
  | [], _ => true
  | x :: p', y :: s' => N.eqb x y && startswith p' s'
  | _ :: _, [] => false
  end.

(** [s.endswith(p)] *)
Definition endswith (p s : str) : bool := startswith (rev p) (rev s).

(** [p in s] *)
Fixpoint contains (p s : str) : bool :=
  startswith p s ||
  match s with
  | [] => false
  | _ :: s' => contains p s'
  end.

(** [s.lstrip()], [s.rstrip()], [s.strip()] *)
Fixpoint lstrip (s : str) : str :=
  match s with
  | c :: s' => if isspace c then lstrip s' else s
  | [] => []
  end.

Definition rstrip (s : str) : str := rev (lstrip (rev s)).
Definition strip (s : str) : str := rstrip (lstrip s).

(** [s.lstrip(chars)] *)
Fixpoint lstrip_chars (chars : str) (s : str) : str :=
  match s with
  | c :: s' => if existsb (N.eqb c) chars then lstrip_chars chars s' else s
  | [] => []
  end.

(** [s.count(c)] for a one-character [c] *)
Definition count_char (c : char) (s : str) : nat :=
  List.length (filter (N.eqb c) s).

(** [s.split("\n")]: the current line is accumulated in [cur]. *)
Fixpoint split_from (cur : str) (s : str) : list str :=
  match s with
  | [] => [rev cur]
  | c :: s' =>
      if N.eqb c c_nl then rev cur :: split_from [] s'
      else split_from (c :: cur) s'
  end.

Definition split_nl (s : str) : list str := split_from [] s.

(** [sep.join(parts)] *)
Fixpoint join (sep : str) (parts : list str) : str :=
  match parts with
  | [] => []
  | [p] => p
  | p :: rest => p ++ sep ++ join sep rest
  end.

Definition join_nl : list str -> str := join [c_nl].

(** [s.replace(old, new)] for a one-character [old]. *)
Definition replace_char (old : char) (new : str) (s : str) : str :=
  flat_map (fun c => if N.eqb c old then new else [c]) s.

(** [s.replace("\r\n", "\n")] *)
Fixpoint replace_crlf (s : str) : str :=
  match s with
  | c :: s' =>
      match s' with
      | d :: s'' =>
          if N.eqb c c_cr && N.eqb d c_nl then c_nl :: replace_crlf s''
          else c :: replace_crlf s'
      | [] => [c]
      end
  | [] => []
  end.

End PyStr.

(** ** Regular expressions of the source

    The patterns of [script_runner.py] are written as prefix matchers: a
    matcher consumes a prefix of its input and returns the rest.  The
    classes that follow one another in these patterns are disjoint
    (whitespace, quotes, digits, fixed literals), so the greedy reading of
    each [\s*] and [\d+] is the only one a backtracking matcher can
    succeed with. *)

Module Re.
Import PyStr.

Notation "'let*' x ':=' e 'in' k" :=
  (match e with Some x => k | None => None end)
  (at level 10, x pattern, e at level 100, k at level 200, only parsing).

(** The class [\d] on [str] patterns: the decimal digits of Unicode
    (category Nd), from Python's Unicode database. *)
Definition decimal_ranges : list (N * N) :=
  [(48, 57); (1632, 1641); (1776, 1785); (1984, 1993); (2406, 2415);
   (2534, 2543); (2662, 2671); (2790, 2799); (2918, 2927); (3046, 3055);
   (3174, 3183); (3302, 3311); (3430, 3439); (3558, 3567); (3664, 3673);
   (3792, 3801); (3872, 3881); (4160, 4169); (4240, 4249); (6112, 6121);
   (6160, 6169); (6470, 6479); (6608, 6617); (6784, 6793); (6800, 6809);
   (6992, 7001); (7088, 7097); (7232, 7241); (7248, 7257); (42528, 42537);
   (43216, 43225); (43264, 43273); (43472, 43481); (43504, 43513);
   (43600, 43609); (44016, 44025); (65296, 65305); (66720, 66729);
   (68912, 68921); (69734, 69743); (69872, 69881); (69942, 69951);
   (70096, 70105); (70384, 70393); (70736, 70745); (70864, 70873);
   (71248, 71257); (71360, 71369); (71472, 71481); (71904, 71913);
   (72016, 72025); (72784, 72793); (73040, 73049); (73120, 73129);
   (92768, 92777); (92864, 92873); (93008, 93017); (120782, 120831);
   (123200, 123209); (123632, 123641); (125264, 125273); (130032, 130041)]%N.

Definition isdigit (c : char) : bool := in_ranges decimal_ranges c.

(** The class [\w] on [str] patterns ([str.isalnum] or an underscore), from
    Python's Unicode database; [\b] is a change of this class. *)
Definition word_ranges : list (N * N) :=
  [(48, 57); (65, 90); (95, 95); (97, 122); (170, 170); (178, 179);
   (181, 181); (185, 186); (188, 190); (192, 214); (216, 246); (248, 705);
   (710, 721); (736, 740); (748, 748); (750, 750); (880, 884); (886, 887);
   (890, 893); (895, 895); (902, 902); (904, 906); (908, 908); (910, 929);
   (931, 1013); (1015, 1153); (1162, 1327); (1329, 1366); (1369, 1369);
   (1376, 1416); (1488, 1514); (1519, 1522); (1568, 1610); (1632, 1641);
   (1646, 1647); (1649, 1747); (1749, 1749); (1765, 1766); (1774, 1788);
   (1791, 1791); (1808, 1808); (1810, 1839); (1869, 1957); (1969, 1969);
   (1984, 2026); (2036, 2037); (2042, 2042); (2048, 2069); (2074, 2074);
   (2084, 2084); (2088, 2088); (2112, 2136); (2144, 2154); (2160, 2183);
   (2185, 2190); (2208, 2249); (2308, 2361); (2365, 2365); (2384, 2384);
   (2392, 2401); (2406, 2415); (2417, 2432); (2437, 2444); (2447, 2448);
   (2451, 2472); (2474, 2480); (2482, 2482); (2486, 2489); (2493, 2493);
   (2510, 2510); (2524, 2525); (2527, 2529); (2534, 2545); (2548, 2553);
   (2556, 2556); (2565, 2570); (2575, 2576); (2579, 2600); (2602, 2608);
   (2610, 2611); (2613, 2614); (2616, 2617); (2649, 2652); (2654, 2654);
   (2662, 2671); (2674, 2676); (2693, 2701); (2703, 2705); (2707, 2728);
   (2730, 2736); (2738, 2739); (2741, 2745); (2749, 2749); (2768, 2768);
   (2784, 2785); (2790, 2799); (2809, 2809); (2821, 2828); (2831, 2832);
   (2835, 2856); (2858, 2864); (2866, 2867); (2869, 2873); (2877, 2877);
   (2908, 2909); (2911, 2913); (2918, 2927); (2929, 2935); (2947, 2947);
   (2949, 2954); (2958, 2960); (2962, 2965); (2969, 2970); (2972, 2972);
   (2974, 2975); (2979, 2980); (2984, 2986); (2990, 3001); (3024, 3024);
   (3046, 3058); (3077, 3084); (3086, 3088); (3090, 3112); (3114, 3129);
   (3133, 3133); (3160, 3162); (3165, 3165); (3168, 3169); (3174, 3183);
   (3192, 3198); (3200, 3200); (3205, 3212); (3214, 3216); (3218, 3240);
   (3242, 3251); (3253, 3257); (3261, 3261); (3293, 3294); (3296, 3297);
   (3302, 3311); (3313, 3314); (3332, 3340); (3342, 3344); (3346, 3386);
   (3389, 3389); (3406, 3406); (3412, 3414); (3416, 3425); (3430, 3448);
   (3450, 3455); (3461, 3478); (3482, 3505); (3507, 3515); (3517, 3517);
   (3520, 3526); (3558, 3567); (3585, 3632); (3634, 3635); (3648, 3654);
   (3664, 3673); (3713, 3714); (3716, 3716); (3718, 3722); (3724, 3747);
   (3749, 3749); (3751, 3760); (3762, 3763); (3773, 3773); (3776, 3780);
   (3782, 3782); (3792, 3801); (3804, 3807); (3840, 3840); (3872, 3891);
   (3904, 3911); (3913, 3948); (3976, 3980); (4096, 4138); (4159, 4169);
   (4176, 4181); (4186, 4189); (4193, 4193); (4197, 4198); (4206, 4208);
   (4213, 4225); (4238, 4238); (4240, 4249); (4256, 4293); (4295, 4295);
   (4301, 4301); (4304, 4346); (4348, 4680); (4682, 4685); (4688, 4694);
   (4696, 4696); (4698, 4701); (4704, 4744); (4746, 4749); (4752, 4784);
   (4786, 4789); (4792, 4798); (4800, 4800); (4802, 4805); (4808, 4822);
   (4824, 4880); (4882, 4885); (4888, 4954); (4969, 4988); (4992, 5007);
   (5024, 5109); (5112, 5117); (5121, 5740); (5743, 5759); (5761, 5786);
   (5792, 5866); (5870, 5880); (5888, 5905); (5919, 5937); (5952, 5969);
   (5984, 5996); (5998, 6000); (6016, 6067); (6103, 6103); (6108, 6108);
   (6112, 6121); (6128, 6137); (6160, 6169); (6176, 6264); (6272, 6276);
   (6279, 6312); (6314, 6314); (6320, 6389); (6400, 6430); (6470, 6509);
   (6512, 6516); (6528, 6571); (6576, 6601); (6608, 6618); (6656, 6678);
   (6688, 6740); (6784, 6793); (6800, 6809); (6823, 6823); (6917, 6963);
   (6981, 6988); (6992, 7001); (7043, 7072); (7086, 7141); (7168, 7203);
   (7232, 7241); (7245, 7293); (7296, 7304); (7312, 7354); (7357, 7359);
   (7401, 7404); (7406, 7411); (7413, 7414); (7418, 7418); (7424, 7615);
   (7680, 7957); (7960, 7965); (7968, 8005); (8008, 8013); (8016, 8023);
   (8025, 8025); (8027, 8027); (8029, 8029); (8031, 8061); (8064, 8116);
   (8118, 8124); (8126, 8126); (8130, 8132); (8134, 8140); (8144, 8147);
   (8150, 8155); (8160, 8172); (8178, 8180); (8182, 8188); (8304, 8305);
   (8308, 8313); (8319, 8329); (8336, 8348); (8450, 8450); (8455, 8455);
   (8458, 8467); (8469, 8469); (8473, 8477); (8484, 8484); (8486, 8486);
   (8488, 8488); (8490, 8493); (8495, 8505); (8508, 8511); (8517, 8521);
   (8526, 8526); (8528, 8585); (9312, 9371); (9450, 9471); (10102, 10131);
   (11264, 11492); (11499, 11502); (11506, 11507); (11517, 11517);
   (11520, 11557); (11559, 11559); (11565, 11565); (11568, 11623);
   (11631, 11631); (11648, 11670); (11680, 11686); (11688, 11694);
   (11696, 11702); (11704, 11710); (11712, 11718); (11720, 11726);
   (11728, 11734); (11736, 11742); (11823, 11823); (12293, 12295);
   (12321, 12329); (12337, 12341); (12344, 12348); (12353, 12438);
   (12445, 12447); (12449, 12538); (12540, 12543); (12549, 12591);
   (12593, 12686); (12690, 12693); (12704, 12735); (12784, 12799);
   (12832, 12841); (12872, 12879); (12881, 12895); (12928, 12937);
   (12977, 12991); (13312, 19903); (19968, 42124); (42192, 42237);
   (42240, 42508); (42512, 42539); (42560, 42606); (42623, 42653);
   (42656, 42735); (42775, 42783); (42786, 42888); (42891, 42954);
   (42960, 42961); (42963, 42963); (42965, 42969); (42994, 43009);
   (43011, 43013); (43015, 43018); (43020, 43042); (43056, 43061);
   (43072, 43123); (43138, 43187); (43216, 43225); (43250, 43255);
   (43259, 43259); (43261, 43262); (43264, 43301); (43312, 43334);
   (43360, 43388); (43396, 43442); (43471, 43481); (43488, 43492);
   (43494, 43518); (43520, 43560); (43584, 43586); (43588, 43595);
   (43600, 43609); (43616, 43638); (43642, 43642); (43646, 43695);
   (43697, 43697); (43701, 43702); (43705, 43709); (43712, 43712);
   (43714, 43714); (43739, 43741); (43744, 43754); (43762, 43764);
   (43777, 43782); (43785, 43790); (43793, 43798); (43808, 43814);
   (43816, 43822); (43824, 43866); (43868, 43881); (43888, 44002);
   (44016, 44025); (44032, 55203); (55216, 55238); (55243, 55291);
   (63744, 64109); (64112, 64217); (64256, 64262); (64275, 64279);
   (64285, 64285); (64287, 64296); (64298, 64310); (64312, 64316);
   (64318, 64318); (64320, 64321); (64323, 64324); (64326, 64433);
   (64467, 64829); (64848, 64911); (64914, 64967); (65008, 65019);
   (65136, 65140); (65142, 65276); (65296, 65305); (65313, 65338);
   (65345, 65370); (65382, 65470); (65474, 65479); (65482, 65487);
   (65490, 65495); (65498, 65500); (65536, 65547); (65549, 65574);
   (65576, 65594); (65596, 65597); (65599, 65613); (65616, 65629);
   (65664, 65786); (65799, 65843); (65856, 65912); (65930, 65931);
   (66176, 66204); (66208, 66256); (66273, 66299); (66304, 66339);
   (66349, 66378); (66384, 66421); (66432, 66461); (66464, 66499);
   (66504, 66511); (66513, 66517); (66560, 66717); (66720, 66729);
   (66736, 66771); (66776, 66811); (66816, 66855); (66864, 66915);
   (66928, 66938); (66940, 66954); (66956, 66962); (66964, 66965);
   (66967, 66977); (66979, 66993); (66995, 67001); (67003, 67004);
   (67072, 67382); (67392, 67413); (67424, 67431); (67456, 67461);
   (67463, 67504); (67506, 67514); (67584, 67589); (67592, 67592);
   (67594, 67637); (67639, 67640); (67644, 67644); (67647, 67669);
   (67672, 67702); (67705, 67742); (67751, 67759); (67808, 67826);
   (67828, 67829); (67835, 67867); (67872, 67897); (67968, 68023);
   (68028, 68047); (68050, 68096); (68112, 68115); (68117, 68119);
   (68121, 68149); (68160, 68168); (68192, 68222); (68224, 68255);
   (68288, 68295); (68297, 68324); (68331, 68335); (68352, 68405);
   (68416, 68437); (68440, 68466); (68472, 68497); (68521, 68527);
   (68608, 68680); (68736, 68786); (68800, 68850); (68858, 68899);
   (68912, 68921); (69216, 69246); (69248, 69289); (69296, 69297);
   (69376, 69415); (69424, 69445); (69457, 69460); (69488, 69505);
   (69552, 69579); (69600, 69622); (69635, 69687); (69714, 69743);
   (69745, 69746); (69749, 69749); (69763, 69807); (69840, 69864);
   (69872, 69881); (69891, 69926); (69942, 69951); (69956, 69956);
   (69959, 69959); (69968, 70002); (70006, 70006); (70019, 70066);
   (70081, 70084); (70096, 70106); (70108, 70108); (70113, 70132);
   (70144, 70161); (70163, 70187); (70272, 70278); (70280, 70280);
   (70282, 70285); (70287, 70301); (70303, 70312); (70320, 70366);
   (70384, 70393); (70405, 70412); (70415, 70416); (70419, 70440);
   (70442, 70448); (70450, 70451); (70453, 70457); (70461, 70461);
   (70480, 70480); (70493, 70497); (70656, 70708); (70727, 70730);
   (70736, 70745); (70751, 70753); (70784, 70831); (70852, 70853);
   (70855, 70855); (70864, 70873); (71040, 71086); (71128, 71131);
   (71168, 71215); (71236, 71236); (71248, 71257); (71296, 71338);
   (71352, 71352); (71360, 71369); (71424, 71450); (71472, 71483);
   (71488, 71494); (71680, 71723); (71840, 71922); (71935, 71942);
   (71945, 71945); (71948, 71955); (71957, 71958); (71960, 71983);
   (71999, 71999); (72001, 72001); (72016, 72025); (72096, 72103);
   (72106, 72144); (72161, 72161); (72163, 72163); (72192, 72192);
   (72203, 72242); (72250, 72250); (72272, 72272); (72284, 72329);
   (72349, 72349); (72368, 72440); (72704, 72712); (72714, 72750);
   (72768, 72768); (72784, 72812); (72818, 72847); (72960, 72966);
   (72968, 72969); (72971, 73008); (73030, 73030); (73040, 73049);
   (73056, 73061); (73063, 73064); (73066, 73097); (73112, 73112);
   (73120, 73129); (73440, 73458); (73648, 73648); (73664, 73684);
   (73728, 74649); (74752, 74862); (74880, 75075); (77712, 77808);
   (77824, 78894); (82944, 83526); (92160, 92728); (92736, 92766);
   (92768, 92777); (92784, 92862); (92864, 92873); (92880, 92909);
   (92928, 92975); (92992, 92995); (93008, 93017); (93019, 93025);
   (93027, 93047); (93053, 93071); (93760, 93846); (93952, 94026);
   (94032, 94032); (94099, 94111); (94176, 94177); (94179, 94179);
   (94208, 100343); (100352, 101589); (101632, 101640); (110576, 110579);
   (110581, 110587); (110589, 110590); (110592, 110882); (110928, 110930);
   (110948, 110951); (110960, 111355); (113664, 113770); (113776, 113788);
   (113792, 113800); (113808, 113817); (119520, 119539); (119648, 119672);
   (119808, 119892); (119894, 119964); (119966, 119967); (119970, 119970);
   (119973, 119974); (119977, 119980); (119982, 119993); (119995, 119995);
   (119997, 120003); (120005, 120069); (120071, 120074); (120077, 120084);
   (120086, 120092); (120094, 120121); (120123, 120126); (120128, 120132);
   (120134, 120134); (120138, 120144); (120146, 120485); (120488, 120512);
   (120514, 120538); (120540, 120570); (120572, 120596); (120598, 120628);
   (120630, 120654); (120656, 120686); (120688, 120712); (120714, 120744);
   (120746, 120770); (120772, 120779); (120782, 120831); (122624, 122654);
   (123136, 123180); (123191, 123197); (123200, 123209); (123214, 123214);
   (123536, 123565); (123584, 123627); (123632, 123641); (124896, 124902);
   (124904, 124907); (124909, 124910); (124912, 124926); (124928, 125124);
   (125127, 125135); (125184, 125251); (125259, 125259); (125264, 125273);
   (126065, 126123); (126125, 126127); (126129, 126132); (126209, 126253);
   (126255, 126269); (126464, 126467); (126469, 126495); (126497, 126498);
   (126500, 126500); (126503, 126503); (126505, 126514); (126516, 126519);
   (126521, 126521); (126523, 126523); (126530, 126530); (126535, 126535);
   (126537, 126537); (126539, 126539); (126541, 126543); (126545, 126546);
   (126548, 126548); (126551, 126551); (126553, 126553); (126555, 126555);
   (126557, 126557); (126559, 126559); (126561, 126562); (126564, 126564);
   (126567, 126570); (126572, 126578); (126580, 126583); (126585, 126588);
   (126590, 126590); (126592, 126601); (126603, 126619); (126625, 126627);
   (126629, 126633); (126635, 126651); (127232, 127244); (130032, 130041);
   (131072, 173791); (173824, 177976); (177984, 178205); (178208, 183969);
   (183984, 191456); (194560, 195101); (196608, 201546)]%N.

Definition isword (c : char) : bool := in_ranges word_ranges c.

(** [[A-Za-z]] *)
Definition isletter (c : char) : bool :=
  (N.leb 65 c && N.leb c 90) || (N.leb 97 c && N.leb c 122).

Definition isquote (c : char) : bool := N.eqb c c_squote || N.eqb c c_dquote.

(** [\s*] *)
Definition m_ws (s : str) : option str := Some (lstrip s).

(** [\s*$]: only whitespace is left. *)
Definition m_ws_end (s : str) : bool :=
  match lstrip s with [] => true | _ => false end.

(** A literal. *)
Definition m_lit (p : str) (s : str) : option str :=
  if startswith p s then Some (skipn (List.length p) s) else None.

(** One character. *)
Definition m_char (c : char) (s : str) : option str :=
  match s with
  | d :: s' => if N.eqb d c then Some s' else None
  | [] => None
  end.

(** One character of a class, returned. *)
Definition m_class (p : char -> bool) (s : str) : option (char * str) :=
  match s with
  | d :: s' => if p d then Some (d, s') else None
  | [] => None
  end.

(** The first literal of a list that is a prefix of the input. *)
Fixpoint m_alt (ps : list str) (s : str) : option (str * str) :=
  match ps with
  | [] => None
  | p :: ps' =>
      match m_lit p s with
      | Some s' => Some (p, s')
      | None => m_alt ps' s
      end
  end.

(** The longest prefix of characters of a class, and the rest. *)
Fixpoint span (p : char -> bool) (s : str) : str * str :=
  match s with
  | c :: s' => if p c then let (a, b) := span p s' in (c :: a, b) else ([], s)
  | [] => ([], [])
  end.

(** [(\d+)] *)
Definition m_digits1 (s : str) : option (str * str) :=
  match span isdigit s with
  | ([], _) => None
  | (ds, rest) => Some (ds, rest)
  end.

(** [(.*?)] followed by the continuation [k]: the shortest prefix without a
    newline after which [k] accepts. *)
Fixpoint m_lazy_dot (k : str -> bool) (acc : str) (s : str) : option str :=
  if k s then Some (rev acc)
  else match s with
       | c :: s' => if N.eqb c c_nl then None else m_lazy_dot k (c :: acc) s'
       | [] => None
       end.

(** [.*c]: the character [c] occurs before any newline. *)
Fixpoint m_dots_then (c : char) (s : str) : bool :=
  match s with
  | d :: s' =>
      N.eqb d c || (negb (N.eqb d c_nl) && m_dots_then c s')
  | [] => false
  end.

Definition is_some {A} (o : option A) : bool :=
  match o with Some _ => true | None => false end.

(** [re.sub] for a pattern that matches no empty string.  The matcher
    receives the character before the position tried ([\b] looks at it)
    and returns the replacement and the length of the match; [skip]
    counts the characters of a match still to be passed over. *)
Fixpoint re_sub_from (m : option char -> str -> option (str * nat))
    (prev : option char) (skip : nat) (s : str) : str :=
  match s with
  | [] => []
  | c :: s' =>
      match skip with
      | S k => re_sub_from m (Some c) k s'
      | O =>
          match m prev s with
          | Some (repl, S k) => repl ++ re_sub_from m (Some c) k s'
          | _ => c :: re_sub_from m (Some c) O s'
          end
      end
  end.

Definition re_sub (m : option char -> str -> option (str * nat)) (s : str) : str :=
  re_sub_from m None 0 s.

(** [\b] before a word character: the previous character, if any, is not
    one. *)
Definition boundary_before (prev : option char) : bool :=
  match prev with Some c => negb (isword c) | None => true end.

(** [\b] after a word character. *)
Definition boundary_after (s : str) : bool :=
  match s with c :: _ => negb (isword c) | [] => true end.

(** [(?![A-Za-z])] *)
Definition not_letter_ahead (s : str) : bool :=
  match s with c :: _ => negb (isletter c) | [] => true end.

(** A literal letter under [re.IGNORECASE]; [p] is the letter in lower
    case.  It matches the ASCII letter in either case, and for [i] also
    U+0130 and U+0131. *)
Definition ci_char (p : char) (c : char) : bool :=
  N.eqb c p || N.eqb (c + 32) p ||
  (N.eqb p 105 && (N.eqb c 304 || N.eqb c 305)).

Fixpoint m_ci_lit (p : str) (s : str) : option str :=
  match p, s with
  | [], _ => Some s
  | x :: p', c :: s' => if ci_char x c then m_ci_lit p' s' else None
  | _ :: _, [] => None
  end.

End Re.

(** ** The script runner: normalisation passes *)

Module ScriptRunner.
Import PyStr Re.

(** *** [_split_concat_calls] *)

Definition plus_sep : str := lit " + ".

Record concat_state := {
  cc_parts : list str;
  cc_buf : str;
  cc_quote : option char;
  cc_escaped : bool
}.

(** The text of [buf], stripped, is appended to [parts] unless empty. *)
Definition flush_part (parts : list str) (buf : str) : list str :=
  match strip buf with
  | [] => parts
  | part => parts ++ [part]
  end.

(** The [while i < len(line)] loop; [skip] counts the characters that
    [i += 3] passes over. *)
Fixpoint split_concat_loop (st : concat_state) (skip : nat) (s : str)
  : concat_state :=
  match s with
  | [] => st
  | c :: s' =>
      match skip with
      | S k => split_concat_loop st k s'
      | O =>
          if cc_escaped st then
            split_concat_loop
              {| cc_parts := cc_parts st; cc_buf := cc_buf st ++ [c];
                 cc_quote := cc_quote st; cc_escaped := false |} 0 s'
          else if N.eqb c c_backslash then
            split_concat_loop
              {| cc_parts := cc_parts st; cc_buf := cc_buf st ++ [c];
                 cc_quote := cc_quote st; cc_escaped := true |} 0 s'
          else if isquote c then
            let q :=
              match cc_quote st with
              | None => Some c
              | Some q0 => if N.eqb q0 c then None else Some q0
              end in
            split_concat_loop
              {| cc_parts := cc_parts st; cc_buf := cc_buf st ++ [c];
                 cc_quote := q; cc_escaped := false |} 0 s'
          else if negb (is_some (cc_quote st)) && startswith plus_sep s then
            split_concat_loop
              {| cc_parts := flush_part (cc_parts st) (cc_buf st);
                 cc_buf := []; cc_quote := cc_quote st;
                 cc_escaped := false |} 2 s'
          else
            split_concat_loop
              {| cc_parts := cc_parts st; cc_buf := cc_buf st ++ [c];
                 cc_quote := cc_quote st; cc_escaped := false |} 0 s'
      end
  end.

Definition _split_concat_calls (line : str) : list str :=
  if negb (contains plus_sep line) then [line]
  else
    let st := split_concat_loop
                {| cc_parts := []; cc_buf := []; cc_quote := None;
                   cc_escaped := false |} 0 line in
    match flush_part (cc_parts st) (cc_buf st) with
    | [] => [line]
    | parts => parts
    end.

(** *** [_repair_multiline_calls] *)

(** [_count_unescaped(text, quote)] *)
Fixpoint count_unescaped_from (escaped : bool) (quote : char) (text : str)
  : nat :=
  match text with
  | [] => 0
  | c :: text' =>
      if escaped then count_unescaped_from false quote text'
      else if N.eqb c c_backslash then count_unescaped_from true quote text'
      else if N.eqb c quote then S (count_unescaped_from false quote text')
      else count_unescaped_from false quote text'
  end.

Definition _count_unescaped (text : str) (quote : char) : nat :=
  count_unescaped_from false quote text.

Definition is_insert_call (line : str) : bool :=
  contains (lit "insert_text(") line
  || contains (lit "insert_equation(") line
  || contains (lit "insert_latex_equation(") line.

Record repair_state := {
  repaired : list str;
  buffer : list str;
  quote_char : option char
}.

(** [sum(_count_unescaped(chunk, quote_char) for chunk in buffer)] *)
Definition buffer_count (q : char) (buf : list str) : nat :=
  list_sum (List.map (fun chunk => _count_unescaped chunk q) buf).

(** [" ".join(part.strip() for part in buffer)] *)
Definition join_buffer (buf : list str) : str :=
  join [c_space] (List.map strip buf).

(** One iteration of [for line in lines]. *)
Definition repair_step (st : repair_state) (line : str) : repair_state :=
  match quote_char st with
  | None =>
      if is_insert_call line then
        if Nat.odd (_count_unescaped line c_squote) then
          {| repaired := repaired st; buffer := [line];
             quote_char := Some c_squote |}
        else if Nat.odd (_count_unescaped line c_dquote) then
          {| repaired := repaired st; buffer := [line];
             quote_char := Some c_dquote |}
        else
          {| repaired := repaired st ++ [line]; buffer := buffer st;
             quote_char := None |}
      else
        {| repaired := repaired st ++ [line]; buffer := buffer st;
           quote_char := None |}
  | Some q =>
      let buf := buffer st ++ [line] in
      if Nat.even (buffer_count q buf) then
        {| repaired := repaired st ++ [join_buffer buf]; buffer := [];
           quote_char := None |}
      else
        {| repaired := repaired st; buffer := buf; quote_char := Some q |}
  end.

(** The closing quote and parenthesis appended to an unbalanced call. *)
Definition closing (q : char) : str := [q; c_rparen].

(** The code after the loop: [if buffer: ...]. *)
Definition repair_finish (st : repair_state) : list str :=
  match buffer st with
  | [] => repaired st
  | buf =>
      let joined := join_buffer buf in
      let joined' :=
        match quote_char st with
        | Some q =>
            if N.eqb q c_squote then
              if negb (endswith (closing c_squote) (strip joined))
              then joined ++ closing c_squote else joined
            else if N.eqb q c_dquote then
              if negb (endswith (closing c_dquote) (strip joined))
              then joined ++ closing c_dquote else joined
            else joined
        | None => joined
        end in
      repaired st ++ [joined']
  end.

Definition repair_init : repair_state :=
  {| repaired := []; buffer := []; quote_char := None |}.

Definition repair_scan (lines : list str) : repair_state :=
  fold_left repair_step lines repair_init.

Definition _repair_multiline_calls (lines : list str) : list str :=
  repair_finish (repair_scan lines).

(** *** [_sanitize_unterminated_equation_strings] *)

Definition fix_unterminated_line (line : str) : str :=
  if contains (lit "insert_equation('") line
     && Nat.odd (count_char c_squote line)
  then line ++ closing c_squote
  else if contains (lit "insert_equation(" ++ [c_dquote]) line
          && Nat.odd (count_char c_dquote line)
  then line ++ closing c_dquote
  else line.

Definition _sanitize_unterminated_equation_strings (script : str) : str :=
  join_nl (List.map fix_unterminated_line (split_nl script)).

(** *** [_normalize_inline_calls] *)

Definition is_linebreak (c : char) : bool :=
  N.eqb c c_nl || N.eqb c c_cr || N.eqb c c_ls || N.eqb c c_ps.

Definition call_targets : list str :=
  [lit "insert_text("; lit "insert_equation("; lit "insert_latex_equation("].

Record inline_state := {
  in_call : bool;
  il_quote_char : option char;
  quote_open : bool
}.

(** The quote bookkeeping of one character inside a call. *)
Definition inline_quote (st : inline_state) (c : char) : inline_state :=
  if isquote c then
    match il_quote_char st with
    | None =>
        {| in_call := in_call st; il_quote_char := Some c;
           quote_open := true |}
    | Some q =>
        if N.eqb q c then
          let o := negb (quote_open st) in
          {| in_call := in_call st;
             il_quote_char := if negb o then None else Some q;
             quote_open := o |}
        else st
    end
  else st.

(** The [while i < len(script)] loop and the code after it. *)
Fixpoint inline_loop (st : inline_state) (s : str) : str :=
  match s with
  | [] =>
      if in_call st && quote_open st then
        [match il_quote_char st with Some q => q | None => c_squote end;
         c_rparen]
      else []
  | c :: s' =>
      let st0 :=
        if negb (in_call st) && existsb (fun t => startswith t s) call_targets
        then {| in_call := true; il_quote_char := il_quote_char st;
                quote_open := quote_open st |}
        else st in
      if in_call st0 then
        let st1 := inline_quote st0 c in
        if is_linebreak c then c_space :: inline_loop st1 s'
        else
          let st2 :=
            if N.eqb c c_rparen && negb (quote_open st1)
            then {| in_call := false; il_quote_char := il_quote_char st1;
                    quote_open := quote_open st1 |}
            else st1 in
          c :: inline_loop st2 s'
      else c :: inline_loop st0 s'
  end.

Definition _normalize_inline_calls (script : str) : str :=
  inline_loop {| in_call := false; il_quote_char := None;
                 quote_open := false |} script.

(** *** [_sanitize_multiline_strings] *)

Fixpoint multiline_loop (q : option char) (escaped : bool) (s : str) : str :=
  match s with
  | [] => match q with Some c => [c] | None => [] end
  | c :: s' =>
      if escaped then c :: multiline_loop q false s'
      else if N.eqb c c_backslash then c :: multiline_loop q true s'
      else if isquote c then
        let q' :=
          match q with
          | None => Some c
          | Some q0 => if N.eqb q0 c then None else Some q0
          end in
        c :: multiline_loop q' false s'
      else if is_linebreak c && is_some q then
        c_space :: multiline_loop q false s'
      else c :: multiline_loop q false s'
  end.

Definition _sanitize_multiline_strings (script : str) : str :=
  multiline_loop None false script.

(** *** [_strip_code_markers] *)

Definition is_code_marker (line : str) : bool :=
  let stripped := strip line in
  str_eqb stripped (lit "[CODE]") || str_eqb stripped (lit "[/CODE]")
  || str_eqb stripped (lit "CODE").

Definition _strip_code_markers (script : str) : str :=
  join_nl (filter (fun line => negb (is_code_marker line)) (split_nl script)).

(** *** [_normalize_primes_in_equations] *)

(** A match of a pattern at the head of [s], given as the text left after
    it: the replacement with the length of the match. *)
Definition matched (s : str) (repl : str) (rest : str) : option (str * nat) :=
  Some (repl, List.length s - List.length rest).

(** [\\+prime\b] under IGNORECASE, replaced by an apostrophe. *)
Definition m_backslash_prime (_ : option char) (s : str) : option (str * nat) :=
  match span (N.eqb c_backslash) s with
  | ([], _) => None
  | (_, s1) =>
      let* s2 := m_ci_lit (lit "prime") s1 in
      if boundary_after s2 then matched s [c_squote] s2 else None
  end.

(** [\\'+], replaced by an apostrophe. *)
Definition m_escaped_apostrophes (_ : option char) (s : str)
  : option (str * nat) :=
  let* s1 := m_char c_backslash s in
  match span (N.eqb c_squote) s1 with
  | ([], _) => None
  | (_, s2) => matched s [c_squote] s2
  end.

(** [([A-Za-z])\\(?![A-Za-z])], replaced by [\1']. *)
Definition m_letter_backslash (_ : option char) (s : str)
  : option (str * nat) :=
  let* (l, s1) := m_class isletter s in
  let* s2 := m_char c_backslash s1 in
  if not_letter_ahead s2 then matched s [l; c_squote] s2 else None.

(** [\brm\s*([A-Za-z])\s*\\(?![A-Za-z])], replaced by [rm\1']. *)
Definition m_rm_letter_backslash (prev : option char) (s : str)
  : option (str * nat) :=
  if boundary_before prev then
    let* s1 := m_lit (lit "rm") s in
    let* s2 := m_ws s1 in
    let* (l, s3) := m_class isletter s2 in
    let* s4 := m_ws s3 in
    let* s5 := m_char c_backslash s4 in
    if not_letter_ahead s5 then matched s (lit "rm" ++ [l; c_squote]) s5
    else None
  else None.

Definition rm_F_prime : str := lit "rm F prime".

(** [\brm\s*F\s*'], replaced by [rm F prime]. *)
Definition m_rm_F_apostrophe (prev : option char) (s : str)
  : option (str * nat) :=
  if boundary_before prev then
    let* s1 := m_lit (lit "rm") s in
    let* s2 := m_ws s1 in
    let* s3 := m_lit (lit "F") s2 in
    let* s4 := m_ws s3 in
    let* s5 := m_char c_squote s4 in
    matched s rm_F_prime s5
  else None.

(** [\brm\s*F\s*\\\\(?![A-Za-z])], replaced by [rm F prime]. *)
Definition m_rm_F_backslashes (prev : option char) (s : str)
  : option (str * nat) :=
  if boundary_before prev then
    let* s1 := m_lit (lit "rm") s in
    let* s2 := m_ws s1 in
    let* s3 := m_lit (lit "F") s2 in
    let* s4 := m_ws s3 in
    let* s5 := m_lit [c_backslash; c_backslash] s4 in
    if not_letter_ahead s5 then matched s rm_F_prime s5 else None
  else None.

(** [\brm\s*F\s*prime\b] under IGNORECASE, replaced by [rm F prime]. *)
Definition m_rm_F_prime (prev : option char) (s : str)
  : option (str * nat) :=
  if boundary_before prev then
    let* s1 := m_ci_lit (lit "rm") s in
    let* s2 := m_ws s1 in
    let* s3 := m_ci_lit (lit "f") s2 in
    let* s4 := m_ws s3 in
    let* s5 := m_ci_lit (lit "prime") s4 in
    if boundary_after s5 then matched s rm_F_prime s5 else None
  else None.

(** [\brm\s+([A-Za-z])'], replaced by [rm\1']. *)
Definition m_rm_space_letter (prev : option char) (s : str)
  : option (str * nat) :=
  if boundary_before prev then
    let* s1 := m_lit (lit "rm") s in
    match span isspace s1 with
    | ([], _) => None
    | (_, s2) =>
        let* (l, s3) := m_class isletter s2 in
        let* s4 := m_char c_squote s3 in
        matched s (lit "rm" ++ [l; c_squote]) s4
    end
  else None.

(** The inner function [_fix]. *)
Definition _fix (s : str) : str :=
  let s := replace_char c_rquote [c_squote]
             (replace_char c_prime [c_squote] s) in
  let s := re_sub m_backslash_prime s in
  let s := re_sub m_escaped_apostrophes s in
  let s := re_sub m_letter_backslash s in
  let s := re_sub m_rm_letter_backslash s in
  let s := re_sub m_rm_F_apostrophe s in
  let s := re_sub m_rm_F_backslashes s in
  let s := re_sub m_rm_F_prime s in
  let s := re_sub m_rm_space_letter s in
  s.

(** [(.*?)] under DOTALL followed by [\2\)]: the text before the first
    occurrence of the quote followed by a closing parenthesis. *)
Fixpoint m_lazy_payload (q : char) (acc : str) (s : str) : option (str * str) :=
  match s with
  | [] => None
  | c :: s' =>
      if N.eqb c q && startswith [c_rparen] s' then Some (rev acc, tl s')
      else m_lazy_payload q (c :: acc) s'
  end.

(** The pattern [pattern]: group 1 is [insert_(?:equation|latex_equation)\(],
    group 2 a single or double quote, group 3 [.*?] and group 4 [\2\)];
    with its replacement [repl]. *)
Definition m_equation_call (_ : option char) (s : str) : option (str * nat) :=
  let* (g1, s1) :=
    m_alt [lit "insert_equation("; lit "insert_latex_equation("] s in
  let* (q, s2) := m_class isquote s1 in
  let* (g3, s3) := m_lazy_payload q [] s2 in
  matched s (g1 ++ [q] ++ _fix g3 ++ [q; c_rparen]) s3.

Definition _normalize_primes_in_equations (script : str) : str :=
  re_sub m_equation_call script.

(** *** Instruction lines the passes write *)

Definition insert_paragraph_line : str := lit "insert_paragraph()".
Definition insert_small_paragraph_line : str := lit "insert_small_paragraph()".
Definition align_right_line : str := lit "set_align_right_next_line()".
Definition align_justify_line : str := lit "set_align_justify_next_line()".
Definition exit_box_line : str := lit "exit_box()".
Definition focus_outside_line : str := lit "focus_placeholder('@@@')".
Definition focus_inside_line : str := lit "focus_placeholder('###')".
Definition focus_after_line : str := lit "focus_placeholder('&&&')".
Definition space_text_line : str := lit "insert_text(' ')".

(** [f"insert_text('[{score_num}]')"], with the score suffix after the
    number. *)
Definition score_text_line (score_num : str) : str :=
  lit "insert_text('[" ++ score_num ++ [c_jeom] ++ lit "]')".

(** *** [_ensure_score_right_align] *)

(** [score_re]; the result is group 4, the digits. *)
Definition score_re (line : str) : option str :=
  let* s := m_ws line in
  let* (_, s) :=
    m_alt [lit "insert_text"; lit "insert_equation";
           lit "insert_latex_equation"] s in
  let* s := m_char c_lparen s in
  let* s := m_ws s in
  let* (q, s) := m_class isquote s in
  let* s := m_ws s in
  let* s := m_lit (lit "[") s in
  let* s := m_ws s in
  let* (score_num, s) := m_digits1 s in
  let* s := m_ws s in
  let* s := m_char c_jeom s in
  let* s := m_ws s in
  let* s := m_lit (lit "]") s in
  let* s := m_ws s in
  let* s := m_char q s in
  let* s := m_ws s in
  let* s := m_char c_rparen s in
  if m_ws_end s then Some score_num else None.

Definition is_paragraph (line : str) : bool :=
  str_eqb (strip line) insert_paragraph_line.

Definition is_small_paragraph (line : str) : bool :=
  str_eqb (strip line) insert_small_paragraph_line.

(** The [while out and out[-1].strip() in (...)] loop, on the reversed
    output: the head of [rout] is [out[-1]]. *)
Fixpoint trim_breaks (rout : list str) : list str :=
  match rout with
  | [] => []
  | last :: rest =>
      if is_paragraph last then
        match rest with
        | prev :: _ => if is_paragraph prev then trim_breaks rest else rout
        | [] => rout
        end
      else if is_small_paragraph last then trim_breaks rest
      else rout
  end.

Record score_state := {
  sc_out : list str;
  need_extra_blank_line : bool;
  in_line_content : bool
}.

(** The branch [if m:] of the loop body. *)
Definition score_emit (out : list str) (score_num : str) : list str :=
  let out := rev (trim_breaks (rev out)) in
  let out :=
    match rev out with
    | last :: _ =>
        if negb (is_paragraph last) then out ++ [insert_paragraph_line]
        else out
    | [] => out
    end in
  let prev := match rev out with last :: _ => strip last | [] => [] end in
  let out :=
    if negb (str_eqb prev align_right_line) then out ++ [align_right_line]
    else out in
  out ++ [score_text_line score_num; insert_paragraph_line].

(** One iteration of [for idx, line in enumerate(lines)]. *)
Definition score_step (st : score_state) (line : str) : score_state :=
  let stripped := strip line in
  if str_eqb stripped insert_paragraph_line then
    {| sc_out := sc_out st ++ [line]; need_extra_blank_line := false;
       in_line_content := false |}
  else if str_eqb stripped insert_small_paragraph_line then
    {| sc_out := sc_out st ++ [line]; need_extra_blank_line := false;
       in_line_content := false |}
  else
    let nonblank := match stripped with [] => false | _ => true end in
    let st1 :=
      if need_extra_blank_line st && nonblank then
        {| sc_out := sc_out st ++ [insert_paragraph_line];
           need_extra_blank_line := false;
           in_line_content := in_line_content st |}
      else st in
    match score_re line with
    | Some score_num =>
        {| sc_out := score_emit (sc_out st1) score_num;
           need_extra_blank_line := true; in_line_content := false |}
    | None =>
        {| sc_out := sc_out st1 ++ [line];
           need_extra_blank_line := need_extra_blank_line st1;
           in_line_content :=
             if nonblank then true else in_line_content st1 |}
    end.

Definition score_init : score_state :=
  {| sc_out := []; need_extra_blank_line := false;
     in_line_content := false |}.

Definition _ensure_score_right_align (lines : list str) : list str :=
  sc_out (fold_left score_step lines score_init).

(** *** [_sanitize_tabs] *)

(** [line.strip()] is [insert_text('\t')] in either quoting; the argument
    is the two characters backslash and t of the script text. *)
Definition is_tab_text (line : str) : bool :=
  str_eqb (strip line) (lit "insert_text('\t')")
  || str_eqb (strip line)
       (lit "insert_text(" ++ [c_dquote] ++ lit "\t" ++ [c_dquote] ++ lit ")").

(** The inner loop [while j < len(lines) and not lines[j].strip()] and the
    test after it, on [lines[i+1:]]. *)
Fixpoint next_is_equation (rest : list str) : bool :=
  match rest with
  | [] => false
  | l :: rest' =>
      match strip l with
      | [] => next_is_equation rest'
      | _ => startswith (lit "insert_equation(") (lstrip l)
      end
  end.

(** The loop [while i < len(lines)], on [lines[i:]]. *)
Fixpoint _sanitize_tabs (lines : list str) : list str :=
  match lines with
  | [] => []
  | line :: rest =>
      if is_tab_text line then
        (if next_is_equation rest then line else space_text_line)
          :: _sanitize_tabs rest
      else line :: _sanitize_tabs rest
  end.

(** *** [_normalize_placeholders] *)

(** What follows group 2 of [fp_re]: the quote of group 1, [\s*\)\s*$]. *)
Definition fp_tail (q : char) (s : str) : bool :=
  match m_char q s with
  | Some s1 =>
      match m_char c_rparen (lstrip s1) with
      | Some s2 => m_ws_end s2
      | None => false
      end
  | None => false
  end.

(** [fp_re]; the result is group 2, the marker. *)
Definition fp_re (s : str) : option str :=
  let* s := m_ws s in
  let* s := m_lit (lit "focus_placeholder(") s in
  let* s := m_ws s in
  let* (q, s) := m_class isquote s in
  m_lazy_dot (fp_tail q) [] s.

Definition is_box_letter (c : char) : bool :=
  N.eqb c c_giyeok || N.eqb c c_nieun || N.eqb c c_digeut.

Definition box_item_re (s : str) : bool :=
  is_some
    (let* s := m_ws s in
     let* s := m_lit (lit "insert_text(") s in
     let* s := m_ws s in
     let* (_, s) := m_class isquote s in
     let* s := m_ws s in
     let* (_, s) := m_class is_box_letter s in
     m_lit (lit ".") s).

Definition content_re (s : str) : bool :=
  is_some
    (let* s := m_ws s in
     let* (_, s) :=
       m_alt [lit "insert_text"; lit "insert_equation"; lit "set_bold";
              lit "set_align_justify_next_line";
              lit "set_align_right_next_line"] s in
     m_char c_lparen s).

Definition box_openers : list str :=
  [[c_lparen]; [c_white_circle]; [c_bullseye]; [c_black_circle]; [c_bullet];
   c_giyeok :: lit "."; c_nieun :: lit "."; c_digeut :: lit ".";
   c_ga :: lit "."; c_na :: lit "."; c_da :: lit "."].

Definition box_start_re (s : str) : bool :=
  is_some
    (let* s := m_ws s in
     let* s := m_lit (lit "insert_text(") s in
     let* s := m_ws s in
     let* (_, s) := m_class isquote s in
     let* s := m_ws s in
     m_alt box_openers s).

Definition choice_re (s : str) : bool :=
  match
    (let* s := m_ws s in
     let* s := m_lit (lit "insert_") s in
     let* (_, s) := m_alt [lit "text"; lit "equation"] s in
     let* s := m_char c_lparen s in
     let* s := m_ws s in
     let* (_, s) := m_class isquote s in
     Some s)
  with
  | Some s => m_dots_then c_circled_one s
  | None => false
  end.

Definition template_names : list str :=
  [lit "header.hwp"; lit "box.hwp"; lit "box_white.hwp"].

Definition is_template_line (stripped : str) : bool :=
  startswith (lit "insert_template(") stripped
  && existsb (fun name => contains name stripped) template_names.

Definition names_choices_template (stripped : str) : bool :=
  contains (lit "header.hwp") stripped
  || contains (lit "box_white.hwp") stripped
  || contains (lit "box.hwp") stripped.

(** Where a line of the output comes from: it is a line of the input, or
    the pass wrote it.  The pass never reads this mark; it is kept so that
    what the pass synthesizes can be told from what it copies. *)
Inductive origin := Copied | Written.

Definition copied (line : str) : origin * str := (Copied, line).
Definition written (line : str) : origin * str := (Written, line).

Record ph_state := {
  ph_out : list (origin * str);
  seen_inside : bool;
  inserted_inside : bool;
  saw_template : bool;
  has_choices_placeholder : bool;
  saw_outside : bool;
  saw_after_box : bool
}.

Definition ph_init : ph_state :=
  {| ph_out := []; seen_inside := false; inserted_inside := false;
     saw_template := false; has_choices_placeholder := false;
     saw_outside := false; saw_after_box := false |}.

Definition set_out (st : ph_state) (o : list (origin * str)) : ph_state :=
  {| ph_out := o; seen_inside := seen_inside st;
     inserted_inside := inserted_inside st; saw_template := saw_template st;
     has_choices_placeholder := has_choices_placeholder st;
     saw_outside := saw_outside st; saw_after_box := saw_after_box st |}.

Definition push (st : ph_state) (ls : list (origin * str)) : ph_state :=
  set_out st (ph_out st ++ ls).

Definition mark_template (st : ph_state) (choices : bool) : ph_state :=
  {| ph_out := ph_out st; seen_inside := seen_inside st;
     inserted_inside := inserted_inside st; saw_template := true;
     has_choices_placeholder := choices || has_choices_placeholder st;
     saw_outside := saw_outside st; saw_after_box := saw_after_box st |}.

Definition mark_outside (st : ph_state) : ph_state :=
  {| ph_out := ph_out st; seen_inside := seen_inside st;
     inserted_inside := inserted_inside st; saw_template := saw_template st;
     has_choices_placeholder := has_choices_placeholder st;
     saw_outside := true; saw_after_box := saw_after_box st |}.

Definition mark_seen_inside (st : ph_state) : ph_state :=
  {| ph_out := ph_out st; seen_inside := true;
     inserted_inside := inserted_inside st; saw_template := saw_template st;
     has_choices_placeholder := has_choices_placeholder st;
     saw_outside := saw_outside st; saw_after_box := saw_after_box st |}.

Definition mark_inserted_inside (st : ph_state) : ph_state :=
  {| ph_out := ph_out st; seen_inside := true;
     inserted_inside := true; saw_template := saw_template st;
     has_choices_placeholder := has_choices_placeholder st;
     saw_outside := saw_outside st; saw_after_box := saw_after_box st |}.

Definition mark_after_box (st : ph_state) : ph_state :=
  {| ph_out := ph_out st; seen_inside := seen_inside st;
     inserted_inside := inserted_inside st; saw_template := saw_template st;
     has_choices_placeholder := has_choices_placeholder st;
     saw_outside := saw_outside st; saw_after_box := true |}.

(** The second synthesis of the inside marker: it goes before a
    justify-alignment line that ends the output. *)
Definition push_inside_before_justify (out : list (origin * str))
  : list (origin * str) :=
  match rev out with
  | last :: rest =>
      if str_eqb (strip (snd last)) align_justify_line
      then rev rest ++ [written focus_inside_line; written align_justify_line]
      else out ++ [written focus_inside_line]
  | [] => out ++ [written focus_inside_line]
  end.

(** The four [if] statements of the branch [if not m:], in turn: the
    outside marker before the first content line after a template, *)
Definition synth_outside (stripped : str) (st : ph_state) : ph_state :=
  if saw_template st && negb (saw_outside st) && content_re stripped
  then mark_outside (push st [written focus_outside_line]) else st.

(** the inside marker before a line that opens a box, *)
Definition synth_inside (stripped : str) (st : ph_state) : ph_state :=
  if negb (seen_inside st) && saw_template st
     && has_choices_placeholder st && saw_outside st
     && negb (saw_after_box st)
     && (str_eqb stripped align_justify_line
         || box_item_re stripped || box_start_re stripped)
  then mark_inserted_inside (push st [written focus_inside_line]) else st.

(** the inside marker before an enumerated item, *)
Definition synth_inside_item (stripped : str) (st : ph_state) : ph_state :=
  if negb (seen_inside st) && saw_template st && saw_outside st
     && box_item_re stripped
  then mark_inserted_inside
         (set_out st (push_inside_before_justify (ph_out st)))
  else st.

(** and the way out of the box before the first choice. *)
Definition synth_after (stripped : str) (st : ph_state) : ph_state :=
  if seen_inside st && saw_template st && has_choices_placeholder st
     && negb (saw_after_box st) && choice_re stripped
  then mark_after_box
         (push st [written exit_box_line; written insert_paragraph_line;
                   written focus_after_line])
  else st.

(** The branch [if not m:] of the loop body: a line that is no
    [focus_placeholder] call. *)
Definition ph_other_line (st : ph_state) (line stripped : str) : ph_state :=
  let st := synth_outside stripped st in
  let st := synth_inside stripped st in
  let st := synth_inside_item stripped st in
  let st := synth_after stripped st in
  push st [copied line].

(** The code after [marker = m.group(2)]. *)
Definition ph_marker_line (st : ph_state) (line marker : str) : ph_state :=
  if str_eqb marker (lit "###") then
    if negb (inserted_inside st)
    then push (mark_seen_inside st) [copied line]
    else st
  else if str_eqb marker (lit "@@@") then
    let st := mark_outside st in
    if seen_inside st
    then push st [written exit_box_line; written insert_paragraph_line]
    else if saw_template st then push st [copied line]
    else st
  else if str_eqb marker (lit "&&&") then
    if has_choices_placeholder st then
      let st := mark_after_box st in
      if seen_inside st
      then push st [written exit_box_line; written insert_paragraph_line;
                    copied line]
      else push st [copied line]
    else st
  else push st [copied line].

(** One iteration of [for line in lines]. *)
Definition ph_step (st : ph_state) (line : str) : ph_state :=
  let stripped := strip line in
  if is_template_line stripped then
    push (mark_template st (names_choices_template stripped)) [copied line]
  else
    match fp_re stripped with
    | None => ph_other_line st line stripped
    | Some marker => ph_marker_line st line marker
    end.

Definition ph_scan (lines : list str) : ph_state :=
  fold_left ph_step lines ph_init.

(** The output, without the marks. *)
Definition _normalize_placeholders (lines : list str) : list str :=
  List.map snd (ph_out (ph_scan lines)).

(** *** [run]: the normalisation of the script text *)

Definition is_sp_tab (c : char) : bool := N.eqb c c_space || N.eqb c c_tab.

(** [margin[:i]] for the first [i] where the two indents differ. *)
Fixpoint common_prefix (a b : str) : str :=
  match a, b with
  | x :: a', y :: b' => if N.eqb x y then x :: common_prefix a' b' else []
  | _, _ => []
  end.

(** [textwrap.dedent] of Python's standard library: lines of blanks and
    tabs only are emptied, the margin is what the indents of the other
    lines share, and it is removed from each line that starts with it. *)
Definition dedent_margin (lines : list str) : option str :=
  fold_left
    (fun margin line =>
       match span is_sp_tab line with
       | (_, []) => margin
       | (indent, _ :: _) =>
           match margin with
           | None => Some indent
           | Some m =>
               if startswith m indent then Some m
               else if startswith indent m then Some indent
               else Some (common_prefix m indent)
           end
       end)
    lines None.

Definition dedent (text : str) : str :=
  let lines :=
    List.map (fun l => if forallb is_sp_tab l then [] else l)
      (split_nl text) in
  match dedent_margin lines with
  | Some (c :: m) =>
      join_nl
        (List.map
           (fun l => if startswith (c :: m) l
                     then skipn (List.length (c :: m)) l else l)
           lines)
  | _ => join_nl lines
  end.

Definition code_fence : str := lit "```".

(** [lines[:-1]] *)
Definition drop_last (ls : list str) : list str := removelast ls.

(** The removal of a leading code fence. *)
Definition strip_fence (cleaned : str) : str :=
  if startswith code_fence cleaned then
    let lines := tl (split_nl cleaned) in
    let lines :=
      match rev lines with
      | last :: _ =>
          if str_eqb (strip last) code_fence then drop_last lines else lines
      | [] => lines
      end in
    strip (join_nl lines)
  else cleaned.

(** The three passes over the line list, in the order of [run]. *)
Definition line_passes (lines : list str) : list str :=
  let expanded_lines := _normalize_placeholders lines in
  let expanded_lines := _ensure_score_right_align expanded_lines in
  let expanded_lines := _sanitize_tabs expanded_lines in
  expanded_lines.

(** The text handed to the interpreter, from [log_fn = ...] to the last
    assignment of [cleaned]; [None] when the script is empty and nothing
    is run. *)
Definition normalize (script : str) : option str :=
  let cleaned := strip (dedent script) in
  let cleaned :=
    replace_char c_ps [c_nl]
      (replace_char c_ls [c_nl]
         (replace_char c_cr [c_nl] (replace_crlf cleaned))) in
  let cleaned := strip_fence cleaned in
  let cleaned := strip (_strip_code_markers cleaned) in
  match cleaned with
  | [] => None
  | _ =>
      let cleaned := _sanitize_multiline_strings cleaned in
      let cleaned := _normalize_inline_calls cleaned in
      let cleaned := _sanitize_unterminated_equation_strings cleaned in
      let cleaned := _normalize_primes_in_equations cleaned in
      let expanded_lines :=
        flat_map _split_concat_calls
          (_repair_multiline_calls (split_nl cleaned)) in
      let expanded_lines := line_passes expanded_lines in
      Some (strip (join_nl expanded_lines))
  end.

End ScriptRunner.

(** ** The document composer ([hwp_controller.py]) *)

Module HwpController.
Import PyStr.

Definition msg_not_connected : str :=
  lit "HwpController.connect()" ++ [47484]%N ++ lit " " ++ [47676; 51200]%N
  ++ lit " " ++ [54840; 52636; 54616; 49464; 50836]%N ++ lit ".".
Definition msg_table_dims : str :=
  [54364; 51032]%N ++ lit " " ++ [54665]%N ++ lit "/" ++ [50676; 51008]%N
  ++ lit " 1 " ++ [51060; 49345; 51060; 50612; 50556]%N ++ lit " "
  ++ [54633; 45768; 45796]%N ++ lit ".".
Definition msg_table_failed : str :=
  [54364]%N ++ lit " " ++ [49341; 51077]%N ++ lit " " ++ [49892; 54056]%N
  ++ lit ": ".
Definition msg_paragraph_failed : str :=
  [45800; 46973]%N ++ lit " " ++ [45208; 45572; 44592]%N ++ lit " "
  ++ [49892; 54056]%N ++ lit ": ".
Definition msg_font_failed : str :=
  [54256; 53944]%N ++ lit " " ++ [53356; 44592]%N ++ lit " "
  ++ [49444; 51221]%N ++ lit " " ++ [49892; 54056]%N ++ lit ": ".
Definition msg_exit_box_failed : str :=
  [48149; 49828]%N ++ lit " " ++ [51333; 47308]%N ++ lit " "
  ++ [49892; 54056]%N ++ lit ": ".

(** Exceptions, with [str(exc)]. *)
Inductive exn :=
| HwpControllerError (msg : str)
| ScriptCancelled (msg : str)
| Exception (msg : str).

Definition exn_str (e : exn) : str :=
  match e with
  | HwpControllerError m => m
  | ScriptCancelled m => m
  | Exception m => m
  end.

(** The calls the composer makes on the word processor's automation
    object, the document sink.  [EquationControl] stands for
    [insert_equation_control(hwp, content, options=options)] of the
    module [equation], which is imported by hwp_controller.py but is not
    among the sources: it is one call on the sink, whose success or
    failure the sink decides like that of any other call. *)
Inductive sink_op :=
| HAction_Run (name : str)
| Hwp_Run (name : str)
| HAction_GetDefault (action : str)
| HAction_Execute (action : str)
| Set_Text (text : str)
| Set_Height (height : Z)
| Set_Rows (rows : Z)
| Set_Cols (cols : Z)
| CreateSet (name : str)
| SetItem (key : str) (value : Z)
| KeyIndicator (code : char)
| EquationControl (content : str).

(** The composer: the fields of [HwpController.__init__] that the methods
    below read or write ([_hwp] is whether the handle is set), and the
    calls issued on the sink so far. *)
Record composer := {
  _hwp : bool;
  _in_condition_box : bool;
  _box_line_start : bool;
  _line_start : bool;
  _first_line_written : bool;
  _align_right_next_line : bool;
  _line_right_aligned : bool;
  _align_justify_next_line : bool;
  _line_justify_aligned : bool;
  _last_was_equation : bool;
  _underline_active : bool;
  _bold_active : bool;
  sink_calls : list sink_op
}.

Definition with_hwp (v : bool) (st : composer) : composer :=
  {| _hwp := v; _in_condition_box := _in_condition_box st; _box_line_start
     := _box_line_start st; _line_start := _line_start st;
     _first_line_written := _first_line_written st; _align_right_next_line
     := _align_right_next_line st; _line_right_aligned :=
     _line_right_aligned st; _align_justify_next_line :=
     _align_justify_next_line st; _line_justify_aligned :=
     _line_justify_aligned st; _last_was_equation := _last_was_equation
     st; _underline_active := _underline_active st; _bold_active :=
     _bold_active st; sink_calls := sink_calls st |}.

Definition with_in_condition_box (v : bool) (st : composer) : composer :=
  {| _hwp := _hwp st; _in_condition_box := v; _box_line_start :=
     _box_line_start st; _line_start := _line_start st;
     _first_line_written := _first_line_written st; _align_right_next_line
     := _align_right_next_line st; _line_right_aligned :=
     _line_right_aligned st; _align_justify_next_line :=
     _align_justify_next_line st; _line_justify_aligned :=
     _line_justify_aligned st; _last_was_equation := _last_was_equation
     st; _underline_active := _underline_active st; _bold_active :=
     _bold_active st; sink_calls := sink_calls st |}.

Definition with_box_line_start (v : bool) (st : composer) : composer :=
  {| _hwp := _hwp st; _in_condition_box := _in_condition_box st;
     _box_line_start := v; _line_start := _line_start st;
     _first_line_written := _first_line_written st; _align_right_next_line
     := _align_right_next_line st; _line_right_aligned :=
     _line_right_aligned st; _align_justify_next_line :=
     _align_justify_next_line st; _line_justify_aligned :=
     _line_justify_aligned st; _last_was_equation := _last_was_equation
     st; _underline_active := _underline_active st; _bold_active :=
     _bold_active st; sink_calls := sink_calls st |}.

Definition with_line_start (v : bool) (st : composer) : composer :=
  {| _hwp := _hwp st; _in_condition_box := _in_condition_box st;
     _box_line_start := _box_line_start st; _line_start := v;
     _first_line_written := _first_line_written st; _align_right_next_line
     := _align_right_next_line st; _line_right_aligned :=
     _line_right_aligned st; _align_justify_next_line :=
     _align_justify_next_line st; _line_justify_aligned :=
     _line_justify_aligned st; _last_was_equation := _last_was_equation
     st; _underline_active := _underline_active st; _bold_active :=
     _bold_active st; sink_calls := sink_calls st |}.

Definition with_first_line_written (v : bool) (st : composer) : composer :=
  {| _hwp := _hwp st; _in_condition_box := _in_condition_box st;
     _box_line_start := _box_line_start st; _line_start := _line_start st;
     _first_line_written := v; _align_right_next_line :=
     _align_right_next_line st; _line_right_aligned := _line_right_aligned
     st; _align_justify_next_line := _align_justify_next_line st;
     _line_justify_aligned := _line_justify_aligned st; _last_was_equation
     := _last_was_equation st; _underline_active := _underline_active st;
     _bold_active := _bold_active st; sink_calls := sink_calls st |}.

Definition with_align_right_next_line (v : bool) (st : composer) : composer :=
  {| _hwp := _hwp st; _in_condition_box := _in_condition_box st;
     _box_line_start := _box_line_start st; _line_start := _line_start st;
     _first_line_written := _first_line_written st; _align_right_next_line
     := v; _line_right_aligned := _line_right_aligned st;
     _align_justify_next_line := _align_justify_next_line st;
     _line_justify_aligned := _line_justify_aligned st; _last_was_equation
     := _last_was_equation st; _underline_active := _underline_active st;
     _bold_active := _bold_active st; sink_calls := sink_calls st |}.

Definition with_line_right_aligned (v : bool) (st : composer) : composer :=
  {| _hwp := _hwp st; _in_condition_box := _in_condition_box st;
     _box_line_start := _box_line_start st; _line_start := _line_start st;
     _first_line_written := _first_line_written st; _align_right_next_line
     := _align_right_next_line st; _line_right_aligned := v;
     _align_justify_next_line := _align_justify_next_line st;
     _line_justify_aligned := _line_justify_aligned st; _last_was_equation
     := _last_was_equation st; _underline_active := _underline_active st;
     _bold_active := _bold_active st; sink_calls := sink_calls st |}.

Definition with_align_justify_next_line (v : bool) (st : composer) : composer :=
  {| _hwp := _hwp st; _in_condition_box := _in_condition_box st;
     _box_line_start := _box_line_start st; _line_start := _line_start st;
     _first_line_written := _first_line_written st; _align_right_next_line
     := _align_right_next_line st; _line_right_aligned :=
     _line_right_aligned st; _align_justify_next_line := v;
     _line_justify_aligned := _line_justify_aligned st; _last_was_equation
     := _last_was_equation st; _underline_active := _underline_active st;
     _bold_active := _bold_active st; sink_calls := sink_calls st |}.

Definition with_line_justify_aligned (v : bool) (st : composer) : composer :=
  {| _hwp := _hwp st; _in_condition_box := _in_condition_box st;
     _box_line_start := _box_line_start st; _line_start := _line_start st;
     _first_line_written := _first_line_written st; _align_right_next_line
     := _align_right_next_line st; _line_right_aligned :=
     _line_right_aligned st; _align_justify_next_line :=
     _align_justify_next_line st; _line_justify_aligned := v;
     _last_was_equation := _last_was_equation st; _underline_active :=
     _underline_active st; _bold_active := _bold_active st; sink_calls :=
     sink_calls st |}.

Definition with_last_was_equation (v : bool) (st : composer) : composer :=
  {| _hwp := _hwp st; _in_condition_box := _in_condition_box st;
     _box_line_start := _box_line_start st; _line_start := _line_start st;
     _first_line_written := _first_line_written st; _align_right_next_line
     := _align_right_next_line st; _line_right_aligned :=
     _line_right_aligned st; _align_justify_next_line :=
     _align_justify_next_line st; _line_justify_aligned :=
     _line_justify_aligned st; _last_was_equation := v; _underline_active
     := _underline_active st; _bold_active := _bold_active st; sink_calls
     := sink_calls st |}.

Definition with_underline_active (v : bool) (st : composer) : composer :=
  {| _hwp := _hwp st; _in_condition_box := _in_condition_box st;
     _box_line_start := _box_line_start st; _line_start := _line_start st;
     _first_line_written := _first_line_written st; _align_right_next_line
     := _align_right_next_line st; _line_right_aligned :=
     _line_right_aligned st; _align_justify_next_line :=
     _align_justify_next_line st; _line_justify_aligned :=
     _line_justify_aligned st; _last_was_equation := _last_was_equation
     st; _underline_active := v; _bold_active := _bold_active st;
     sink_calls := sink_calls st |}.

Definition with_bold_active (v : bool) (st : composer) : composer :=
  {| _hwp := _hwp st; _in_condition_box := _in_condition_box st;
     _box_line_start := _box_line_start st; _line_start := _line_start st;
     _first_line_written := _first_line_written st; _align_right_next_line
     := _align_right_next_line st; _line_right_aligned :=
     _line_right_aligned st; _align_justify_next_line :=
     _align_justify_next_line st; _line_justify_aligned :=
     _line_justify_aligned st; _last_was_equation := _last_was_equation
     st; _underline_active := _underline_active st; _bold_active := v;
     sink_calls := sink_calls st |}.

Definition with_sink_calls (v : list sink_op) (st : composer) : composer :=
  {| _hwp := _hwp st; _in_condition_box := _in_condition_box st;
     _box_line_start := _box_line_start st; _line_start := _line_start st;
     _first_line_written := _first_line_written st; _align_right_next_line
     := _align_right_next_line st; _line_right_aligned :=
     _line_right_aligned st; _align_justify_next_line :=
     _align_justify_next_line st; _line_justify_aligned :=
     _line_justify_aligned st; _last_was_equation := _last_was_equation
     st; _underline_active := _underline_active st; _bold_active :=
     _bold_active st; sink_calls := v |}.


Definition initial : composer :=
  {| _hwp := false; _in_condition_box := false; _box_line_start := false;
     _line_start := true; _first_line_written := false;
     _align_right_next_line := false; _line_right_aligned := false;
     _align_justify_next_line := false; _line_justify_aligned := false;
     _last_was_equation := false; _underline_active := false;
     _bold_active := false; sink_calls := [] |}.

(** *** Methods as state transformers that may raise *)

Inductive result (A : Type) :=
| Ok (a : A)
| Raise (e : exn).
Arguments Ok {A} a.
Arguments Raise {A} e.

Definition M (A : Type) : Type := composer -> result A * composer.

Definition ret {A} (a : A) : M A := fun st => (Ok a, st).

Definition bind {A B} (m : M A) (k : A -> M B) : M B :=
  fun st =>
    match m st with
    | (Ok a, st') => k a st'
    | (Raise e, st') => (Raise e, st')
    end.

Definition raise {A} (e : exn) : M A := fun st => (Raise e, st).
Definition get : M composer := fun st => (Ok st, st).
Definition modify (f : composer -> composer) : M unit :=
  fun st => (Ok tt, f st).

(** [try: m except Exception as exc: h exc] *)
Definition try_except {A} (m : M A) (h : exn -> M A) : M A :=
  fun st =>
    match m st with
    | (Ok a, st') => (Ok a, st')
    | (Raise e, st') => h e st'
    end.

(** [try: m finally: f] *)
Definition try_finally {A} (m : M A) (f : M unit) : M A :=
  fun st =>
    match m st with
    | (r, st') =>
        match f st' with
        | (Ok _, st'') => (r, st'')
        | (Raise e, st'') => (Raise e, st'')
        end
    end.

Notation "x <- m ;; k" := (bind m (fun x => k))
  (at level 61, m at next level, right associativity).
Notation "m ;; k" := (bind m (fun _ => k))
  (at level 61, right associativity).

Definition when (b : bool) (m : M unit) : M unit := if b then m else ret tt.

Fixpoint for_each {A} (l : list A) (f : A -> M unit) : M unit :=
  match l with
  | [] => ret tt
  | a :: l' => f a ;; for_each l' f
  end.

Definition pass : exn -> M unit := fun _ => ret tt.

Section Methods.

(** The sink: given the calls issued so far, whether a call raises, and
    with which message. *)
Variable sink : list sink_op -> sink_op -> option str.

(** [hasattr(hwp.HParameterSet, "HTableCreation")] *)
Variable has_HTableCreation : bool.

(** A call on the sink: it is recorded, and it returns or raises. *)
Definition call (op : sink_op) : M unit :=
  fun st =>
    let st' := with_sink_calls (sink_calls st ++ [op]) st in
    match sink (sink_calls st) op with
    | None => (Ok tt, st')
    | Some msg => (Raise (Exception msg), st')
    end.

Definition _ensure_connected : M unit :=
  fun st =>
    if _hwp st then (Ok tt, st)
    else (Raise (HwpControllerError msg_not_connected), st).

Definition _insert_text_raw (text : str) : M unit :=
  match text with
  | [] => ret tt
  | _ =>
      _ensure_connected ;;
      try_except
        (call (HAction_GetDefault (lit "InsertText")) ;;
         call (Set_Text text) ;;
         call (HAction_Execute (lit "InsertText")))
        (fun _ => for_each text (fun c => call (KeyIndicator c)))
  end.

Inductive alignment := AlignRight | AlignJustify | AlignLeft.

Definition align_action (align : alignment) : str :=
  match align with
  | AlignRight => lit "ParagraphShapeAlignRight"
  | AlignJustify => lit "ParagraphShapeAlignJustify"
  | AlignLeft => lit "ParagraphShapeAlignLeft"
  end.

Definition _set_paragraph_align (align : alignment) : M unit :=
  try_except
    (_ensure_connected ;; call (HAction_Run (align_action align)))
    (fun _ =>
       try_except
         (_ensure_connected ;; call (Hwp_Run (align_action align)))
         pass).

Definition set_align_right_next_line : M unit :=
  modify (with_align_right_next_line true).

Definition set_align_justify_next_line : M unit :=
  modify (with_align_justify_next_line true).

Definition _maybe_insert_line_indent (spaces : nat) : M unit :=
  st <- get ;;
  if _in_condition_box st then ret tt
  else if _line_start st && _first_line_written st then
    _insert_text_raw (repeat c_space spaces) ;;
    modify (with_line_start false)
  else ret tt.

Definition insert_paragraph : M unit :=
  _ensure_connected ;;
  try_except
    (call (HAction_Run (lit "BreakPara")) ;;
     st <- get ;;
     when (_in_condition_box st) (modify (with_box_line_start true)) ;;
     modify (with_line_start true) ;;
     st <- get ;;
     when (_line_right_aligned st)
       (_set_paragraph_align AlignLeft ;;
        modify (with_line_right_aligned false)) ;;
     st <- get ;;
     when (_line_justify_aligned st)
       (_set_paragraph_align AlignLeft ;;
        modify (with_line_justify_aligned false)))
    (fun exc =>
       raise (HwpControllerError (msg_paragraph_failed ++ exn_str exc))).

(** The one-line alignment of [insert_text] and [insert_equation]; the
    result is [skip_auto_indent_right]. *)
Definition apply_next_line_alignment : M bool :=
  st <- get ;;
  skip <-
    (if _line_start st && _align_right_next_line st then
       _set_paragraph_align AlignRight ;;
       modify (with_align_right_next_line false) ;;
       modify (with_line_right_aligned true) ;;
       ret true
     else ret false) ;;
  st <- get ;;
  when (_line_start st && _align_justify_next_line st)
    (_set_paragraph_align AlignJustify ;;
     modify (with_align_justify_next_line false) ;;
     modify (with_line_justify_aligned true)) ;;
  ret skip.

Definition starts_with_tab (text : str) : bool := startswith [c_tab] text.
Definition starts_with_space (text : str) : bool :=
  startswith [c_space] text.

(** [if text.startswith("\\t") or text.startswith("/t"): text = "\t" + text[2:]] *)
Definition tab_marker (text : str) : str :=
  if startswith (lit "\t") text || startswith (lit "/t") text
  then c_tab :: skipn 2 text else text.

Definition insert_text (text : str) : M unit :=
  match text with
  | [] => ret tt
  | _ =>
      let text := tab_marker text in
      st <- get ;;
      when (_line_start st && starts_with_tab text
            && _first_line_written st)
        insert_paragraph ;;
      skip_auto_indent_right <- apply_next_line_alignment ;;
      st <- get ;;
      when (_line_start st
            && (starts_with_tab text || starts_with_space text))
        (modify (with_line_start false)) ;;
      let text :=
        if skip_auto_indent_right
        then lstrip_chars [c_space; c_tab] text else text in
      st <- get ;;
      let text :=
        if _last_was_equation st && starts_with_space text
        then skipn 1 text else text in
      st <- get ;;
      let boxed :=
        _in_condition_box st && _box_line_start st
        && negb (starts_with_space text) in
      let text := if boxed then c_space :: text else text in
      when boxed (modify (with_box_line_start false)) ;;
      _insert_text_raw text ;;
      modify (with_line_start false) ;;
      modify (with_last_was_equation false) ;;
      modify (with_first_line_written true)
  end.

Definition _set_font_size_pt (height : Z) : M unit :=
  _ensure_connected ;;
  try_except
    (call (HAction_GetDefault (lit "CharShape")) ;;
     call (Set_Height height) ;;
     call (HAction_Execute (lit "CharShape")))
    (fun exc => raise (HwpControllerError (msg_font_failed ++ exn_str exc))).

Definition insert_equation (hwpeqn : str) : M unit :=
  st <- get ;;
  content <-
    (if _line_start st && starts_with_tab hwpeqn then
       insert_text [c_tab] ;; ret (lstrip_chars [c_tab] hwpeqn)
     else ret hwpeqn) ;;
  skip_auto_indent_right <- apply_next_line_alignment ;;
  when (negb skip_auto_indent_right) (_maybe_insert_line_indent 2) ;;
  _ensure_connected ;;
  call (EquationControl content) ;;
  modify (with_line_start false) ;;
  modify (with_last_was_equation true) ;;
  modify (with_first_line_written true).

Definition leave_box : M unit :=
  modify (with_in_condition_box false) ;;
  modify (with_box_line_start false).

Definition exit_box : M unit :=
  _ensure_connected ;;
  try_except
    (st <- get ;;
     when (_in_condition_box st)
       (try_except
          (_set_font_size_pt 300 ;;
           insert_text [c_space] ;;
           insert_paragraph ;;
           _set_font_size_pt 800)
          pass) ;;
     try_except
       (call (HAction_Run (lit "TableLowerCell")) ;;
        call (HAction_Run (lit "MoveDown")) ;;
        leave_box)
       (fun _ =>
          try_except
            (call (HAction_Run (lit "CloseEx")) ;;
             call (HAction_Run (lit "MoveDown")) ;;
             leave_box)
            (fun exc =>
               leave_box ;;
               raise (HwpControllerError
                        (msg_exit_box_failed ++ exn_str exc)))))
    (fun exc =>
       raise (HwpControllerError (msg_exit_box_failed ++ exn_str exc))).

(** *** [insert_table] *)

(** The argument [cell_data]: rows of cells, or a flat list of cells that
    the method cuts into rows of [cols] cells. *)
Inductive cell_data :=
| Rows (rows : list (list str))
| Flat (cells : list str).

(** [[flat[i : i + cols] for i in range(0, len(flat), cols)]] *)
Fixpoint chunks_fuel (fuel cols : nat) (flat : list str) : list (list str) :=
  match fuel with
  | O => []
  | S fuel' =>
      match flat with
      | [] => []
      | _ => firstn cols flat :: chunks_fuel fuel' cols (skipn cols flat)
      end
  end.

Definition chunks (cols : nat) (flat : list str) : list (list str) :=
  chunks_fuel (List.length flat) cols flat.

Definition cell_rows (cols : Z) (d : cell_data) : list (list str) :=
  match d with
  | Rows rows => rows
  | Flat cells => chunks (Z.to_nat cols) cells
  end.

(** [if cell_data:] *)
Definition has_cells (d : option cell_data) : bool :=
  match d with
  | Some (Rows (_ :: _)) => true
  | Some (Flat (_ :: _)) => true
  | _ => false
  end.

(** The inner functions [_apply_table_font] and [_run]. *)
Definition _apply_table_font : M unit :=
  try_except
    (call (HAction_GetDefault (lit "CharShape")) ;;
     call (Set_Height 800) ;;
     call (HAction_Execute (lit "CharShape")))
    pass.

Definition _run (action_name : str) : M unit :=
  try_except
    (call (HAction_Run action_name))
    (fun _ => try_except (call (Hwp_Run action_name)) pass).

Definition create_table (rows cols : Z) : M unit :=
  if has_HTableCreation then
    call (HAction_GetDefault (lit "TableCreate")) ;;
    call (Set_Rows rows) ;;
    call (Set_Cols cols) ;;
    call (HAction_Execute (lit "TableCreate"))
  else
    call (CreateSet (lit "HTableCreation")) ;;
    call (HAction_GetDefault (lit "TableCreate")) ;;
    call (SetItem (lit "Rows") rows) ;;
    call (SetItem (lit "Cols") cols) ;;
    call (HAction_Execute (lit "TableCreate")).

(** The body of [for c in range(max_cols)]. *)
Definition fill_cell (cols : Z) (align_center : bool) (c : nat) (value : str)
  : M unit :=
  _apply_table_font ;;
  when align_center (_run (lit "ParagraphShapeAlignCenter")) ;;
  match value with
  | [] => ret tt
  | _ =>
      if startswith (lit "EQ:") value
      then insert_equation (strip (skipn 3 value))
      else insert_text value
  end ;;
  when (Z.ltb (Z.of_nat c) (cols - 1)) (_run (lit "TableRightCell")).

(** The body of [for r in range(max_rows)]. *)
Definition fill_row (rows cols : Z) (align_center : bool) (r : nat)
    (row : list str) : M unit :=
  let max_cols := Nat.min (Z.to_nat cols) (List.length row) in
  for_each (combine (seq 0 max_cols) (firstn max_cols row))
    (fun cv => fill_cell cols align_center (fst cv) (snd cv)) ;;
  when (Z.ltb (Z.of_nat r) (rows - 1))
    (_run (lit "TableLowerCell") ;;
     for_each (seq 0 (Z.to_nat (cols - 1)))
       (fun _ => _run (lit "TableLeftCell"))).

Definition fill_table (rows cols : Z) (d : option cell_data)
    (align_center : bool) : M unit :=
  match d with
  | Some data =>
      if has_cells d then
        let cells := cell_rows cols data in
        let max_rows := Nat.min (Z.to_nat rows) (List.length cells) in
        for_each (combine (seq 0 max_rows) (firstn max_rows cells))
          (fun rr => fill_row rows cols align_center (fst rr) (snd rr))
      else ret tt
  | None => ret tt
  end.

Definition insert_table (rows cols : Z) (d : option cell_data)
    (align_center exit_after : bool) : M unit :=
  if Z.leb rows 0 || Z.leb cols 0 then
    raise (HwpControllerError msg_table_dims)
  else
    _ensure_connected ;;
    try_finally
      (try_except
         (_maybe_insert_line_indent 1 ;;
          create_table rows cols ;;
          modify (with_line_start false) ;;
          modify (with_first_line_written true) ;;
          fill_table rows cols d align_center)
         (fun exc =>
            raise (HwpControllerError (msg_table_failed ++ exn_str exc))))
      (when exit_after
         (try_except exit_box pass ;;
          try_except (_set_paragraph_align AlignLeft) pass ;;
          modify (with_line_start true))).

End Methods.
End HwpController.

(** ** The fallback tokenizer ([ScriptRunner._execute_fallback]) *)

Module Fallback.
Import PyStr Re HwpController.

Definition funcs_no_args : list str :=
  [lit "insert_paragraph"; lit "insert_box"; lit "exit_box";
   lit "insert_view_box"; lit "insert_small_paragraph";
   lit "set_align_right_next_line"; lit "set_align_justify_next_line";
   lit "set_table_border_white"].

Definition funcs_one_str : list str :=
  [lit "insert_text"; lit "insert_equation"; lit "insert_latex_equation";
   lit "insert_template"; lit "focus_placeholder"].

Definition funcs_one_int : list str := [lit "set_char_width_ratio"].

(** [sorted(..., key=len, reverse=True)]: a stable sort, longest first. *)
Fixpoint insert_by_len (x : str) (l : list str) : list str :=
  match l with
  | [] => [x]
  | y :: l' =>
      if Nat.ltb (List.length y) (List.length x) then x :: l
      else y :: insert_by_len x l'
  end.

Definition sorted_by_len (l : list str) : list str :=
  fold_left (fun acc x => insert_by_len x acc) l [].

Definition names : list str :=
  sorted_by_len
    (funcs_no_args ++ funcs_one_str ++ funcs_one_int
     ++ [lit "set_bold"; lit "set_underline"; lit "insert_table"]).

Definition mem (x : str) (l : list str) : bool := existsb (str_eqb x) l.

(** The first name of [names] with [text.startswith(name + "(", i)], and
    the text after the parenthesis. *)
Fixpoint match_name (ns : list str) (text : str) : option (str * str) :=
  match ns with
  | [] => None
  | name :: ns' =>
      match m_lit (name ++ [c_lparen]) text with
      | Some rest => Some (name, rest)
      | None => match_name ns' text
      end
  end.

(** The loop [while i < len(text) and depth > 0]: the characters of the
    arguments and the text after them. *)
Fixpoint scan_args (depth : nat) (quote : option char) (escaped : bool)
    (args : str) (text : str) : str * str :=
  match text with
  | [] => (args, [])
  | c :: text' =>
      if escaped then scan_args depth quote false (args ++ [c]) text'
      else if N.eqb c c_backslash then
        scan_args depth quote true (args ++ [c]) text'
      else
        match quote with
        | Some q =>
            scan_args depth (if N.eqb c q then None else quote) false
              (args ++ [c]) text'
        | None =>
            if isquote c then scan_args depth (Some c) false (args ++ [c]) text'
            else if N.eqb c c_lparen then
              scan_args (S depth) None false (args ++ [c]) text'
            else if N.eqb c c_rparen then
              match depth with
              | 0 | 1 => (args, text')
              | S d => scan_args d None false (args ++ [c]) text'
              end
            else scan_args depth None false (args ++ [c]) text'
        end
  end.

(** [arg_str.find(q, 1)]: the text between the first character and the
    next [q], or all of it after the first character. *)
Fixpoint until_char (q : char) (s : str) : str :=
  match s with
  | [] => []
  | c :: s' => if N.eqb c q then [] else c :: until_char q s'
  end.

(** The string argument of a one-string instruction. *)
Definition unwrap_string (arg_str : str) : str :=
  match arg_str with
  | q :: rest => if isquote q then until_char q rest else arg_str
  | [] => arg_str
  end.

(** The calls on the controller. *)
Inductive call (table_args : Type) :=
| NoArgs (name : str)
| OneStr (name : str) (s : str)
| SetBold (val : bool)
| SetUnderline (val : option bool)
| OneInt (name : str) (val : Z)
| InsertTable (args : table_args).
Arguments NoArgs {table_args} name.
Arguments OneStr {table_args} name s.
Arguments SetBold {table_args} val.
Arguments SetUnderline {table_args} val.
Arguments OneInt {table_args} name val.
Arguments InsertTable {table_args} args.

(** What happens at one instruction: a call on the controller and how it
    ended, an argument that could not be converted, or a cancellation
    seen before the call. *)
Inductive event (table_args : Type) :=
| Called (c : call table_args) (raised : option exn)
| BadArgument (name : str)
| CancelSeen (name : str).
Arguments Called {table_args} c raised.
Arguments BadArgument {table_args} name.
Arguments CancelSeen {table_args} name.

Inductive outcome :=
| Returned
| Raised (e : exn).

(** [f"[Fallback] {matched} failed: {exc}"] *)
Definition failed_message (matched : str) (exc : exn) : str :=
  lit "[Fallback] " ++ matched ++ lit " failed: " ++ exn_str exc.

Definition cancelled : exn := ScriptCancelled (lit "cancelled").

Section Tokenizer.

(** The arguments of [insert_table] once parsed, and the parse
    ([ast.parse] and [ast.literal_eval]); [None] when it raises or the text
    is no call. *)
Variable table_args : Type.
Variable parse_table_args : str -> option table_args.

(** [int(float(arg_str))]; [None] when it raises. *)
Variable int_of_float : str -> option Z.

(** [str.lower] *)
Variable lower : str -> str.

(** The controller: given the calls made so far, whether a call raises. *)
Variable controller : list (call table_args) -> call table_args -> option exn.

(** [cancel_check]: absent, or the answer to each poll in turn. *)
Variable cancel_check : option (nat -> bool).

Record fb_state := {
  events : list (event table_args);
  log : list str;
  polls : nat
}.

Definition fb_init : fb_state := {| events := []; log := []; polls := 0 |}.

(** [cancel_check and cancel_check()] *)
Definition poll (st : fb_state) : bool * fb_state :=
  match cancel_check with
  | None => (false, st)
  | Some f =>
      (f (polls st),
       {| events := events st; log := log st; polls := S (polls st) |})
  end.

Definition calls_of (evs : list (event table_args)) : list (call table_args) :=
  flat_map (fun e => match e with Called c _ => [c] | _ => [] end) evs.

Definition add_event (st : fb_state) (e : event table_args) : fb_state :=
  {| events := events st ++ [e]; log := log st; polls := polls st |}.

Definition add_log (st : fb_state) (m : str) : fb_state :=
  {| events := events st; log := log st ++ [m]; polls := polls st |}.

(** A call on the controller; the result is what it raised. *)
Definition do_call (st : fb_state) (c : call table_args)
  : option exn * fb_state :=
  let r := controller (calls_of (events st)) c in
  (r, add_event st (Called c r)).

(** A call inside the outer [try]: what it raises is logged. *)
Definition logged_call (matched : str) (st : fb_state) (c : call table_args)
  : fb_state :=
  match do_call st c with
  | (Some exc, st') => add_log st' (failed_message matched exc)
  | (None, st') => st'
  end.

(** A call inside an inner [try ... except Exception: pass]. *)
Definition silent_call (st : fb_state) (c : call table_args) : fb_state :=
  snd (do_call st c).

Definition says_true (arg_str : str) : bool :=
  contains (lit "true") (lower arg_str).

(** The [try] block of one instruction. *)
Definition dispatch (matched arg_str : str) (st : fb_state) : fb_state :=
  match poll st with
  | (true, st) =>
      add_log (add_event st (CancelSeen matched))
        (failed_message matched cancelled)
  | (false, st) =>
      if mem matched funcs_no_args then logged_call matched st (NoArgs matched)
      else if mem matched funcs_one_str then
        logged_call matched st (OneStr matched (unwrap_string arg_str))
      else if str_eqb matched (lit "set_bold") then
        logged_call matched st (SetBold (says_true arg_str))
      else if str_eqb matched (lit "set_underline") then
        match arg_str with
        | [] => logged_call matched st (SetUnderline None)
        | _ => logged_call matched st (SetUnderline (Some (says_true arg_str)))
        end
      else if mem matched funcs_one_int then
        match arg_str with
        | [] => silent_call st (OneInt matched 0)
        | _ =>
            match int_of_float arg_str with
            | Some val => silent_call st (OneInt matched val)
            | None => add_event st (BadArgument matched)
            end
        end
      else if str_eqb matched (lit "insert_table") then
        match parse_table_args arg_str with
        | Some args => silent_call st (InsertTable args)
        | None => add_event st (BadArgument matched)
        end
      else st
  end.

(** The loop [while i < len(text)] on [text[i:]]; [None] when [fuel] runs
    out before the end of the text. *)
Fixpoint fallback_loop (fuel : nat) (st : fb_state) (text : str)
  : option (outcome * fb_state) :=
  match text with
  | [] => Some (Returned, st)
  | _ :: text' =>
      match fuel with
      | O => None
      | S fuel' =>
          match poll st with
          | (true, st) => Some (Raised cancelled, st)
          | (false, st) =>
              match match_name names text with
              | None => fallback_loop fuel' st text'
              | Some (matched, rest) =>
                  let (args, rest') := scan_args 1 None false [] rest in
                  fallback_loop fuel' (dispatch matched (strip args) st) rest'
              end
          end
      end
  end.

Definition _execute_fallback (script : str) : option (outcome * fb_state) :=
  fallback_loop (List.length script) fb_init script.

End Tokenizer.
End Fallback.

(** ** The typing worker ([gui_app.py]) *)

Module TypingWorker.
Import PyStr HwpController.

Definition rpc_unavailable_ko : str :=
  lit "RPC " ++ [49436; 48260; 47484]%N ++ lit " " ++ [49324; 50857; 54624]%N
  ++ lit " " ++ [49688]%N ++ lit " " ++ [50630; 49845; 45768; 45796]%N.

Definition _is_rpc_unavailable_message (message : str) : bool :=
  contains rpc_unavailable_ko message
  || contains (lit "RPC server is unavailable") message
  || contains (lit "0x800706BA") message
  || contains (lit "-2147023174") message.

(** The signals of the worker. *)
Inductive signal :=
| item_started (idx : nat)
| item_finished (idx : nat)
| cancelled
| error (msg : str).

(** What the worker does, in order: the signals it emits, the controllers
    it creates and connects, and the runs of a script on a controller,
    each with the exception it ended with, if any. *)
Inductive action :=
| Emit (s : signal)
| NewController (id : nat)
| Connect (id : nat) (raised : option exn)
| Run (id : nat) (script : str) (raised : option exn).

(** How [TypingWorker.run] ends: it returns, or an exception leaves it. *)
Inductive ending :=
| Return
| Uncaught (e : exn).

Record worker := {
  controller : option nat;
  created : nat;
  clock : nat;
  trace : list action
}.

Definition worker_init : worker :=
  {| controller := None; created := 0; clock := 0; trace := [] |}.

Section Worker.

(** The surroundings of the worker, each asked at a time of the worker's
    clock: the cancellation flag, the queue ([None] when [get] times out),
    [HwpController.connect] and [ScriptRunner.run] ([None] when they
    return, the exception otherwise). *)
Variable cancel_is_set : nat -> bool.
Variable queue_get : nat -> option (nat * str).
Variable connect : nat -> nat -> option exn.
Variable runner_run : nat -> nat -> str -> option exn.

Definition tick (w : worker) : worker :=
  {| controller := controller w; created := created w;
     clock := S (clock w); trace := trace w |}.

Definition act (a : action) (w : worker) : worker :=
  {| controller := controller w; created := created w;
     clock := clock w; trace := trace w ++ [a] |}.

(** [controller = HwpController()] *)
Definition new_controller (w : worker) : nat * worker :=
  let id := created w in
  (id, act (NewController id)
         {| controller := Some id; created := S id; clock := clock w;
            trace := trace w |}).

(** [controller.connect()] *)
Definition do_connect (id : nat) (w : worker) : option exn * worker :=
  let r := connect id (clock w) in (r, tick (act (Connect id r) w)).

(** [runner.run(script, cancel_check=self._cancel.is_set)] *)
Definition do_run (id : nat) (script : str) (w : worker)
  : option exn * worker :=
  let r := runner_run id (clock w) script in
  (r, tick (act (Run id script r) w)).

(** The handler of a failure that names the transport: a new controller,
    its connection and the script again, all under one [try]. *)
Definition retry (script : str) (w : worker) : option exn * worker :=
  let (id, w) := new_controller w in
  match do_connect id w with
  | (Some retry_exc, w) => (Some retry_exc, w)
  | (None, w) => do_run id script w
  end.

(** One job taken from the queue, from [item_started.emit(idx)] on; the
    result is [None] when the loop goes on. *)
Definition run_job (id idx : nat) (script : str) (w : worker)
  : option ending * worker :=
  let w := act (Emit (item_started idx)) w in
  match do_run id script w with
  | (None, w) => (None, act (Emit (item_finished idx)) w)
  | (Some (ScriptCancelled _), w) => (Some Return, act (Emit cancelled) w)
  | (Some exc, w) =>
      let msg := exn_str exc in
      if _is_rpc_unavailable_message msg then
        match retry script w with
        | (Some retry_exc, w) =>
            (Some Return, act (Emit (error (exn_str retry_exc))) w)
        | (None, w) => (None, act (Emit (item_finished idx)) w)
        end
      else (Some Return, act (Emit (error msg)) w)
  end.

(** One turn of [while True]. *)
Definition turn (w : worker) : option ending * worker :=
  let c := cancel_is_set (clock w) in
  let w := tick w in
  if c then (Some Return, act (Emit cancelled) w)
  else
    let job := queue_get (clock w) in
    let w := tick w in
    match job with
    | None => (None, w)
    | Some (idx, script) =>
        let c := cancel_is_set (clock w) in
        let w := tick w in
        if c then (Some Return, act (Emit cancelled) w)
        else
          match controller w with
          | Some id => run_job id idx script w
          | None =>
              let (id, w) := new_controller w in
              match do_connect id w with
              | (Some exc, w) => (Some (Uncaught exc), w)
              | (None, w) => run_job id idx script w
              end
          end
    end.

(** [fuel] turns of the loop; [None] when the worker is still running. *)
Fixpoint run (fuel : nat) (w : worker) : option ending * worker :=
  match fuel with
  | O => (None, w)
  | S fuel' =>
      match turn w with
      | (Some e, w') => (Some e, w')
      | (None, w') => run fuel' w'
      end
  end.

End Worker.
End TypingWorker.

(** ** Notions the properties are stated with *)

Module Spec.
Import PyStr Re ScriptRunner.

(** A line with no instruction on it. *)
Definition is_blank (l : str) : bool :=
  match strip l with [] => true | _ => false end.

(** The next line that is not blank. *)
Definition next_nonblank (rest : list str) : option str :=
  find (fun l => negb (is_blank l)) rest.

(** The line begins, after its indentation, with [insert_equation(]. *)
Definition is_insert_equation (l : str) : bool :=
  startswith (lit "insert_equation(") (lstrip l).

(** An equation insertion in the wider sense of the specification. *)
Definition is_equation_insertion (l : str) : bool :=
  is_insert_equation l
  || startswith (lit "insert_latex_equation(") (lstrip l).

(** What the tab sanitizer writes for a line, given the lines after it. *)
Definition sanitized_line (line : str) (post : list str) : str :=
  if is_tab_text line then
    match next_nonblank post with
    | Some l => if is_insert_equation l then line else space_text_line
    | None => space_text_line
    end
  else line.

(** The quote a line opens when the repair is not inside a call. *)
Definition opens (line : str) : option char :=
  if is_insert_call line then
    if Nat.odd (_count_unescaped line c_squote) then Some c_squote
    else if Nat.odd (_count_unescaped line c_dquote) then Some c_dquote
    else None
  else None.

(** The call closed at the end of the input: the closing quote and
    parenthesis are appended unless the text already ends with them. *)
Definition close_call (q : char) (joined : str) : str :=
  if endswith (closing q) (strip joined) then joined
  else joined ++ closing q.


(** One of the three marker lines the placeholder pass writes. *)
Definition is_marker_line (l : str) : bool :=
  str_eqb l focus_outside_line || str_eqb l focus_inside_line
  || str_eqb l focus_after_line.

Definition is_written (x : origin * str) : bool :=
  match fst x with Written => true | Copied => false end.

(** The marker lines the pass wrote itself, in the order of the output. *)
Definition synthesized_markers (out : list (origin * str)) : list str :=
  filter is_marker_line (List.map snd (filter is_written out)).








(** The inside marker is in the output as a line the pass wrote exactly
    when the pass has set [inserted_inside]. *)
Definition inside_recorded (st : ph_state) : Prop :=
  inserted_inside st = true <-> In (written focus_inside_line) (ph_out st).

(** A paragraph-break instruction. *)
Definition is_break (l : str) : bool :=
  is_paragraph l || is_small_paragraph l.

(** The canonical layout of a score line with number [n]. *)
Definition score_layout (n : str) : list str :=
  [insert_paragraph_line; align_right_line; score_text_line n;
   insert_paragraph_line].

(** The branch of a score line on the output as a stack, newest line
    first, once the breaks at its top are trimmed. *)
Definition score_emit_rev (t : list str) (n : str) : list str :=
  let t1 :=
    match t with
    | last :: _ =>
        if negb (is_paragraph last) then insert_paragraph_line :: t else t
    | [] => t
    end in
  let prev := match t1 with last :: _ => strip last | [] => [] end in
  let t2 :=
    if negb (str_eqb prev align_right_line) then align_right_line :: t1
    else t1 in
  insert_paragraph_line :: score_text_line n :: t2.

(** A line that is neither a choices-capable template nor a score line. *)
Definition is_plain (l : str) : bool :=
  negb (is_template_line (strip l)) && negb (is_some (score_re l)).

(** A line the passes leave alone wherever it stands: plain, and no
    [focus_placeholder] call for the outside or the after-box marker. *)
Definition is_settled (l : str) : bool :=
  is_plain l
  && match fp_re (strip l) with
     | Some m => negb (str_eqb m (lit "@@@")) && negb (str_eqb m (lit "&&&"))
     | None => true
     end.

(** The placeholder pass has seen no template and copied every line. *)
Definition copying (st : ph_state) (seen : list str) : Prop :=
  ph_out st = List.map copied seen
  /\ saw_template st = false /\ has_choices_placeholder st = false
  /\ inserted_inside st = false.

(** The placeholder pass has seen no template and written settled lines
    only. *)
Definition settling (st : ph_state) : Prop :=
  forallb (fun x => is_settled (snd x)) (ph_out st) = true
  /\ saw_template st = false /\ has_choices_placeholder st = false.

End Spec.

(** ** The steps of a text insertion, one by one *)

Module TextSteps.
Import PyStr HwpController.

Section Steps.
Variable sink : list sink_op -> sink_op -> option str.

(** A tab at line start, once a first line was written: a paragraph break
    first. *)
Definition step_tab_break (text : str) : M unit :=
  st <- get ;;
  when (_line_start st && starts_with_tab text && _first_line_written st)
    (insert_paragraph sink).

(** A pending one-line alignment is applied; a right alignment takes the
    indentation off the text. *)
Definition step_alignment (text : str) : M str :=
  skip <- apply_next_line_alignment sink ;;
  st <- get ;;
  when (_line_start st && (starts_with_tab text || starts_with_space text))
    (modify (with_line_start false)) ;;
  ret (if skip then lstrip_chars [c_space; c_tab] text else text).

(** After an equation, one leading space is dropped. *)
Definition step_equation_space (text : str) : M str :=
  st <- get ;;
  ret (if _last_was_equation st && starts_with_space text
       then skipn 1 text else text).

(** In a box at box-line-start, a text that does not begin with a space
    gets one. *)
Definition step_box_prefix (text : str) : M str :=
  st <- get ;;
  if _in_condition_box st && _box_line_start st
     && negb (starts_with_space text)
  then modify (with_box_line_start false) ;; ret (c_space :: text)
  else ret text.

(** The text is written. *)
Definition step_emit (text : str) : M unit :=
  _insert_text_raw sink text ;;
  modify (with_line_start false) ;;
  modify (with_last_was_equation false) ;;
  modify (with_first_line_written true).

(** The steps in the order of the code: the equation space is dropped
    before the box prefix is decided. *)
Definition insert_text_in_order (text : str) : M unit :=
  match text with
  | [] => ret tt
  | _ =>
      let text := tab_marker text in
      step_tab_break text ;;
      text <- step_alignment text ;;
      text <- step_equation_space text ;;
      text <- step_box_prefix text ;;
      step_emit text
  end.

(** The steps in the order of the specification: the box prefix is
    decided before the equation space is dropped. *)
Definition insert_text_as_specified (text : str) : M unit :=
  match text with
  | [] => ret tt
  | _ =>
      let text := tab_marker text in
      step_tab_break text ;;
      text <- step_alignment text ;;
      text <- step_box_prefix text ;;
      text <- step_equation_space text ;;
      step_emit text
  end.

End Steps.

(** A sink on which every call returns. *)
Definition sink_ok : list sink_op -> sink_op -> option str :=
  fun _ _ => None.

(** A connected composer inside a box, at the start of a box line, right
    after an equation. *)
Definition in_box_after_equation : composer :=
  with_last_was_equation true
    (with_line_start false
       (with_box_line_start true
          (with_in_condition_box true (with_hwp true initial)))).

End TextSteps.

(** ** Notions for [insert_table] *)

Module TableSpec.
Import PyStr HwpController.

(** The result is the error of the dimension check. *)
Definition is_dimension_error {A} (r : result A) : bool :=
  match r with
  | Raise (HwpControllerError m) => str_eqb m msg_table_dims
  | _ => false
  end.

End TableSpec.

(** ** Notions for the fallback tokenizer *)

Module FallbackSpec.
Import PyStr HwpController Fallback.

Section Events.
Variable table_args : Type.




(** An instruction that failed. *)
Definition is_failure (e : event table_args) : bool :=
  match e with
  | Called _ (Some _) => true
  | BadArgument _ => true
  | _ => false
  end.


End Events.

(** A controller on which every call raises. *)
Definition failing_controller : list (call unit) -> call unit -> option exn :=
  fun _ _ => Some (Exception (lit "sink failure")).

End FallbackSpec.

(** ** The retry policy of the typing worker, as the specification words it *)

Module WorkerSpec.
Import PyStr HwpController TypingWorker.

Definition is_cancellation (e : exn) : bool :=
  match e with ScriptCancelled _ => true | _ => false end.

(** A failure classified as transport-unavailable. *)
Definition transport_unavailable (e : exn) : bool :=
  negb (is_cancellation e) && _is_rpc_unavailable_message (exn_str e).

(** Any other failure. *)
Definition other_failure (e : exn) : bool :=
  negb (is_cancellation e) && negb (_is_rpc_unavailable_message (exn_str e)).


Section Policy.

(** The surroundings of the worker, as in [TypingWorker]: what the
    cancellation flag, the queue, [connect] and [ScriptRunner.run] answer
    at each time. *)
Variable cancel_is_set : nat -> bool.
Variable queue_get : nat -> option (nat * str).
Variable connect : nat -> nat -> option exn.
Variable runner_run : nat -> nat -> str -> option exn.

(** What the worker does for one job [(idx, script)] that it starts at
    time [t] on the connected controller [id], [fresh] being the number of
    the next controller: the actions, whether the worker stops after them,
    and the controller, the next fresh number and the time afterwards.
    The script is run once, as a whole.  When the run returns the job is
    finished; a cancellation is signalled and stops the worker; a failure
    classified as transport-unavailable is answered by one fresh
    controller, its connection and one more run of the same script; every
    other failure, and whatever the retry raises, in the connection or in
    the second run, is emitted as an error and stops the worker. *)
Inductive job_trace (idx : nat) (script : str) (id fresh t : nat)
  : list action -> bool -> nat -> nat -> nat -> Prop :=
| job_finished :
    runner_run id t script = None ->
    job_trace idx script id fresh t
      [Emit (item_started idx); Run id script None;
       Emit (item_finished idx)]
      false id fresh (S t)
| job_cancelled m :
    runner_run id t script = Some (ScriptCancelled m) ->
    job_trace idx script id fresh t
      [Emit (item_started idx); Run id script (Some (ScriptCancelled m));
       Emit cancelled]
      true id fresh (S t)
| job_failed e :
    runner_run id t script = Some e ->
    other_failure e = true ->
    job_trace idx script id fresh t
      [Emit (item_started idx); Run id script (Some e);
       Emit (error (exn_str e))]
      true id fresh (S t)
| job_retried e :
    runner_run id t script = Some e ->
    transport_unavailable e = true ->
    connect fresh (S t) = None ->
    runner_run fresh (S (S t)) script = None ->
    job_trace idx script id fresh t
      [Emit (item_started idx); Run id script (Some e);
       NewController fresh; Connect fresh None; Run fresh script None;
       Emit (item_finished idx)]
      false fresh (S fresh) (S (S (S t)))
| job_retry_not_connected e e' :
    runner_run id t script = Some e ->
    transport_unavailable e = true ->
    connect fresh (S t) = Some e' ->
    job_trace idx script id fresh t
      [Emit (item_started idx); Run id script (Some e);
       NewController fresh; Connect fresh (Some e');
       Emit (error (exn_str e'))]
      true fresh (S fresh) (S (S t))
| job_retry_failed e e' :
    runner_run id t script = Some e ->
    transport_unavailable e = true ->
    connect fresh (S t) = None ->
    runner_run fresh (S (S t)) script = Some e' ->
    job_trace idx script id fresh t
      [Emit (item_started idx); Run id script (Some e);
       NewController fresh; Connect fresh None; Run fresh script (Some e');
       Emit (error (exn_str e'))]
      true fresh (S fresh) (S (S (S t))).

(** The worker takes the job [job] in the turn of its loop that begins at
    time [t]: no cancellation is requested before or after the queue hands
    the job over. *)
Definition takes (t : nat) (job : nat * str) : Prop :=
  cancel_is_set t = false
  /\ queue_get (S t) = Some job
  /\ cancel_is_set (S (S t)) = false.

(** The controller a job runs on: the one the worker has, or a first one,
    created and connected at time [t] without a failure. *)
Inductive acquired (fresh t : nat)
  : option nat -> list action -> nat -> nat -> nat -> Prop :=
| acquired_kept id :
    acquired fresh t (Some id) [] id fresh t
| acquired_first :
    connect fresh t = None ->
    acquired fresh t None [NewController fresh; Connect fresh None]
      fresh (S fresh) (S t).

(** The actions of the worker in [n] turns of its loop from time [t],
    with the controller [c]: jobs one after the other, until the worker
    stops; [None] when it is still running after the [n] turns.  The first
    connection is made for the first job, outside the handlers of a job:
    when it fails, of whatever kind the failure is, nothing is retried and
    no signal is emitted, the exception leaves the worker. *)
Inductive worker_trace
  : nat -> nat -> option nat -> nat -> list action -> option ending -> Prop :=
| worker_running t c fresh :
    worker_trace 0 t c fresh [] None
| worker_cancelled n t c fresh :
    cancel_is_set t = true ->
    worker_trace (S n) t c fresh [Emit cancelled] (Some Return)
| worker_idle n t c fresh tr r :
    cancel_is_set t = false ->
    queue_get (S t) = None ->
    worker_trace n (S (S t)) c fresh tr r ->
    worker_trace (S n) t c fresh tr r
| worker_cancelled_with_job n t c fresh job :
    cancel_is_set t = false ->
    queue_get (S t) = Some job ->
    cancel_is_set (S (S t)) = true ->
    worker_trace (S n) t c fresh [Emit cancelled] (Some Return)
| worker_not_connected n t fresh job e :
    takes t job ->
    connect fresh (S (S (S t))) = Some e ->
    worker_trace (S n) t None fresh
      [NewController fresh; Connect fresh (Some e)] (Some (Uncaught e))
| worker_job n t c fresh idx script pre id fresh1 t1 tr id' fresh' t' rest r :
    takes t (idx, script) ->
    acquired fresh (S (S (S t))) c pre id fresh1 t1 ->
    job_trace idx script id fresh1 t1 tr false id' fresh' t' ->
    worker_trace n t' (Some id') fresh' rest r ->
    worker_trace (S n) t c fresh (pre ++ tr ++ rest) r
| worker_last_job n t c fresh idx script pre id fresh1 t1 tr id' fresh' t' :
    takes t (idx, script) ->
    acquired fresh (S (S (S t))) c pre id fresh1 t1 ->
    job_trace idx script id fresh1 t1 tr true id' fresh' t' ->
    worker_trace (S n) t c fresh (pre ++ tr) (Some Return).


End Policy.

End WorkerSpec.

(** ** Connection errors ([hwp_controller.py]) *)

Module Connect.
Import PyStr HwpController.

Definition rpc_unavailable_ko : str :=
  lit "RPC " ++ [49436; 48260; 47484]%N ++ lit " " ++ [49324; 50857; 54624]%N
  ++ lit " " ++ [49688]%N ++ lit " " ++ [50630; 49845; 45768; 45796]%N.

(** [_is_rpc_unavailable_error(exc)], on [str(exc)]. *)
Definition _is_rpc_unavailable_error (exc : exn) : bool :=
  let msg := exn_str exc in
  contains rpc_unavailable_ko msg
  || contains (lit "RPC server is unavailable") msg
  || contains (lit "0x800706BA") msg
  || contains (lit "-2147023174") msg.

(** The message of a connection that failed because the transport is
    unavailable: what failed, and the advice to restart the word
    processor and to run both programs with the same rights. *)
Definition msg_rpc_unavailable : str :=
  lit "HWP " ++ [50672; 44208]%N ++ lit " " ++ [49892; 54056]%N
  ++ lit ": RPC " ++ [49436; 48260; 47484]%N ++ lit " "
  ++ [49324; 50857; 54624]%N ++ lit " " ++ [49688]%N ++ lit " "
  ++ [50630; 49845; 45768; 45796]%N ++ lit ". " ++ [54620; 44544]%N
  ++ lit "(HWP)" ++ [51012]%N ++ lit " " ++ [50756; 51204; 55176]%N
  ++ lit " " ++ [51333; 47308; 54664; 45796; 44032]%N ++ lit " "
  ++ [45796; 49884]%N ++ lit " " ++ [49892; 54665; 54616; 44256]%N
  ++ lit ", LitePro" ++ [50752]%N ++ lit " HWP" ++ [47484]%N ++ lit " "
  ++ [44057; 51008]%N ++ lit " " ++ [44428; 54620]%N ++ lit "("
  ++ [51068; 48152]%N ++ lit "/" ++ [44288; 47532; 51088]%N ++ lit ")"
  ++ [51004; 47196]%N ++ lit " " ++ [49892; 54665; 54616; 49464; 50836]%N
  ++ lit ".".

(** The prefix of the message of any other connection failure. *)
Definition msg_connect_failed : str :=
  lit "HWP " ++ [50672; 44208]%N ++ lit " " ++ [49892; 54056]%N ++ lit ": ".

Definition _format_connect_error (primary_exc : exn)
    (secondary_exc : option exn) : str :=
  if _is_rpc_unavailable_error primary_exc
     || match secondary_exc with
        | Some exc => _is_rpc_unavailable_error exc
        | None => false
        end
  then msg_rpc_unavailable
  else msg_connect_failed ++ exn_str primary_exc.

End Connect.

(** ** The parts of a generated script ([gui_app.py], [AIWorker.run]) *)

Module AIWorker.
Import PyStr ScriptRunner.

(** The line boundaries of [str.splitlines]: line feed, vertical tab, form
    feed, carriage return, the file, group and record separators, next
    line, and the line and paragraph separators. *)
Definition is_line_boundary (c : char) : bool :=
  in_ranges [(10, 13); (28, 30); (133, 133); (8232, 8233)]%N c.

(** [s.splitlines()]: a carriage return followed by a line feed is one
    boundary, and no empty line follows the last boundary. *)
Fixpoint splitlines_from (cur : str) (s : str) : list str :=
  match s with
  | [] => match cur with [] => [] | _ => [rev cur] end
  | c :: s' =>
      if is_line_boundary c then
        rev cur ::
        (if N.eqb c c_cr then
           match s' with
           | d :: s'' =>
               if N.eqb d c_nl then splitlines_from [] s''
               else splitlines_from [] s'
           | [] => splitlines_from [] s'
           end
         else splitlines_from [] s')
      else splitlines_from (c :: cur) s'
  end.

Definition splitlines (s : str) : list str := splitlines_from [] s.

(** The inner function [_extract_code]: the text is stripped and taken
    out of a code fence, as [ScriptRunner.run] does. *)
Definition _extract_code (text : str) : str := strip_fence (strip text).

(** The instructions a part may not hold, tested on the stripped line. *)
Definition is_nested_call (s : str) : bool :=
  startswith (lit "insert_template(") s
  || startswith (lit "focus_placeholder(") s
  || (startswith (lit "insert_box(") s || str_eqb s (lit "insert_box()"))
  || (startswith (lit "insert_view_box(") s
      || str_eqb s (lit "insert_view_box()"))
  || (startswith (lit "exit_box(") s || str_eqb s (lit "exit_box()")).

(** The body of [for line in code.splitlines()]: whether the line is
    appended to [out_lines]. *)
Definition keeps_line (line : str) : bool :=
  match strip line with
  | [] => true
  | s => negb (is_nested_call s)
  end.

(** The inner function [_sanitize_part]. *)
Definition _sanitize_part (script : str) : str :=
  match _extract_code script with
  | [] => []
  | code => strip (join_nl (filter keeps_line (splitlines code)))
  end.

End AIWorker.

(** ** Further notions the properties are stated with *)

Module Notions.
Import PyStr Re ScriptRunner Spec.

(** The line holds no newline. *)
Definition no_newline (l : str) : bool :=
  forallb (fun c => negb (N.eqb c c_nl)) l.

(** The lines of a script that are no code marker. *)
Definition kept_lines (script : str) : list str :=
  filter (fun line => negb (is_code_marker line)) (split_nl script).




(** The character is one of the two Unicode primes that [_fix] replaces. *)
Definition is_unicode_prime (c : char) : bool :=
  N.eqb c c_prime || N.eqb c c_rquote.

(** The text holds no Unicode prime. *)
Definition prime_free (s : str) : bool :=
  forallb (fun c => negb (is_unicode_prime c)) s.

(** An instruction text: not empty, with no whitespace around it. *)
Definition is_trimmed (p : str) : bool :=
  negb (is_blank p) && str_eqb (strip p) p.

(** The line is no score line. *)
Definition no_score (l : str) : bool := negb (is_some (score_re l)).

(** A layout line: a paragraph break or the right-alignment instruction,
    the lines the score-line formatter adds and removes. *)
Definition is_layout_line (l : str) : bool :=
  is_break l || str_eqb (strip l) align_right_line.

(** The content of a line list: its lines that are no layout lines. *)
Definition content_lines (lines : list str) : list str :=
  filter (fun l => negb (is_layout_line l)) lines.

(** What the score-line formatter writes for a content line: the
    canonical text for a score line, the line itself otherwise. *)
Definition score_canonical (l : str) : str :=
  match score_re l with
  | Some score_num => score_text_line score_num
  | None => l
  end.

(** The line is no template line of the placeholder pass. *)
Definition no_template (l : str) : bool := negb (is_template_line (strip l)).

(** The line is no [focus_placeholder] call for the outside marker or the
    after-box marker. *)
Definition outer_marker_free (l : str) : bool :=
  match fp_re (strip l) with
  | Some m => negb (str_eqb m (lit "@@@")) && negb (str_eqb m (lit "&&&"))
  | None => true
  end.

(** A property of a line that its stripped text decides. *)
Definition on_stripped (Q : str -> bool) (l : str) : bool := Q (strip l).

(** The placeholder pass has seen no template. *)
Definition untemplated (st : ph_state) : Prop :=
  saw_template st = false /\ has_choices_placeholder st = false
  /\ inserted_inside st = false.

End Notions.

(** ** Notions for the composer *)

Module ComposerNotions.
Import PyStr HwpController.

(** A method keeps a property of the composer: whatever it returns or
    raises, the property holds afterwards when it held before. *)
Definition preserves {A} (P : composer -> Prop) (m : M A) : Prop :=
  forall st, P st -> P (snd (m st)).

(** The composer has a handle on the word processor. *)
Definition connected (st : composer) : Prop := _hwp st = true.

(** The error of a method called before [connect]. *)
Definition not_connected_error : exn := HwpControllerError msg_not_connected.

(** The composer is outside any box. *)
Definition outside_box (st : composer) : Prop :=
  _in_condition_box st = false /\ _box_line_start st = false.

(** A method that does nothing on the sink without a handle: the composer
    stays without one, the calls on the sink stay what they were, and the
    only error raised is that of a method called before [connect]. *)
Definition quiet {A} (m : M A) : Prop :=
  forall st,
    _hwp st = false ->
    _hwp (snd (m st)) = false
    /\ sink_calls (snd (m st)) = sink_calls st
    /\ (forall e, fst (m st) = Raise e -> e = not_connected_error).

(** A method that raises whenever the composer has no handle. *)
Definition needs_handle {A} (m : M A) : Prop :=
  forall st, _hwp st = false -> exists e, fst (m st) = Raise e.

(** What holds when a method returns: from a composer with [Pre], a
    return with [a] leaves a composer with [Post a]. *)
Definition returns {A} (Pre : composer -> Prop) (m : M A)
    (Post : A -> composer -> Prop) : Prop :=
  forall st a st', Pre st -> m st = (Ok a, st') -> Post a st'.

(** A property of the flags of the composer: the calls on the sink do not
    count for it. *)
Definition on_flags (P : composer -> Prop) : Prop :=
  forall st calls, P st -> P (with_sink_calls calls st).

(** No right alignment is asked for. *)
Definition no_alignment_pending (st : composer) : Prop :=
  _align_right_next_line st = false.

(** A right alignment is asked for the line that starts. *)
Definition right_alignment_pending (st : composer) : Prop :=
  _line_start st = true /\ _align_right_next_line st = true.

(** A new line with the alignment of the paragraph before it given up. *)
Definition fresh_line (st : composer) : Prop :=
  _line_start st = true /\ _line_right_aligned st = false
  /\ _line_justify_aligned st = false.

End ComposerNotions.

(** ** Surroundings of the worker for the cases below *)

Module WorkerCases.
Import PyStr HwpController TypingWorker Connect.


(** A queue that hands over the same job whenever it is asked. *)
Definition one_job (t : nat) : option (nat * str) :=
  Some (7, lit "insert_text('a')").

Definition never_cancelled (t : nat) : bool := false.

(** Every connection succeeds. *)
Definition connects (id t : nat) : option exn := None.


(** The run on the first controller loses the transport; the runs on the
    later controllers return. *)
Definition first_run_loses_transport (id t : nat) (script : str)
  : option exn :=
  match id with
  | 0 => Some (Exception (lit "(-2147023174, 'RPC server is unavailable.', None, None)"))
  | _ => None
  end.


End WorkerCases.

(** * Properties *)

Unset Implicit Arguments.

(** ** Strings *)

Section StringFacts.
Import PyStr.

Lemma str_eqb_refl (a : str) : str_eqb a a = true.
Proof.
  induction a as [|x a IH]; simpl; [reflexivity|].
  now rewrite N.eqb_refl, IH.
Qed.

Lemma str_eqb_eq (a b : str) : str_eqb a b = true <-> a = b.
Proof.
  split.
  - revert b; induction a as [|x a IH]; intros [|y b] H; simpl in H;
      try discriminate; [reflexivity|].
    apply andb_true_iff in H as [Hx Hab].
    apply N.eqb_eq in Hx. apply IH in Hab. now subst.
  - intros ->. apply str_eqb_refl.
Qed.

Lemma str_eqb_neq (a b : str) : str_eqb a b = false <-> a <> b.
Proof.
  split.
  - intros H E. apply str_eqb_eq in E. congruence.
  - intros H. destruct (str_eqb a b) eqn:E; [|reflexivity].
    apply str_eqb_eq in E. contradiction.
Qed.

End StringFacts.

(** ** The tab sanitizer *)

Section TabSanitizer.
Import PyStr Re ScriptRunner Spec.

Lemma next_is_equation_next_nonblank (post : list str) :
  next_is_equation post =
  match next_nonblank post with
  | Some l => is_insert_equation l
  | None => false
  end.
Proof.
  induction post as [|l post IH]; simpl; [reflexivity|].
  unfold is_blank. destruct (strip l) eqn:E; simpl.
  - exact IH.
  - reflexivity.
Qed.

Lemma sanitize_tabs_cons (line : str) (post : list str) :
  _sanitize_tabs (line :: post) = sanitized_line line post :: _sanitize_tabs post.
Proof.
  simpl. unfold sanitized_line.
  rewrite next_is_equation_next_nonblank.
  destruct (is_tab_text line); [|reflexivity].
  destruct (next_nonblank post) as [l|]; [|reflexivity].
  destruct (is_insert_equation l); reflexivity.
Qed.

Lemma sanitize_tabs_length (lines : list str) :
  List.length (_sanitize_tabs lines) = List.length lines.
Proof.
  induction lines as [|l lines IH]; [reflexivity|].
  rewrite sanitize_tabs_cons. simpl. now rewrite IH.
Qed.

(** C6, as the code has it: the tab sanitizer keeps the number of lines;
    a line that is not a tab text is copied; a tab text is kept when the
    next line that is not blank begins with [insert_equation(], and is
    written as a single-space text otherwise, also when that next line is
    an [insert_latex_equation] call or when there is none. *)
Theorem sanitize_tabs_line (pre : list str) (line : str) (post : list str) :
  List.length (_sanitize_tabs (pre ++ line :: post))
    = List.length (pre ++ line :: post)
  /\ nth_error (_sanitize_tabs (pre ++ line :: post)) (List.length pre)
     = Some (sanitized_line line post).
Proof.
  split; [apply sanitize_tabs_length|].
  induction pre as [|p pre IH].
  - simpl app. rewrite sanitize_tabs_cons. reflexivity.
  - change ((p :: pre) ++ line :: post) with (p :: (pre ++ line :: post)).
    rewrite sanitize_tabs_cons. simpl. exact IH.
Qed.

(** C6, as stated, fails: a tab text followed by an
    [insert_latex_equation] call, an equation insertion, is rewritten. *)
Lemma sanitize_tabs_latex_equation_rewritten :
  let tab := lit "insert_text('\t')" in
  let eqn := lit "insert_latex_equation('x')" in
  is_tab_text tab = true
  /\ next_nonblank [eqn] = Some eqn
  /\ is_equation_insertion eqn = true
  /\ _sanitize_tabs [tab; eqn] = [space_text_line; eqn].
Proof. vm_compute. repeat split. Qed.

End TabSanitizer.

(** ** Quote repair *)

Section QuoteRepair.
Import PyStr Re ScriptRunner Spec.

Lemma repair_scan_app (pre post : list str) :
  repair_scan (pre ++ post) = fold_left repair_step post (repair_scan pre).
Proof. unfold repair_scan. apply fold_left_app. Qed.

(** While the quotes of the buffered lines stay unbalanced, every line is
    absorbed. *)
Lemma repair_absorbs (q : char) (rest : list str) :
  forall (rep buf : list str),
    (forall k, 0 < k <= List.length rest ->
               Nat.odd (buffer_count q (buf ++ firstn k rest)) = true) ->
    fold_left repair_step rest
      {| repaired := rep; buffer := buf; quote_char := Some q |}
    = {| repaired := rep; buffer := buf ++ rest; quote_char := Some q |}.
Proof.
  induction rest as [|x rest IH]; intros rep buf H; simpl.
  - now rewrite app_nil_r.
  - unfold repair_step at 2. simpl.
    assert (Hodd : Nat.odd (buffer_count q (buf ++ [x])) = true).
    { apply (H 1). simpl. lia. }
    rewrite <- Nat.negb_odd, Hodd. simpl.
    rewrite IH.
    + now rewrite <- app_assoc.
    + intros k Hk. rewrite <- app_assoc. apply (H (S k)). simpl. lia.
Qed.

Lemma repair_step_opens (st : repair_state) (l : str) (q : char) :
  quote_char st = None -> opens l = Some q ->
  repair_step st l
  = {| repaired := repaired st; buffer := [l]; quote_char := Some q |}.
Proof.
  unfold repair_step, opens. intros -> H.
  destruct (is_insert_call l); [|discriminate].
  destruct (Nat.odd (_count_unescaped l c_squote)).
  - now inversion H.
  - destruct (Nat.odd (_count_unescaped l c_dquote)); [|discriminate].
    now inversion H.
Qed.

Lemma opens_quote (l : str) (q : char) :
  opens l = Some q -> q = c_squote \/ q = c_dquote.
Proof.
  unfold opens.
  destruct (is_insert_call l); [|discriminate].
  destruct (Nat.odd _); [intros [= <-]; now left|].
  destruct (Nat.odd _); [intros [= <-]; now right|discriminate].
Qed.

Lemma repair_finish_unbalanced (rep : list str) (b : str) (buf : list str)
    (q : char) :
  q = c_squote \/ q = c_dquote ->
  repair_finish
    {| repaired := rep; buffer := b :: buf; quote_char := Some q |}
  = rep ++ [close_call q (join_buffer (b :: buf))].
Proof.
  intros [-> | ->]; unfold repair_finish, close_call; cbn [buffer repaired quote_char].
  - change (N.eqb c_squote c_squote) with true. cbv iota.
    destruct (endswith _ _); reflexivity.
  - change (N.eqb c_dquote c_squote) with false.
    change (N.eqb c_dquote c_dquote) with true. cbv iota.
    destruct (endswith _ _); reflexivity.
Qed.

(** The repair writes no more lines than it reads. *)
Lemma repair_scan_length (lines : list str) :
  List.length (repaired (repair_scan lines))
  + List.length (buffer (repair_scan lines))
  <= List.length lines
  /\ (quote_char (repair_scan lines) = None -> buffer (repair_scan lines) = []).
Proof.
  induction lines as [|l lines IH] using rev_ind.
  - simpl. split; [lia|reflexivity].
  - rewrite repair_scan_app. simpl fold_left.
    destruct IH as [IH1 IH2].
    rewrite length_app. simpl List.length.
    destruct (repair_scan lines) as [rep buf qc]. simpl in *.
    unfold repair_step. simpl.
    destruct qc as [q|].
    + destruct (Nat.even _); simpl.
      * rewrite length_app. simpl. split; [lia|reflexivity].
      * rewrite length_app. simpl. split; [lia|discriminate].
    + rewrite (IH2 eq_refl) in *. simpl in *.
      destruct (is_insert_call l); simpl.
      * destruct (Nat.odd _); simpl; [split; [lia|discriminate]|].
        destruct (Nat.odd _); simpl; [split; [lia|discriminate]|].
        rewrite length_app. simpl. split; [lia|reflexivity].
      * rewrite length_app. simpl. split; [lia|reflexivity].
Qed.

Lemma repair_multiline_calls_length (lines : list str) :
  List.length (_repair_multiline_calls lines) <= List.length lines.
Proof.
  unfold _repair_multiline_calls.
  destruct (repair_scan_length lines) as [H _].
  unfold repair_finish.
  destruct (repair_scan lines) as [rep buf qc]. simpl in *.
  destruct buf as [|b buf]; [lia|].
  rewrite length_app. simpl in *. lia.
Qed.

(** C7, as the code has it: the repair is a total function from line
    lists to line lists; when a line [l] opens a quote [q] that no
    later line closes, the last line written is [l] and all lines after
    it, each stripped, joined by single spaces, and the closing quote and
    parenthesis are appended unless that text already ends with them. *)
Theorem repair_unbalanced_at_end (pre : list str) (l : str) (rest : list str)
    (q : char) :
  quote_char (repair_scan pre) = None ->
  opens l = Some q ->
  (forall k, 0 < k <= List.length rest ->
             Nat.odd (buffer_count q (l :: firstn k rest)) = true) ->
  _repair_multiline_calls (pre ++ l :: rest)
  = repaired (repair_scan pre) ++ [close_call q (join_buffer (l :: rest))].
Proof.
  intros Hnone Hopen Hodd.
  unfold _repair_multiline_calls.
  rewrite repair_scan_app. simpl fold_left.
  rewrite (repair_step_opens _ _ _ Hnone Hopen).
  rewrite (repair_absorbs q rest (repaired (repair_scan pre)) [l]) by exact Hodd.
  apply repair_finish_unbalanced. exact (opens_quote _ _ Hopen).
Qed.

Lemma repair_unbalanced_at_end_witness :
  _repair_multiline_calls ([] ++ lit " insert_text('a" :: [lit "  b "])
  = repaired (repair_scan [])
    ++ [close_call c_squote
          (join_buffer (lit " insert_text('a" :: [lit "  b "]))].
Proof.
  apply (repair_unbalanced_at_end [] (lit " insert_text('a") [lit "  b "]
           c_squote).
  - reflexivity.
  - vm_compute. reflexivity.
  - intros k Hk. simpl in Hk.
    assert (k = 1) as -> by lia.
    vm_compute. reflexivity.
Defined.

(** C7, as stated, fails: the input ends inside a quote the repair
    counts as open, and nothing is appended to the last line, which
    already ends with a quote and a parenthesis. *)
Lemma repair_appends_nothing :
  let line := lit "insert_text('a')')" in
  quote_char (repair_scan [line]) = Some c_squote
  /\ buffer (repair_scan [line]) = [line]
  /\ _repair_multiline_calls [line] = [line]
  /\ str_eqb line (join_buffer [line] ++ closing c_squote) = false.
Proof. vm_compute. repeat split. Qed.

End QuoteRepair.

(** ** The composer: text insertion *)

Section TextInsertion.
Import PyStr HwpController TextSteps.

Section WithSink.

Variable sink : list sink_op -> sink_op -> option str.

Lemma bind_run {A B} (m : M A) (k : A -> M B) (st : composer) :
  bind m k st =
  match m st with
  | (Ok a, st') => k a st'
  | (Raise e, st') => (Raise e, st')
  end.
Proof. reflexivity. Qed.

Lemma insert_text_steps (text : str) (st : composer) :
  insert_text sink text st = insert_text_in_order sink text st.
Proof.
  unfold insert_text, insert_text_in_order.
  destruct text as [|c text]; [reflexivity|].
  unfold step_tab_break, step_alignment, step_equation_space,
    step_box_prefix, step_emit, bind, get, ret.
  cbv beta zeta.
  set (t := tab_marker (c :: text)).
  destruct (when _ _ st) as [[[]|e] st1]; [|reflexivity].
  destruct (apply_next_line_alignment sink st1) as [[skip|e] st2];
    [|reflexivity].
  destruct (when _ _ st2) as [[[]|e] st3]; [|reflexivity].
  destruct skip;
    destruct (_last_was_equation st3 && starts_with_space _);
    destruct (_in_condition_box st3 && _box_line_start st3
              && negb (starts_with_space _));
    reflexivity.
Qed.

(** C4, as the code has it: a text insertion is the five steps in this
    order: the paragraph break for a tab at line start (once a first line
    was written), the pending one-line alignment, the drop of one leading
    space after an equation, the space prefix at the start of a box line,
    the emission.  In particular, at the start of a box line right after
    an equation, a text that begins with one space is written as it is:
    its space is dropped first and the box prefix is added then. *)
Theorem insert_text_order :
  (forall text st,
     insert_text sink text st = insert_text_in_order sink text st)
  /\ (forall t st,
        _line_start st = false ->
        _last_was_equation st = true ->
        _in_condition_box st = true ->
        _box_line_start st = true ->
        starts_with_space t = false ->
        insert_text sink (c_space :: t) st
        = step_emit sink (c_space :: t) (with_box_line_start false st)).
Proof.
  split; [exact insert_text_steps|].
  intros t st Hls Heq Hbox Hbls Hsp.
  rewrite insert_text_steps.
  unfold insert_text_in_order.
  change (tab_marker (c_space :: t)) with (c_space :: t).
  unfold step_tab_break, step_alignment, step_equation_space,
    step_box_prefix, apply_next_line_alignment, bind, get, ret.
  cbv beta zeta.
  repeat (rewrite Hls; cbn [andb when ret]).
  rewrite Heq, Hbox, Hbls.
  change (starts_with_space (c_space :: t)) with true.
  cbn [andb skipn]. rewrite Hsp. cbn [negb modify].
  reflexivity.
Qed.

End WithSink.

Lemma insert_text_order_witness :
  insert_text sink_ok (c_space :: lit "x") in_box_after_equation
  = step_emit sink_ok (c_space :: lit "x")
      (with_box_line_start false in_box_after_equation).
Proof.
  apply (proj2 (insert_text_order sink_ok)); reflexivity.
Defined.

(** C4, as stated, fails: at the start of a box line right after an
    equation, the code writes the text [ x] with its space, and the steps
    in the order of the specification write [x]. *)
Lemma insert_text_order_differs :
  let st := in_box_after_equation in
  let text := lit " x" in
  sink_calls (snd (insert_text sink_ok text st))
  = [HAction_GetDefault (lit "InsertText"); Set_Text (lit " x");
     HAction_Execute (lit "InsertText")]
  /\ sink_calls (snd (insert_text_as_specified sink_ok text st))
     = [HAction_GetDefault (lit "InsertText"); Set_Text (lit "x");
        HAction_Execute (lit "InsertText")].
Proof. vm_compute. split; reflexivity. Qed.

End TextInsertion.

(** ** The composer: table insertion *)

Section TableInsertion.
Import PyStr HwpController TextSteps TableSpec.

Section WithSink.

Variable sink : list sink_op -> sink_op -> option str.
Variable has_HTableCreation : bool.

Lemma try_except_pass_ok (m : M unit) (st : composer) :
  exists st', try_except m pass st = (Ok tt, st').
Proof.
  unfold try_except, pass, ret.
  destruct (m st) as [[[]|e] st']; eauto.
Qed.

Lemma table_finally_ok (exit_after : bool) (st : composer) :
  exists st',
    when exit_after
      (try_except (exit_box sink) pass ;;
       try_except (_set_paragraph_align sink AlignLeft) pass ;;
       modify (with_line_start true)) st
    = (Ok tt, st').
Proof.
  destruct exit_after; [|exists st; reflexivity].
  unfold when, bind.
  destruct (try_except_pass_ok (exit_box sink) st) as [st1 ->].
  destruct (try_except_pass_ok (_set_paragraph_align sink AlignLeft) st1)
    as [st2 ->].
  unfold modify. eexists. reflexivity.
Qed.

Lemma table_failed_not_dimension_error (m : str) :
  is_dimension_error
    (@Raise unit (HwpControllerError (msg_table_failed ++ m))) = false.
Proof. reflexivity. Qed.

(** C10: with [rows <= 0] or [cols <= 0], [insert_table] raises the
    dimension error and leaves the composer as it was, with no call issued
    on the sink; with [rows >= 1] and [cols >= 1] its result is never that
    error. *)
Theorem insert_table_dimension_check (rows cols : Z) (d : option cell_data)
    (align_center exit_after : bool) (st : composer) :
  ((rows <= 0 \/ cols <= 0)%Z ->
   insert_table sink has_HTableCreation rows cols d align_center exit_after st
   = (Raise (HwpControllerError msg_table_dims), st))
  /\ ((1 <= rows)%Z -> (1 <= cols)%Z ->
      is_dimension_error
        (fst (insert_table sink has_HTableCreation rows cols d align_center
                exit_after st)) = false).
Proof.
  unfold insert_table. split.
  - intros H.
    assert (E : (rows <=? 0)%Z || (cols <=? 0)%Z = true).
    { apply orb_true_iff. rewrite !Z.leb_le. exact H. }
    rewrite E. reflexivity.
  - intros Hr Hc.
    assert (E : (rows <=? 0)%Z || (cols <=? 0)%Z = false).
    { apply orb_false_iff. rewrite !Z.leb_gt. lia. }
    rewrite E. unfold bind at 1. unfold _ensure_connected.
    destruct (_hwp st); [|reflexivity].
    unfold try_finally.
    match goal with
    | |- context [try_except ?m ?h st] =>
        destruct (try_except m h st) as [r st1] eqn:Etry
    end.
    destruct (table_finally_ok exit_after st1) as [st2 Efin].
    rewrite Efin. simpl fst.
    unfold try_except in Etry.
    match type of Etry with
    | context [match ?x with _ => _ end] => destruct x as [[[]|e] st3]
    end.
    + inversion Etry. reflexivity.
    + unfold raise in Etry. inversion Etry.
      apply table_failed_not_dimension_error.
Qed.

End WithSink.

Lemma insert_table_dimension_check_witness :
  insert_table sink_ok true 0 3 None false true initial
  = (Raise (HwpControllerError msg_table_dims), initial)
  /\ is_dimension_error
       (fst (insert_table sink_ok true 2 3 None false true
               (with_hwp true initial))) = false.
Proof.
  split.
  - apply (proj1 (insert_table_dimension_check sink_ok true 0 3 None false
                    true initial)).
    left. lia.
  - apply (proj2 (insert_table_dimension_check sink_ok true 2 3 None false true
                    (with_hwp true initial))); lia.
Defined.

End TableInsertion.

(** ** The fallback tokenizer *)

Section FallbackTokenizer.
Import PyStr Re HwpController Fallback FallbackSpec.

Section WithController.

Variable table_args : Type.
Variable parse_table_args : str -> option table_args.
Variable int_of_float : str -> option Z.
Variable lower : str -> str.
Variable controller : list (call table_args) -> call table_args -> option exn.
Variable cancel_check : option (nat -> bool).

(** No cancellation is requested. *)
Hypothesis no_cancel : forall f, cancel_check = Some f -> forall n, f n = false.

Abbreviation fb_state := (fb_state table_args).
Abbreviation poll := (poll cancel_check (table_args := table_args)).
Abbreviation dispatch :=
  (dispatch parse_table_args int_of_float lower controller cancel_check).
Abbreviation fallback_loop :=
  (fallback_loop parse_table_args int_of_float lower controller cancel_check).

Lemma poll_no_cancel (st : fb_state) :
  fst (poll st) = false
  /\ events (snd (poll st)) = events st
  /\ log (snd (poll st)) = log st.
Proof.
  unfold Fallback.poll. destruct cancel_check as [f|] eqn:E; simpl.
  - rewrite (no_cancel f eq_refl). auto.
  - auto.
Qed.









End WithController.



End FallbackTokenizer.

(** ** The typing worker *)

Section Worker.
Import PyStr HwpController TypingWorker WorkerSpec.

Section WithSurroundings.

Variable cancel_is_set : nat -> bool.
Variable queue_get : nat -> option (nat * str).
Variable connect : nat -> nat -> option exn.
Variable runner_run : nat -> nat -> str -> option exn.

Abbreviation run_job := (run_job connect runner_run).
Abbreviation turn := (turn cancel_is_set queue_get connect runner_run).
Abbreviation run := (run cancel_is_set queue_get connect runner_run).
Abbreviation job_trace := (job_trace connect runner_run).
Abbreviation worker_trace :=
  (worker_trace cancel_is_set queue_get connect runner_run).
Abbreviation acquired := (acquired connect).
Abbreviation takes := (takes cancel_is_set queue_get).


Lemma failure_kinds_apart (e : exn) :
  transport_unavailable e = true ->
  other_failure e = false /\ is_cancellation e = false.
Proof.
  unfold transport_unavailable, other_failure.
  destruct (is_cancellation e), (_is_rpc_unavailable_message (exn_str e));
    simpl; intros; try discriminate; auto.
Qed.







Lemma job_trace_functional (idx : nat) (script : str) (id fresh t : nat)
    (tr tr' : list action) (stop stop' : bool) (i i' f f' u u' : nat) :
  job_trace idx script id fresh t tr stop i f u ->
  job_trace idx script id fresh t tr' stop' i' f' u' ->
  tr = tr' /\ stop = stop' /\ i = i' /\ f = f' /\ u = u'.
Proof.
  assert (K1 : forall e,
             other_failure e = true -> transport_unavailable e = true ->
             False).
  { intros e Ho Ht. apply failure_kinds_apart in Ht as [Ht _]. congruence. }
  assert (K2 : forall m, other_failure (ScriptCancelled m) = true -> False)
    by (intros m; discriminate).
  assert (K3 : forall m,
             transport_unavailable (ScriptCancelled m) = true -> False)
    by (intros m; discriminate).
  intros H H'.
  inversion H; subst; inversion H'; subst;
    repeat match goal with
           | A : ?x = Some ?a, B : ?x = Some ?b |- _ =>
               assert (a = b) by congruence; clear B; subst
           end;
    try (exfalso;
         match goal with
         | A : other_failure ?e = true, B : transport_unavailable ?e = true
           |- _ => exact (K1 e A B)
         | A : other_failure (ScriptCancelled ?m) = true |- _ =>
             exact (K2 m A)
         | A : transport_unavailable (ScriptCancelled ?m) = true |- _ =>
             exact (K3 m A)
         end);
    try congruence;
    repeat split; congruence.
Qed.

Lemma acquired_functional (fresh t : nat) (c : option nat)
    (pre pre' : list action) (i i' f f' u u' : nat) :
  acquired fresh t c pre i f u -> acquired fresh t c pre' i' f' u' ->
  pre = pre' /\ i = i' /\ f = f' /\ u = u'.
Proof. intros H H'. inversion H; subst; inversion H'; subst; auto. Qed.

(** The policy leaves no choice: on given surroundings it has one list of
    actions and one ending for each number of turns. *)
Lemma worker_trace_functional (n t : nat) (c : option nat) (fresh : nat)
    (tr tr' : list action) (r r' : option ending) :
  worker_trace n t c fresh tr r -> worker_trace n t c fresh tr' r' ->
  tr = tr' /\ r = r'.
Proof.
  intros H. revert tr' r'.
  induction H as [t c fresh
                 |n t c fresh Hc
                 |n t c fresh tr r Hc Hq Hw IH
                 |n t c fresh job Hc Hq Hc2
                 |n t fresh job e Htake Hcon
                 |n t c fresh idx script pre id fresh1 t1 tr id' fresh' t'
                    rest r Htake Hacq Hjob Hw IH
                 |n t c fresh idx script pre id fresh1 t1 tr id' fresh' t'
                    Htake Hacq Hjob];
    intros tr2 r2 W; inversion W; subst;
    unfold WorkerSpec.takes in *;
    repeat match goal with
           | A : _ /\ _ |- _ => destruct A
           end;
    try congruence;
    try (split; congruence);
    try (match goal with
         | A : WorkerSpec.acquired _ _ _ None _ _ _ _ |- _ =>
             inversion A; congruence
         end);
    auto.
  all: repeat match goal with
              | A : ?x = Some (?a, ?b), B : ?x = Some (?a', ?b') |- _ =>
                  assert (a = a' /\ b = b') as [? ?]
                    by (split; congruence);
                  clear B; subst
              end.
  all: repeat match goal with
              | A : WorkerSpec.acquired _ _ _ _ _ _ _ _,
                B : WorkerSpec.acquired _ _ _ _ _ _ _ _ |- _ =>
                  destruct (acquired_functional _ _ _ _ _ _ _ _ _ _ _ A B)
                    as (? & ? & ? & ?); clear B; subst
              end.
  all: repeat match goal with
              | A : WorkerSpec.job_trace _ _ _ _ _ _ _ _ _ _ _ _,
                B : WorkerSpec.job_trace _ _ _ _ _ _ _ _ _ _ _ _ |- _ =>
                  destruct
                    (job_trace_functional _ _ _ _ _ _ _ _ _ _ _ _ _ _ _ A B)
                    as (? & ? & ? & ? & ?); clear B; subst
              end.
  all: try discriminate.
  all: try (match goal with
            | IH : forall tr' r', _ -> _ /\ _,
              B : WorkerSpec.worker_trace _ _ _ _ _ _ _ _ _ _ |- _ =>
                destruct (IH _ _ B) as [? ?]; subst
            end).
  all: auto.
Qed.


End WithSurroundings.

Import WorkerCases.

(** The retry at work: the first run loses the transport, the worker
    connects a second controller and runs the script on it again, and the
    job is finished. *)
Example worker_retries_once :
  TypingWorker.run never_cancelled one_job connects first_run_loses_transport
    1 worker_init
  = (None,
     {| controller := Some 1; created := 2; clock := 7;
        trace :=
          [NewController 0; Connect 0 None; Emit (item_started 7);
           Run 0 (lit "insert_text('a')")
             (Some (Exception
                      (lit "(-2147023174, 'RPC server is unavailable.', None, None)")));
           NewController 1; Connect 1 None;
           Run 1 (lit "insert_text('a')") None;
           Emit (item_finished 7)] |}).
Proof. reflexivity. Qed.


End Worker.

(** ** The placeholder normaliser *)

Section Placeholders.
Import PyStr Re ScriptRunner Spec.

Lemma ph_scan_app (pre post : list str) :
  ph_scan (pre ++ post) = fold_left ph_step post (ph_scan pre).
Proof. unfold ph_scan. apply fold_left_app. Qed.


Lemma synthesized_markers_copied (l : str) :
  synthesized_markers [copied l] = [].
Proof. reflexivity. Qed.






(** *** The four synthesis steps keep the account of the markers *)












(** *** The markers of the output when the input has none *)











(** *** The explicit inside marker *)

Lemma fp_re_not_template (s m : str) :
  fp_re s = Some m -> is_template_line s = false.
Proof.
  intros H. unfold is_template_line.
  destruct (startswith (lit "insert_template(") s) eqn:E; [|reflexivity].
  exfalso. destruct s as [|c s]; [discriminate|].
  assert (Hc : c = 105%N).
  { change (lit "insert_template(") with (105%N :: lit "nsert_template(") in E.
    cbn [startswith] in E. apply andb_true_iff in E as [E _].
    apply N.eqb_eq in E. now subst. }
  subst c. vm_compute in H. discriminate.
Qed.

Lemma recorded_weaken (st st' : ph_state) :
  inside_recorded st ->
  inserted_inside st' = inserted_inside st ->
  (In (written focus_inside_line) (ph_out st')
   <-> In (written focus_inside_line) (ph_out st)) ->
  inside_recorded st'.
Proof. unfold inside_recorded. intros H -> ->. exact H. Qed.

Ltac other_lines :=
  simpl; rewrite ?in_app_iff; simpl;
  repeat match goal with
         | |- context [?x = written focus_inside_line] =>
             let H := fresh in
             assert (H : x = written focus_inside_line <-> False)
               by (split; [intros H; vm_compute in H; discriminate
                          |contradiction]);
             rewrite H; clear H
         end;
  tauto.

Lemma copied_not_written (l : str) :
  copied l = written focus_inside_line <-> False.
Proof. split; [discriminate|contradiction]. Qed.

Lemma push_copied_recorded (st : ph_state) (line : str) :
  inside_recorded st -> inside_recorded (push st [copied line]).
Proof.
  intros H. apply (recorded_weaken st); [exact H|reflexivity|].
  simpl. rewrite in_app_iff. simpl. rewrite copied_not_written. tauto.
Qed.

Lemma synth_outside_recorded (stripped : str) (st : ph_state) :
  inside_recorded st -> inside_recorded (synth_outside stripped st).
Proof.
  intros H. unfold synth_outside. destruct (_ && _); [|exact H].
  apply (recorded_weaken st); [exact H|reflexivity|]. other_lines.
Qed.

Lemma synth_inside_recorded (stripped : str) (st : ph_state) :
  inside_recorded st -> inside_recorded (synth_inside stripped st).
Proof.
  intros H. unfold synth_inside. destruct (_ && _); [|exact H].
  unfold inside_recorded. simpl. rewrite in_app_iff. simpl. tauto.
Qed.

Lemma synth_inside_item_recorded (stripped : str) (st : ph_state) :
  inside_recorded st -> inside_recorded (synth_inside_item stripped st).
Proof.
  intros H. unfold synth_inside_item. destruct (_ && _); [|exact H].
  unfold inside_recorded. simpl. split; [intros _|reflexivity].
  unfold push_inside_before_justify.
  destruct (rev (ph_out st)) as [|last rest].
  - rewrite in_app_iff. simpl. tauto.
  - destruct (str_eqb _ _); rewrite in_app_iff; simpl; tauto.
Qed.

Lemma synth_after_recorded (stripped : str) (st : ph_state) :
  inside_recorded st -> inside_recorded (synth_after stripped st).
Proof.
  intros H. unfold synth_after. destruct (_ && _); [|exact H].
  apply (recorded_weaken st); [exact H|reflexivity|]. other_lines.
Qed.

Lemma ph_marker_line_recorded (st : ph_state) (line marker : str) :
  inside_recorded st -> inside_recorded (ph_marker_line st line marker).
Proof.
  intros H. unfold ph_marker_line.
  destruct (str_eqb marker (lit "###")).
  { destruct (inserted_inside st) eqn:E; simpl; [exact H|].
    apply (recorded_weaken st); [exact H|simpl; congruence|].
    simpl. rewrite in_app_iff. simpl. rewrite copied_not_written. tauto. }
  destruct (str_eqb marker (lit "@@@")).
  { cbn [mark_outside seen_inside saw_template].
    destruct (seen_inside st); [|destruct (saw_template st)];
      (apply (recorded_weaken st); [exact H|reflexivity|]).
    - other_lines.
    - simpl. rewrite in_app_iff. simpl. rewrite copied_not_written. tauto.
    - simpl. tauto. }
  destruct (str_eqb marker (lit "&&&")).
  { destruct (has_choices_placeholder st); [|exact H].
    cbn [mark_after_box seen_inside].
    destruct (seen_inside st);
      (apply (recorded_weaken st); [exact H|reflexivity|]).
    - simpl. rewrite in_app_iff. simpl. rewrite copied_not_written.
      other_lines.
    - simpl. rewrite in_app_iff. simpl. rewrite copied_not_written. tauto. }
  now apply push_copied_recorded.
Qed.

Lemma ph_step_recorded (st : ph_state) (line : str) :
  inside_recorded st -> inside_recorded (ph_step st line).
Proof.
  intros H. unfold ph_step.
  destruct (is_template_line (strip line)).
  - apply (recorded_weaken st); [exact H|reflexivity|].
    simpl. rewrite in_app_iff. simpl. rewrite copied_not_written. tauto.
  - destruct (fp_re (strip line)) as [marker|].
    + now apply ph_marker_line_recorded.
    + unfold ph_other_line. apply push_copied_recorded.
      apply synth_after_recorded, synth_inside_item_recorded,
        synth_inside_recorded, synth_outside_recorded, H.
Qed.

Lemma ph_scan_recorded (lines : list str) : inside_recorded (ph_scan lines).
Proof.
  induction lines as [|l lines IH] using rev_ind.
  - unfold inside_recorded. simpl. split; [discriminate|contradiction].
  - rewrite ph_scan_app. simpl. now apply ph_step_recorded.
Qed.

(** C5, as the code has it: an explicit [focus_placeholder('###')] line
    is dropped exactly when the pass has already written the inside
    marker itself; after an explicit occurrence only, it is copied again. *)
Theorem explicit_inside_marker (pre : list str) (line : str) :
  fp_re (strip line) = Some (lit "###") ->
  (inserted_inside (ph_scan pre) = true
   <-> In (written focus_inside_line) (ph_out (ph_scan pre)))
  /\ _normalize_placeholders (pre ++ [line])
     = _normalize_placeholders pre
       ++ (if inserted_inside (ph_scan pre) then [] else [line]).
Proof.
  intros Hfp. split; [apply ph_scan_recorded|].
  unfold _normalize_placeholders. rewrite ph_scan_app. cbn [fold_left].
  unfold ph_step. rewrite (fp_re_not_template _ _ Hfp), Hfp.
  unfold ph_marker_line. rewrite str_eqb_refl.
  destruct (inserted_inside (ph_scan pre)); simpl.
  - now rewrite app_nil_r.
  - now rewrite map_app.
Qed.

Lemma explicit_inside_marker_witness :
  let pre := [lit "insert_template('box.hwp')";
              lit "insert_text('" ++ [c_giyeok] ++ lit ". item')"] in
  let line := lit "focus_placeholder('###')" in
  (inserted_inside (ph_scan pre) = true
   <-> In (written focus_inside_line) (ph_out (ph_scan pre)))
  /\ _normalize_placeholders (pre ++ [line])
     = _normalize_placeholders pre
       ++ (if inserted_inside (ph_scan pre) then [] else [line]).
Proof.
  apply (explicit_inside_marker
           [lit "insert_template('box.hwp')";
            lit "insert_text('" ++ [c_giyeok] ++ lit ". item')"]
           (lit "focus_placeholder('###')")).
  vm_compute. reflexivity.
Defined.

(** C5, as stated, fails: the inside marker was consumed from an explicit
    line, and a second explicit line is copied too. *)
Lemma second_explicit_inside_marker_kept :
  let line := lit "focus_placeholder('###')" in
  seen_inside (ph_scan [line]) = true
  /\ inserted_inside (ph_scan [line]) = false
  /\ _normalize_placeholders [line; line] = [line; line].
Proof. vm_compute. repeat split. Qed.

End Placeholders.

(** ** The score-line formatter *)

Section ScoreLines.
Import PyStr Re ScriptRunner Spec.

Lemma lstrip_suffix (s : str) : exists w, s = w ++ lstrip s.
Proof.
  induction s as [|c s [w IH]]; simpl.
  - now exists [].
  - destruct (isspace c).
    + exists (c :: w). simpl. now rewrite <- IH.
    + now exists [].
Qed.

Lemma rstrip_prefix (s : str) : exists w, s = rstrip s ++ w.
Proof.
  unfold rstrip. destruct (lstrip_suffix (rev s)) as [w H].
  exists (rev w). rewrite <- rev_app_distr, <- H. now rewrite rev_involutive.
Qed.

Lemma lstrip_head (s : str) (c : char) (r : str) :
  lstrip s = c :: r -> isspace c = false.
Proof.
  induction s as [|d s IH]; simpl; [discriminate|].
  destruct (isspace d) eqn:E; [exact IH|].
  intros [= <- <-]. exact E.
Qed.

Lemma lstrip_app_nonspace (a : str) (c : char) :
  isspace c = false -> lstrip (a ++ [c]) <> [].
Proof.
  intros Hc. induction a as [|d a IH]; simpl.
  - rewrite Hc. discriminate.
  - destruct (isspace d); [exact IH|discriminate].
Qed.

Lemma strip_empty_lstrip (l : str) : strip l = [] -> lstrip l = [].
Proof.
  unfold strip, rstrip. intros H.
  destruct (lstrip l) as [|c r] eqn:E; [reflexivity|].
  exfalso. apply lstrip_head in E.
  assert (H' : lstrip (rev (c :: r)) = []).
  { rewrite <- (rev_involutive (lstrip (rev (c :: r)))), H. reflexivity. }
  simpl in H'. revert H'.
  destruct (rev r) as [|x xs] eqn:Er.
  - simpl. rewrite E. discriminate.
  - apply (lstrip_app_nonspace (x :: xs) c E).
Qed.

(** A line is [strip line] after its indentation. *)
Lemma lstrip_strip (l : str) : exists w, lstrip l = strip l ++ w.
Proof. unfold strip. apply rstrip_prefix. Qed.

Lemma blank_no_score (l : str) : is_blank l = true -> score_re l = None.
Proof.
  unfold is_blank. destruct (strip l) eqn:E; [|discriminate]. intros _.
  apply strip_empty_lstrip in E.
  unfold score_re, m_ws. rewrite E. reflexivity.
Qed.

Lemma break_no_score (l : str) : is_break l = true -> score_re l = None.
Proof.
  unfold is_break, is_paragraph, is_small_paragraph. intros H.
  destruct (lstrip_strip l) as [w Hw].
  unfold score_re, m_ws. rewrite Hw.
  apply orb_true_iff in H as [H|H]; apply str_eqb_eq in H; rewrite H;
    reflexivity.
Qed.

Lemma blank_no_break (l : str) : is_blank l = true -> is_break l = false.
Proof.
  unfold is_blank, is_break, is_paragraph, is_small_paragraph.
  destruct (strip l); [reflexivity|discriminate].
Qed.

Lemma score_scan_app (pre post : list str) :
  fold_left score_step (pre ++ post) score_init
  = fold_left score_step post (fold_left score_step pre score_init).
Proof. apply fold_left_app. Qed.

(** *** One step *)

(** A line that is neither a break nor a score line is copied, after the
    blank paragraph a score line before it still needs. *)
Lemma score_step_plain (st : score_state) (l : str) :
  is_break l = false -> score_re l = None ->
  sc_out (score_step st l)
  = (if need_extra_blank_line st && negb (is_blank l)
     then sc_out st ++ [insert_paragraph_line] else sc_out st) ++ [l]
  /\ need_extra_blank_line (score_step st l)
     = need_extra_blank_line st && is_blank l.
Proof.
  unfold is_break, is_paragraph, is_small_paragraph, is_blank, score_step.
  intros Hb Hs. apply orb_false_iff in Hb as [Hp Hsp].
  rewrite Hp, Hsp, Hs.
  destruct (need_extra_blank_line st) eqn:En; destruct (strip l); simpl;
    rewrite ?En; auto.
Qed.

Lemma trim_breaks_content (c : str) (r : list str) :
  is_break c = false -> trim_breaks (c :: r) = c :: r.
Proof.
  unfold is_break. intros H. apply orb_false_iff in H as [Hp Hs].
  simpl. rewrite Hp, Hs. reflexivity.
Qed.

Lemma trim_breaks_one_break (c : str) (r : list str) :
  is_break c = false ->
  trim_breaks (insert_paragraph_line :: c :: r)
  = insert_paragraph_line :: c :: r.
Proof.
  unfold is_break. intros H. apply orb_false_iff in H as [Hp _].
  cbn [trim_breaks].
  change (is_paragraph insert_paragraph_line) with true. cbv iota.
  rewrite Hp. reflexivity.
Qed.

Lemma score_emit_as_stack (r : list str) (n : str) :
  score_emit (rev r) n = rev (score_emit_rev (trim_breaks r) n).
Proof.
  unfold score_emit, score_emit_rev.
  rewrite !rev_involutive.
  set (t := trim_breaks r). clearbody t.
  destruct t as [|last t'].
  - reflexivity.
  - cbn [rev]. destruct (negb (is_paragraph last)).
    + rewrite !rev_app_distr, !rev_involutive. cbn [rev app].
      destruct (negb (str_eqb (strip insert_paragraph_line) align_right_line));
        cbn [rev]; rewrite <- ?app_assoc; reflexivity.
    + rewrite !rev_app_distr, !rev_involutive. cbn [rev app].
      destruct (negb (str_eqb (strip last) align_right_line));
        cbn [rev]; rewrite <- ?app_assoc; reflexivity.
Qed.

Lemma score_emit_rev_content (p : str) (ro : list str) (n : str) :
  is_break p = false ->
  score_emit_rev (p :: ro) n
  = rev (score_layout n) ++ p :: ro
  /\ score_emit_rev (insert_paragraph_line :: p :: ro) n
     = rev (score_layout n) ++ p :: ro.
Proof.
  unfold is_break. intros H. apply orb_false_iff in H as [Hp _].
  unfold score_emit_rev. rewrite Hp.
  change (is_paragraph insert_paragraph_line) with true.
  cbn [negb].
  change (str_eqb (strip insert_paragraph_line) align_right_line) with false.
  cbn [negb]. split; reflexivity.
Qed.

(** On an output that ends with a content line, a score line leaves the
    canonical layout, whether a blank paragraph was still needed or not. *)
Lemma score_step_after_content (st : score_state) (o : list str)
    (p line n : str) :
  sc_out st = o ++ [p] -> is_break p = false ->
  score_re line = Some n ->
  sc_out (score_step st line) = o ++ [p] ++ score_layout n
  /\ need_extra_blank_line (score_step st line) = true.
Proof.
  intros Ho Hp Hs.
  assert (Hb : is_break line = false).
  { destruct (is_break line) eqn:E; [|reflexivity].
    apply break_no_score in E. congruence. }
  unfold score_step. unfold is_break, is_paragraph, is_small_paragraph in Hb.
  apply orb_false_iff in Hb as [Hb1 Hb2]. rewrite Hb1, Hb2, Hs.
  cbn [need_extra_blank_line sc_out]. split; [|reflexivity].
  destruct (score_emit_rev_content p (rev o) n Hp) as [E1 E2].
  destruct (need_extra_blank_line st && _); cbn [sc_out]; rewrite Ho.
  - replace ((o ++ [p]) ++ [insert_paragraph_line])
      with (rev (insert_paragraph_line :: p :: rev o))
      by (cbn [rev]; now rewrite rev_involutive).
    rewrite score_emit_as_stack, (trim_breaks_one_break p (rev o) Hp), E2.
    rewrite rev_app_distr, rev_involutive. cbn [rev].
    rewrite rev_involutive, <- app_assoc. reflexivity.
  - replace (o ++ [p]) with (rev (p :: rev o))
      by (cbn [rev]; now rewrite rev_involutive).
    rewrite score_emit_as_stack, (trim_breaks_content p (rev o) Hp), E1.
    rewrite rev_app_distr, rev_involutive. cbn [rev].
    rewrite rev_involutive, <- app_assoc. reflexivity.
Qed.

(** *** Blank lines after a score line *)

Lemma score_blanks (blanks : list str) :
  forall st,
    forallb is_blank blanks = true ->
    sc_out (fold_left score_step blanks st) = sc_out st ++ blanks
    /\ need_extra_blank_line (fold_left score_step blanks st)
       = need_extra_blank_line st.
Proof.
  induction blanks as [|l blanks IH]; intros st H; simpl.
  - now rewrite app_nil_r.
  - simpl in H. apply andb_true_iff in H as [Hl H].
    destruct (score_step_plain st l (blank_no_break l Hl)
                (blank_no_score l Hl)) as [Ho Hn].
    destruct (IH (score_step st l) H) as [Ho' Hn'].
    rewrite Ho', Hn', Ho, Hn, Hl. rewrite !andb_false_r, !andb_true_r.
    rewrite <- app_assoc. auto.
Qed.

(** *** What is written before a content line stays *)

Lemma trim_breaks_keeps (c : str) (x : list str) :
  is_break c = false ->
  forall r, exists r', trim_breaks (r ++ c :: x) = r' ++ c :: x.
Proof.
  intros Hc. induction r as [|l r IH].
  - exists []. apply trim_breaks_content, Hc.
  - cbn [app trim_breaks].
    destruct (is_paragraph l).
    + destruct (r ++ c :: x) as [|prev rest] eqn:E.
      * destruct r; discriminate.
      * destruct (is_paragraph prev).
        -- exact IH.
        -- exists (l :: r). cbn [app]. now rewrite E.
    + destruct (is_small_paragraph l); [exact IH|].
      now exists (l :: r).
Qed.

Lemma score_emit_rev_keeps (c : str) (x r : list str) (n : str) :
  exists r', score_emit_rev (r ++ c :: x) n = r' ++ c :: x.
Proof.
  unfold score_emit_rev.
  destruct (r ++ c :: x) as [|last t] eqn:E; [destruct r; discriminate|].
  rewrite <- E.
  destruct (negb (is_paragraph last)).
  - match goal with |- context [if ?b then _ else _] => destruct b end.
    + exists (insert_paragraph_line :: score_text_line n
              :: align_right_line :: insert_paragraph_line :: r).
      reflexivity.
    + exists (insert_paragraph_line :: score_text_line n
              :: insert_paragraph_line :: r).
      reflexivity.
  - match goal with |- context [if ?b then _ else _] => destruct b end.
    + exists (insert_paragraph_line :: score_text_line n
              :: align_right_line :: r).
      reflexivity.
    + exists (insert_paragraph_line :: score_text_line n :: r).
      reflexivity.
Qed.

Lemma score_step_keeps (c : str) (x : list str) (st : score_state)
    (l : str) :
  is_break c = false ->
  (exists r, sc_out st = rev (r ++ c :: x)) ->
  exists r, sc_out (score_step st l) = rev (r ++ c :: x).
Proof.
  intros Hc [r Hr]. unfold score_step.
  destruct (str_eqb (strip l) insert_paragraph_line).
  { exists (l :: r). cbn [sc_out app rev]. now rewrite Hr. }
  destruct (str_eqb (strip l) insert_small_paragraph_line).
  { exists (l :: r). cbn [sc_out app rev]. now rewrite Hr. }
  set (st1 := if need_extra_blank_line st && _ then _ else st).
  assert (H1 : exists r1, sc_out st1 = rev (r1 ++ c :: x)).
  { unfold st1. destruct (need_extra_blank_line st && _).
    - exists (insert_paragraph_line :: r). cbn [sc_out app rev].
      now rewrite Hr.
    - now exists r. }
  destruct H1 as [r1 Hr1].
  destruct (score_re l) as [n|]; cbn [sc_out].
  - rewrite Hr1, score_emit_as_stack.
    destruct (trim_breaks_keeps c x Hc r1) as [r2 ->].
    destruct (score_emit_rev_keeps c x r2 n) as [r3 ->].
    now exists r3.
  - exists (l :: r1). cbn [app rev]. now rewrite Hr1.
Qed.

Lemma score_scan_keeps (c : str) (x : list str) (rest : list str) :
  is_break c = false ->
  forall st,
    (exists r, sc_out st = rev (r ++ c :: x)) ->
    exists r, sc_out (fold_left score_step rest st) = rev (r ++ c :: x).
Proof.
  intros Hc. induction rest as [|l rest IH]; intros st H; simpl.
  - exact H.
  - apply IH. now apply score_step_keeps.
Qed.

(** *** The score line the formatter writes is a score line *)

Lemma isspace_points (c : char) :
  isspace c = true ->
  In c [9; 10; 11; 12; 13; 28; 29; 30; 31; 32; 133; 160; 5760; 8192; 8193;
        8194; 8195; 8196; 8197; 8198; 8199; 8200; 8201; 8202; 8232; 8233;
        8239; 8287; 12288]%N.
Proof.
  unfold isspace, in_ranges, space_ranges. cbn [existsb fst snd].
  rewrite !orb_true_iff, !andb_true_iff, !N.leb_le. cbn [In].
  lia.
Qed.

Lemma isdigit_not_space (c : char) : isdigit c = true -> isspace c = false.
Proof.
  intros Hd. destruct (isspace c) eqn:Hs; [|reflexivity].
  apply isspace_points in Hs. cbn [In] in Hs.
  repeat (destruct Hs as [<-|Hs]; [vm_compute in Hd; discriminate|]).
  contradiction.
Qed.

Lemma span_digits (ds rest : str) :
  forallb isdigit ds = true ->
  match rest with c :: _ => isdigit c = false | [] => True end ->
  span isdigit (ds ++ rest) = (ds, rest).
Proof.
  intros Hds Hrest. induction ds as [|d ds IH]; simpl.
  - destruct rest as [|c rest]; [reflexivity|]. simpl. now rewrite Hrest.
  - simpl in Hds. apply andb_true_iff in Hds as [Hd Hds].
    rewrite Hd, (IH Hds). reflexivity.
Qed.

Lemma lstrip_nonspace (c : char) (s : str) :
  isspace c = false -> lstrip (c :: s) = c :: s.
Proof. intros H. simpl. now rewrite H. Qed.

(** Every line [insert_text('[N..]')] with a number [N] made of decimal
    digits is a score line, and its number is [N]. *)
Lemma score_text_line_recognized (ds : str) :
  ds <> [] -> forallb isdigit ds = true ->
  score_re (score_text_line ds) = Some ds.
Proof.
  intros Hne Hds.
  destruct ds as [|d ds]; [contradiction|].
  assert (Hd : isspace d = false).
  { simpl in Hds. apply andb_true_iff in Hds as [Hd _].
    now apply isdigit_not_space. }
  unfold score_re, score_text_line, m_ws, m_digits1.
  let x := eval vm_compute in (lit "insert_text('[") in
  change (lit "insert_text('[") with x.
  let x := eval vm_compute in (lit "]')") in
  change (lit "]')") with x.
  cbn [app].
  rewrite lstrip_nonspace by reflexivity.
  cbn -[isdigit isspace span lstrip].
  rewrite lstrip_nonspace by reflexivity.
  cbn -[isdigit isspace span lstrip].
  rewrite lstrip_nonspace by reflexivity.
  cbn -[isdigit isspace span lstrip].
  rewrite (lstrip_nonspace d _ Hd).
  match goal with
  | |- context [span isdigit (d :: ds ++ ?r)] =>
      change (d :: ds ++ r) with ((d :: ds) ++ r);
      rewrite (span_digits (d :: ds) r Hds) by reflexivity
  end.
  rewrite lstrip_nonspace by reflexivity.
  cbn -[isdigit isspace span lstrip].
  rewrite lstrip_nonspace by reflexivity.
  cbn -[isdigit isspace span lstrip].
  rewrite lstrip_nonspace by reflexivity.
  cbn -[isdigit isspace span lstrip].
  rewrite lstrip_nonspace by reflexivity.
  cbn -[isdigit isspace span lstrip].
  reflexivity.
Qed.

(** C3, as the code has it: a score line right after a line [p] that is
    neither a paragraph break nor a score line is written, right after
    [p], as one [insert_paragraph()], [set_align_right_next_line()], the
    plain text [insert_text('[N..]')] and one [insert_paragraph()]; when
    only blank lines follow, nothing else is written; when the next line
    that is not blank is a content line, neither a paragraph break nor a
    score line, exactly one more [insert_paragraph()] is written, right
    before it. *)
Theorem score_line_layout (pre : list str) (p line n : str)
    (post : list str) :
  score_re line = Some n ->
  is_break p = false ->
  score_re p = None ->
  let before := _ensure_score_right_align (pre ++ [p]) in
  (exists o, before = o ++ [p])
  /\ (forallb is_blank post = true ->
      _ensure_score_right_align (pre ++ p :: line :: post)
      = before ++ score_layout n ++ post)
  /\ (forall blanks c rest,
        post = blanks ++ c :: rest ->
        forallb is_blank blanks = true ->
        is_blank c = false -> is_break c = false -> score_re c = None ->
        exists tail,
          _ensure_score_right_align (pre ++ p :: line :: post)
          = before ++ score_layout n ++ blanks
            ++ [insert_paragraph_line; c] ++ tail).
Proof.
  intros Hs Hp Hps before.
  unfold _ensure_score_right_align in *.
  set (st0 := fold_left score_step pre score_init).
  assert (Hbefore : before = sc_out (score_step st0 p)).
  { unfold before. rewrite score_scan_app. reflexivity. }
  destruct (score_step_plain st0 p Hp Hps) as [Hpo _].
  set (o := if need_extra_blank_line st0 && negb (is_blank p)
            then sc_out st0 ++ [insert_paragraph_line] else sc_out st0) in Hpo.
  destruct (score_step_after_content (score_step st0 p) o p line n Hpo Hp Hs)
    as [Hso Hsn].
  assert (Hscan : forall post',
    fold_left score_step (pre ++ p :: line :: post') score_init
    = fold_left score_step post' (score_step (score_step st0 p) line)).
  { intros post'. rewrite score_scan_app. reflexivity. }
  split; [exists o; now rewrite Hbefore|].
  split.
  - intros Hblank. rewrite Hscan.
    destruct (score_blanks post (score_step (score_step st0 p) line) Hblank)
      as [-> _].
    rewrite Hso, Hbefore, Hpo. now rewrite <- !app_assoc.
  - intros blanks c rest -> Hblank Hc Hcb Hcs.
    rewrite Hscan, fold_left_app. cbn [fold_left].
    set (st2 := fold_left score_step blanks _).
    destruct (score_blanks blanks (score_step (score_step st0 p) line) Hblank)
      as [Ho2 Hn2].
    fold st2 in Ho2, Hn2.
    destruct (score_step_plain st2 c Hcb Hcs) as [Ho3 _].
    rewrite Hn2, Hsn, Hc in Ho3. cbn [andb negb] in Ho3.
    destruct (score_scan_keeps c
                (rev (sc_out st2 ++ [insert_paragraph_line])) rest Hcb
                (score_step st2 c)) as [r Hr].
    { exists []. cbn [app rev]. rewrite rev_involutive. exact Ho3. }
    exists (rev r). rewrite Hr, rev_app_distr. cbn [rev].
    rewrite rev_involutive, Ho2, Hso, Hbefore, Hpo.
    rewrite <- !app_assoc. reflexivity.
Qed.

Lemma score_line_layout_witness :
  let p := lit "insert_text('a')" in
  let line := lit "insert_text('[3" ++ [c_jeom] ++ lit "]')" in
  let c := lit "insert_text('b')" in
  let before := _ensure_score_right_align ([] ++ [p]) in
  (exists o, before = o ++ [p])
  /\ _ensure_score_right_align ([] ++ p :: line :: [lit " "])
     = before ++ score_layout (lit "3") ++ [lit " "]
  /\ (exists tail,
        _ensure_score_right_align ([] ++ p :: line :: [lit ""; c])
        = before ++ score_layout (lit "3") ++ [lit ""]
          ++ [insert_paragraph_line; c] ++ tail).
Proof.
  assert (H1 : score_re (lit "insert_text('[3" ++ [c_jeom] ++ lit "]')")
               = Some (lit "3")) by (vm_compute; reflexivity).
  assert (H2 : is_break (lit "insert_text('a')") = false)
    by (vm_compute; reflexivity).
  assert (H3 : score_re (lit "insert_text('a')") = None)
    by (vm_compute; reflexivity).
  split; [|split].
  - apply (score_line_layout [] (lit "insert_text('a')")
             (lit "insert_text('[3" ++ [c_jeom] ++ lit "]')") (lit "3") []
             H1 H2 H3).
  - apply (score_line_layout [] (lit "insert_text('a')")
             (lit "insert_text('[3" ++ [c_jeom] ++ lit "]')") (lit "3")
             [lit " "] H1 H2 H3).
    vm_compute. reflexivity.
  - apply (proj2 (proj2 (score_line_layout [] (lit "insert_text('a')")
             (lit "insert_text('[3" ++ [c_jeom] ++ lit "]')") (lit "3")
             [lit ""; lit "insert_text('b')"] H1 H2 H3))
             [lit ""] (lit "insert_text('b')") []);
      vm_compute; reflexivity.
Defined.

(** C3, as stated, fails: a second score line follows the first, and the
    blank paragraph before it is trimmed again, so that one paragraph
    break only stands between the first score and what follows it. *)
Lemma consecutive_score_lines :
  let score3 := lit "insert_text('[3" ++ [c_jeom] ++ lit "]')" in
  let score4 := lit "insert_text('[4" ++ [c_jeom] ++ lit "]')" in
  _ensure_score_right_align [lit "insert_text('a')"; score3; score4]
  = [lit "insert_text('a')"; insert_paragraph_line; align_right_line;
     score3; insert_paragraph_line; align_right_line; score4;
     insert_paragraph_line].
Proof. vm_compute. reflexivity. Qed.

End ScoreLines.

(** ** The pipeline run twice *)

Section Idempotence.
Import PyStr Re ScriptRunner Spec.

(** *** Without a template, nothing is synthesized *)

Lemma synth_none (stripped : str) (st : ph_state) :
  saw_template st = false ->
  synth_after stripped
    (synth_inside_item stripped
       (synth_inside stripped (synth_outside stripped st))) = st.
Proof.
  intros H.
  assert (E1 : synth_outside stripped st = st).
  { unfold synth_outside. now rewrite H. }
  rewrite E1.
  assert (E2 : synth_inside stripped st = st).
  { unfold synth_inside. rewrite H. now rewrite andb_false_r. }
  rewrite E2.
  assert (E3 : synth_inside_item stripped st = st).
  { unfold synth_inside_item. rewrite H. now rewrite andb_false_r. }
  rewrite E3.
  unfold synth_after. rewrite H. now rewrite andb_false_r.
Qed.

Lemma is_settled_plain (l : str) :
  is_settled l = true ->
  is_template_line (strip l) = false /\ score_re l = None.
Proof.
  unfold is_settled, is_plain. intros H.
  apply andb_true_iff in H as [H _].
  apply andb_true_iff in H as [H1 H2].
  apply negb_true_iff in H1. apply negb_true_iff in H2.
  split; [exact H1|]. now destruct (score_re l).
Qed.

(** The placeholder pass copies a settled line. *)
Lemma ph_step_copying (st : ph_state) (seen : list str) (l : str) :
  copying st seen -> is_settled l = true ->
  copying (ph_step st l) (seen ++ [l]).
Proof.
  intros (Ho & Ht & Hc & Hi) Hl.
  destruct (is_settled_plain l Hl) as [Htl _].
  unfold is_settled in Hl. apply andb_true_iff in Hl as [_ Hm].
  unfold ph_step. rewrite Htl.
  destruct (fp_re (strip l)) as [m|].
  - apply andb_true_iff in Hm as [Hm1 Hm2].
    apply negb_true_iff in Hm1. apply negb_true_iff in Hm2.
    unfold ph_marker_line. rewrite Hi, Hm1, Hm2.
    destruct (str_eqb m (lit "###")); cbn [negb];
      (split; [simpl; now rewrite Ho, map_app|simpl; auto]).
  - unfold ph_other_line. rewrite (synth_none (strip l) st Ht).
    split; [simpl; now rewrite Ho, map_app|simpl; auto].
Qed.

Lemma ph_scan_copying (lines : list str) :
  forallb is_settled lines = true -> copying (ph_scan lines) lines.
Proof.
  induction lines as [|l lines IH] using rev_ind; intros H.
  - repeat split.
  - rewrite forallb_app in H. apply andb_true_iff in H as [H Hl].
    simpl in Hl. rewrite andb_true_r in Hl.
    rewrite ph_scan_app. simpl. apply ph_step_copying; auto.
Qed.

Lemma normalize_placeholders_settled (lines : list str) :
  forallb is_settled lines = true -> _normalize_placeholders lines = lines.
Proof.
  intros H. destruct (ph_scan_copying lines H) as [Ho _].
  unfold _normalize_placeholders. rewrite Ho, map_map. simpl.
  apply map_id.
Qed.

(** On plain lines, the placeholder pass writes settled lines only. *)
Lemma ph_step_settling (st : ph_state) (l : str) :
  settling st -> is_plain l = true -> settling (ph_step st l).
Proof.
  intros (Ho & Ht & Hc) Hl.
  assert (Htl : is_template_line (strip l) = false).
  { unfold is_plain in Hl. apply andb_true_iff in Hl as [Hl _].
    now apply negb_true_iff in Hl. }
  assert (Hpush : forall st' x,
    forallb (fun x => is_settled (snd x)) (ph_out st') = true ->
    is_settled (snd x) = true ->
    forallb (fun x => is_settled (snd x)) (ph_out st' ++ [x]) = true).
  { intros st' x H1 H2. rewrite forallb_app, H1. simpl. now rewrite H2. }
  unfold ph_step. rewrite Htl.
  destruct (fp_re (strip l)) as [m|] eqn:Em.
  - unfold ph_marker_line.
    destruct (str_eqb m (lit "###")) eqn:E1.
    { apply str_eqb_eq in E1. subst m.
      destruct (negb (inserted_inside st)); [|repeat split; auto].
      split; [|simpl; auto]. simpl. apply (Hpush st); [exact Ho|].
      simpl. unfold is_settled. now rewrite Hl, Em. }
    destruct (str_eqb m (lit "@@@")) eqn:E2.
    { cbn [mark_outside seen_inside saw_template]. rewrite Ht.
      destruct (seen_inside st); [|repeat split; auto].
      split; [|simpl; auto]. simpl.
      rewrite forallb_app, Ho. reflexivity. }
    destruct (str_eqb m (lit "&&&")) eqn:E3.
    { rewrite Hc. repeat split; auto. }
    split; [|simpl; auto]. simpl. apply (Hpush st); [exact Ho|].
    simpl. unfold is_settled. now rewrite Hl, Em, E2, E3.
  - unfold ph_other_line. rewrite (synth_none (strip l) st Ht).
    split; [|simpl; auto]. simpl. apply (Hpush st); [exact Ho|].
    simpl. unfold is_settled. now rewrite Hl, Em.
Qed.

Lemma normalize_placeholders_settles (lines : list str) :
  forallb is_plain lines = true ->
  forallb is_settled (_normalize_placeholders lines) = true.
Proof.
  intros H.
  assert (Hs : settling (ph_scan lines)).
  { induction lines as [|l lines IH] using rev_ind.
    - repeat split.
    - rewrite forallb_app in H. apply andb_true_iff in H as [H Hl].
      simpl in Hl. rewrite andb_true_r in Hl.
      rewrite ph_scan_app. simpl. apply ph_step_settling; auto. }
  destruct Hs as [Hs _]. unfold _normalize_placeholders.
  rewrite forallb_forall in *. intros l Hin.
  apply in_map_iff in Hin as (x & <- & Hx). now apply Hs.
Qed.

(** *** Without a score line, the score-line formatter copies *)

Lemma ensure_score_right_align_settled (lines : list str) :
  forallb is_settled lines = true ->
  _ensure_score_right_align lines = lines.
Proof.
  intros H. unfold _ensure_score_right_align.
  assert (Hinv :
    sc_out (fold_left score_step lines score_init) = lines
    /\ need_extra_blank_line (fold_left score_step lines score_init) = false).
  { induction lines as [|l lines IH] using rev_ind; [now split|].
    rewrite forallb_app in H. apply andb_true_iff in H as [H Hl].
    simpl in Hl. rewrite andb_true_r in Hl.
    destruct (is_settled_plain l Hl) as [_ Hs].
    destruct (IH H) as [Ho Hn].
    rewrite fold_left_app. cbn [fold_left].
    set (st := fold_left score_step lines score_init) in *.
    unfold score_step. cbv zeta. rewrite Hs, Hn.
    destruct (str_eqb (strip l) insert_paragraph_line);
      [cbn [sc_out need_extra_blank_line]; now rewrite Ho|].
    destruct (str_eqb (strip l) insert_small_paragraph_line);
      [cbn [sc_out need_extra_blank_line]; now rewrite Ho|].
    cbn [andb sc_out need_extra_blank_line]. now rewrite Ho, Hn. }
  apply Hinv.
Qed.

(** *** The tab sanitizer run twice *)

Lemma tab_text_no_equation (l : str) :
  is_tab_text l = true -> is_insert_equation l = false.
Proof.
  unfold is_tab_text, is_insert_equation. intros H.
  destruct (lstrip_strip l) as [w Hw]. rewrite Hw.
  apply orb_true_iff in H as [H|H]; apply str_eqb_eq in H; rewrite H;
    reflexivity.
Qed.

Lemma tab_text_not_blank (l : str) :
  is_tab_text l = true -> is_blank l = false.
Proof.
  unfold is_tab_text, is_blank. intros H.
  apply orb_true_iff in H as [H|H]; apply str_eqb_eq in H; rewrite H;
    reflexivity.
Qed.

Lemma sanitized_line_view (l : str) (post : list str) :
  is_blank (sanitized_line l post) = is_blank l
  /\ is_insert_equation (sanitized_line l post) = is_insert_equation l
  /\ is_tab_text (sanitized_line l post)
     = is_tab_text l && next_is_equation post.
Proof.
  unfold sanitized_line. rewrite next_is_equation_next_nonblank.
  destruct (is_tab_text l) eqn:Et; [|rewrite Et; repeat split].
  pose proof (tab_text_not_blank l Et) as Hb.
  pose proof (tab_text_no_equation l Et) as He.
  destruct (next_nonblank post) as [x|];
    [destruct (is_insert_equation x)|];
    rewrite ?Hb, ?He, ?Et; repeat split.
Qed.

Lemma next_is_equation_sanitized (lines : list str) :
  next_is_equation (_sanitize_tabs lines) = next_is_equation lines.
Proof.
  induction lines as [|l lines IH]; [reflexivity|].
  rewrite sanitize_tabs_cons.
  destruct (sanitized_line_view l lines) as (Hb & He & _).
  cbn [next_is_equation].
  fold (is_insert_equation (sanitized_line l lines)).
  fold (is_insert_equation l).
  unfold is_blank in Hb. rewrite He.
  destruct (strip (sanitized_line l lines)); destruct (strip l);
    try discriminate; auto.
Qed.

Lemma sanitize_tabs_idempotent (lines : list str) :
  _sanitize_tabs (_sanitize_tabs lines) = _sanitize_tabs lines.
Proof.
  induction lines as [|l lines IH]; [reflexivity|].
  rewrite !sanitize_tabs_cons, IH. f_equal.
  unfold sanitized_line at 1.
  destruct (sanitized_line_view l lines) as (_ & _ & Ht). rewrite Ht.
  destruct (is_tab_text l) eqn:Et; cbn [andb].
  - rewrite <- (next_is_equation_sanitized lines).
    rewrite next_is_equation_next_nonblank.
    destruct (next_nonblank (_sanitize_tabs lines)) as [x|];
      [destruct (is_insert_equation x)|]; reflexivity.
  - reflexivity.
Qed.

Lemma sanitize_tabs_settled (lines : list str) :
  forallb is_settled lines = true ->
  forallb is_settled (_sanitize_tabs lines) = true.
Proof.
  induction lines as [|l lines IH]; [reflexivity|].
  rewrite sanitize_tabs_cons. cbn [forallb].
  intros H. apply andb_true_iff in H as [Hl H].
  rewrite (IH H), andb_true_r.
  unfold sanitized_line.
  destruct (is_tab_text l); [|exact Hl].
  destruct (next_nonblank lines) as [x|];
    [destruct (is_insert_equation x)|]; auto.
Qed.

(** C1, as the code has it: on a line list with no choices-capable
    template line and no score line, the three passes over the lines
    (placeholders, score lines, tabs) change nothing more when they are
    run on their own output. *)
Theorem line_passes_idempotent (lines : list str) :
  forallb is_plain lines = true ->
  line_passes (line_passes lines) = line_passes lines.
Proof.
  intros H. unfold line_passes.
  pose proof (normalize_placeholders_settles lines H) as Hs.
  rewrite (ensure_score_right_align_settled _ Hs).
  pose proof (sanitize_tabs_settled _ Hs) as Ht.
  rewrite (normalize_placeholders_settled _ Ht).
  rewrite (ensure_score_right_align_settled _ Ht).
  apply sanitize_tabs_idempotent.
Qed.

Lemma line_passes_idempotent_witness :
  let lines := [lit "focus_placeholder('###')"; lit "insert_text('\t')";
                lit "insert_text('x')"; lit "focus_placeholder('@@@')";
                lit "insert_text('\t')"; lit "insert_equation('y')"] in
  line_passes (line_passes lines) = line_passes lines.
Proof.
  apply (line_passes_idempotent
           [lit "focus_placeholder('###')"; lit "insert_text('\t')";
            lit "insert_text('x')"; lit "focus_placeholder('@@@')";
            lit "insert_text('\t')"; lit "insert_equation('y')"]).
  vm_compute. reflexivity.
Defined.

(** C1, as stated, fails: the pipeline run on its own output writes a
    second paragraph break and a second alignment before the score line,
    and a third paragraph break after it. *)
Lemma normalize_not_idempotent :
  let score := lit "insert_text('[3" ++ [c_jeom] ++ lit "]')" in
  let script := join_nl [lit "insert_text('a')"; score; lit "insert_text('b')"] in
  let once :=
    join_nl [lit "insert_text('a')"; insert_paragraph_line; align_right_line;
             score; insert_paragraph_line; insert_paragraph_line;
             lit "insert_text('b')"] in
  let twice :=
    join_nl [lit "insert_text('a')"; insert_paragraph_line; align_right_line;
             insert_paragraph_line; align_right_line; score;
             insert_paragraph_line; insert_paragraph_line;
             insert_paragraph_line; lit "insert_text('b')"] in
  normalize script = Some once
  /\ normalize once = Some twice
  /\ str_eqb once twice = false.
Proof. vm_compute. repeat split. Qed.

End Idempotence.

(** ** Lines of a text *)

Section Lines.
Import PyStr Notions.

Lemma split_from_line (l cur s : str) :
  no_newline l = true ->
  split_from cur (l ++ s) = split_from (rev l ++ cur) s.
Proof.
  revert cur. induction l as [|c l IH]; intros cur H; [reflexivity|].
  simpl in H. apply andb_true_iff in H as [Hc H].
  apply negb_true_iff in Hc. simpl. rewrite Hc, IH by exact H.
  now rewrite <- app_assoc.
Qed.

Lemma split_from_nonempty (cur s : str) : split_from cur s <> [].
Proof.
  revert cur. induction s as [|c s IH]; intros cur; simpl; [discriminate|].
  destruct (N.eqb c c_nl); [discriminate|apply IH].
Qed.

Lemma join_cons (sep p : str) (rest : list str) :
  rest <> [] -> join sep (p :: rest) = p ++ sep ++ join sep rest.
Proof. destruct rest; [congruence|reflexivity]. Qed.

(** [split] undoes [join] on lines without a newline. *)
Lemma split_join_nl (ls : list str) :
  ls <> [] -> forallb no_newline ls = true -> split_nl (join_nl ls) = ls.
Proof.
  unfold split_nl, join_nl.
  induction ls as [|l ls IH]; intros Hne H; [congruence|].
  simpl in H. apply andb_true_iff in H as [Hl H].
  destruct ls as [|l2 ls].
  - simpl. rewrite <- (app_nil_r l) at 1.
    rewrite split_from_line by exact Hl. simpl.
    now rewrite app_nil_r, rev_involutive.
  - rewrite join_cons by discriminate.
    rewrite split_from_line by exact Hl. simpl app.
    cbn [split_from]. rewrite N.eqb_refl, app_nil_r, rev_involutive.
    f_equal. apply IH; [discriminate|exact H].
Qed.



Lemma forallb_rev' {A} (p : A -> bool) (l : list A) :
  forallb p (rev l) = forallb p l.
Proof.
  induction l as [|a l IH]; [reflexivity|]. simpl.
  rewrite forallb_app, IH. simpl. rewrite andb_true_r. apply andb_comm.
Qed.

Lemma split_from_no_newline (cur s : str) :
  no_newline cur = true -> forallb no_newline (split_from cur s) = true.
Proof.
  revert cur. induction s as [|c s IH]; intros cur H; simpl.
  - unfold no_newline in *. rewrite forallb_rev'. now rewrite H.
  - destruct (N.eqb c c_nl) eqn:E.
    + simpl. unfold no_newline at 1. rewrite forallb_rev'.
      unfold no_newline in H. rewrite H. now apply IH.
    + apply IH. simpl. now rewrite E.
Qed.

Lemma split_nl_no_newline (s : str) : forallb no_newline (split_nl s) = true.
Proof. now apply split_from_no_newline. Qed.

Lemma split_nl_nonempty (s : str) : split_nl s <> [].
Proof. apply split_from_nonempty. Qed.

Lemma forallb_filter {A} (p f : A -> bool) (l : list A) :
  forallb p l = true -> forallb p (filter f l) = true.
Proof.
  induction l as [|a l IH]; [reflexivity|]. simpl.
  intros H. apply andb_true_iff in H as [Ha H].
  destruct (f a); simpl; [rewrite Ha|]; auto.
Qed.

Lemma filter_idem {A} (f : A -> bool) (l : list A) :
  filter f (filter f l) = filter f l.
Proof.
  induction l as [|a l IH]; [reflexivity|]. simpl.
  destruct (f a) eqn:E; simpl; [rewrite E, IH|]; auto.
Qed.

End Lines.

(** ** The code markers *)

Section CodeMarkers.
Import PyStr ScriptRunner Notions.

(** X1: The lines of [_strip_code_markers script] are the lines of [script]
    that are no code marker, in their order; a script of code markers only
    becomes the empty text.  The removal run twice removes nothing more. *)
Theorem strip_code_markers_lines (script : str) :
  split_nl (_strip_code_markers script)
  = match kept_lines script with [] => [[]] | ls => ls end
  /\ _strip_code_markers (_strip_code_markers script)
     = _strip_code_markers script.
Proof.
  assert (H1 : split_nl (_strip_code_markers script)
               = match kept_lines script with [] => [[]] | ls => ls end).
  { unfold _strip_code_markers. fold (kept_lines script).
    destruct (kept_lines script) as [|l ls] eqn:E; [reflexivity|].
    apply split_join_nl; [discriminate|].
    rewrite <- E. apply forallb_filter, split_nl_no_newline. }
  split; [exact H1|].
  unfold _strip_code_markers at 1. rewrite H1.
  unfold _strip_code_markers. fold (kept_lines script).
  destruct (kept_lines script) as [|l ls] eqn:E; [reflexivity|].
  rewrite <- E. unfold kept_lines. now rewrite filter_idem.
Qed.

End CodeMarkers.

(** ** Line breaks inside strings *)

Section MultilineStrings.
Import PyStr Re ScriptRunner Notions.

Lemma isquote_cases (c : char) :
  isquote c = true -> c = c_squote \/ c = c_dquote.
Proof.
  unfold isquote. intros H. apply orb_true_iff in H as [H|H];
    apply N.eqb_eq in H; auto.
Qed.

Lemma isquote_not_paren_r (q : char) :
  isquote q = true -> N.eqb q c_lparen = false /\ N.eqb q c_rparen = false.
Proof. intros H. destruct (isquote_cases q H) as [-> | ->]; now split. Qed.




End MultilineStrings.

(** ** Text without the calls a pass looks for *)

Section WithoutCalls.
Import PyStr Re ScriptRunner Notions.

Lemma contains_cons_false (p : str) (c : char) (s : str) :
  contains p (c :: s) = false ->
  startswith p (c :: s) = false /\ contains p s = false.
Proof. simpl. intros H. now apply orb_false_iff in H. Qed.





Lemma re_sub_skip_all (m : option char -> str -> option (str * nat))
    (s : str) (prev : option char) :
  re_sub_from m prev (List.length s) s = [].
Proof.
  revert prev. induction s as [|c s IH]; intros prev; [reflexivity|].
  simpl. apply IH.
Qed.

Lemma lazy_payload_found (q : char) (body acc : str) :
  isquote q = true ->
  contains [q; c_rparen] body = false ->
  m_lazy_payload q acc (body ++ [q; c_rparen]) = Some (rev acc ++ body, []).
Proof.
  intros Hq. revert acc. induction body as [|c body IH]; intros acc Hc.
  - simpl. rewrite N.eqb_refl. simpl. now rewrite app_nil_r.
  - apply contains_cons_false in Hc as [Hs Hc].
    cbn [app m_lazy_payload].
    assert (E : N.eqb c q && startswith [c_rparen] (body ++ [q; c_rparen])
                = false).
    { destruct (N.eqb c q) eqn:Ecq; [|reflexivity]. cbn [andb].
      apply N.eqb_eq in Ecq. subst c.
      cbn [startswith] in Hs. rewrite N.eqb_refl in Hs. cbn [andb] in Hs.
      destruct body as [|d body].
      - cbn [app startswith]. rewrite N.eqb_sym.
        rewrite (proj2 (isquote_not_paren_r q Hq)). reflexivity.
      - cbn [app startswith] in *. exact Hs. }
    rewrite E, (IH (c :: acc) Hc). cbn [rev]. now rewrite <- app_assoc.
Qed.

(** X4: A script that is one equation call, with no quote followed by a
    closing parenthesis inside its string, comes out of
    [_normalize_primes_in_equations] with [_fix] applied to the string and
    nothing else changed. *)
Theorem normalize_primes_in_one_call (name : str) (q : char) (body : str) :
  In name [lit "insert_equation("; lit "insert_latex_equation("] ->
  isquote q = true ->
  contains [q; c_rparen] body = false ->
  _normalize_primes_in_equations (name ++ [q] ++ body ++ [q; c_rparen])
  = name ++ [q] ++ _fix body ++ [q; c_rparen].
Proof.
  intros Hin Hq Hc.
  unfold _normalize_primes_in_equations, re_sub.
  assert (Hm : m_equation_call None (name ++ [q] ++ body ++ [q; c_rparen])
               = Some (name ++ [q] ++ _fix body ++ [q; c_rparen],
                       List.length (name ++ [q] ++ body ++ [q; c_rparen]))).
  { unfold m_equation_call.
    assert (Ha : m_alt [lit "insert_equation("; lit "insert_latex_equation("]
                   (name ++ [q] ++ body ++ [q; c_rparen])
                 = Some (name, [q] ++ body ++ [q; c_rparen])).
    { destruct Hin as [<-|[<-|[]]]; reflexivity. }
    rewrite Ha. cbn [app m_class]. rewrite Hq.
    rewrite (lazy_payload_found q body [] Hq Hc). cbn [rev app].
    unfold matched. cbn [List.length]. now rewrite Nat.sub_0_r. }
  destruct (name ++ [q] ++ body ++ [q; c_rparen]) as [|c s] eqn:Es.
  { destruct name; discriminate. }
  cbn [re_sub_from]. rewrite Hm. cbn [List.length].
  now rewrite re_sub_skip_all, app_nil_r.
Qed.

Lemma normalize_primes_in_one_call_witness :
  _normalize_primes_in_equations
    (lit "insert_equation(" ++ [c_squote] ++ (lit "f" ++ [c_prime] ++ lit "(x)")
     ++ [c_squote; c_rparen])
  = lit "insert_equation(" ++ [c_squote]
    ++ _fix (lit "f" ++ [c_prime] ++ lit "(x)") ++ [c_squote; c_rparen].
Proof.
  apply (normalize_primes_in_one_call (lit "insert_equation(") c_squote
           (lit "f" ++ [c_prime] ++ lit "(x)")).
  - left. reflexivity.
  - reflexivity.
  - reflexivity.
Defined.

End WithoutCalls.

(** ** Primes in equation strings *)

Section Primes.
Import PyStr Re ScriptRunner Notions.

Lemma re_sub_from_prime_free (m : option char -> str -> option (str * nat)) :
  (forall p t r n, m p t = Some (r, n) -> prime_free r = true) ->
  forall s prev skip,
    prime_free s = true -> prime_free (re_sub_from m prev skip s) = true.
Proof.
  intros Hm. induction s as [|c s IH]; intros prev skip H; [reflexivity|].
  simpl in H. apply andb_true_iff in H as [Hc H].
  simpl. destruct skip as [|k]; [|now apply IH].
  destruct (m prev (c :: s)) as [[r [|k]]|] eqn:E.
  - simpl. rewrite Hc. now apply IH.
  - unfold prime_free. rewrite forallb_app.
    apply andb_true_iff. split; [exact (Hm _ _ _ _ E)|now apply IH].
  - simpl. rewrite Hc. now apply IH.
Qed.

Lemma letter_prime_free (l : char) :
  isletter l = true -> is_unicode_prime l = false.
Proof.
  unfold isletter, is_unicode_prime, c_prime, c_rquote. intros H.
  apply orb_true_iff in H as [H|H]; apply andb_true_iff in H as [_ H];
    apply N.leb_le in H; apply orb_false_iff; split; apply N.eqb_neq; lia.
Qed.

Lemma m_class_holds (p : char -> bool) (s : str) (d : char) (s' : str) :
  m_class p s = Some (d, s') -> p d = true.
Proof.
  destruct s as [|c s]; simpl; [discriminate|].
  destruct (p c) eqn:E; [|discriminate]. now intros [= <- <-].
Qed.

Ltac matcher_cases H :=
  repeat match type of H with
         | context [match ?x with _ => _ end] =>
             destruct x eqn:?; try discriminate
         | context [if ?x then _ else _] =>
             destruct x eqn:?; try discriminate
         end.

Ltac replacement_prime_free :=
  let H := fresh "H" in
  intros ? ? ? ? H; unfold matched in H; matcher_cases H;
  injection H as <- _;
  try reflexivity;
  repeat match goal with
         | E : m_class isletter _ = Some (_, _) |- _ =>
             apply m_class_holds, letter_prime_free in E
         end;
  unfold prime_free; simpl;
  repeat match goal with E : is_unicode_prime _ = false |- _ =>
    rewrite E; clear E end;
  reflexivity.

Lemma fix_prime_free (s : str) : prime_free (_fix s) = true.
Proof.
  unfold _fix.
  repeat (apply re_sub_from_prime_free;
          [first [ unfold m_backslash_prime; replacement_prime_free
                 | unfold m_escaped_apostrophes; replacement_prime_free
                 | unfold m_letter_backslash; replacement_prime_free
                 | unfold m_rm_letter_backslash; replacement_prime_free
                 | unfold m_rm_F_apostrophe; replacement_prime_free
                 | unfold m_rm_F_backslashes; replacement_prime_free
                 | unfold m_rm_F_prime; replacement_prime_free
                 | unfold m_rm_space_letter; replacement_prime_free ]|]).
  unfold prime_free, replace_char.
  induction s as [|c s IH]; [reflexivity|].
  cbn [flat_map]. destruct (N.eqb c c_prime) eqn:E1.
  - cbn [app flat_map]. simpl (N.eqb c_squote c_rquote). cbn iota.
    cbn [app forallb]. exact IH.
  - cbn [app flat_map]. destruct (N.eqb c c_rquote) eqn:E2.
    + cbn [app forallb]. exact IH.
    + cbn [app forallb]. unfold is_unicode_prime at 1.
      rewrite E1, E2. exact IH.
Qed.

(** X5: The text [_fix] returns holds neither U+2032 nor U+2019: every
    Unicode prime of an equation string has become an apostrophe or a
    part of [rm F prime]. *)
Theorem fix_leaves_no_unicode_prime (s : str) :
  existsb is_unicode_prime (_fix s) = false.
Proof.
  pose proof (fix_prime_free s) as H. unfold prime_free in H.
  induction (_fix s) as [|c r IH]; [reflexivity|].
  simpl in *. apply andb_true_iff in H as [Hc H].
  apply negb_true_iff in Hc. rewrite Hc. now apply IH.
Qed.

End Primes.

(** ** Unterminated equation strings *)

Section Unterminated.
Import PyStr Re ScriptRunner Notions.

Lemma startswith_last_in (p : str) (x : char) (s : str) :
  startswith (p ++ [x]) s = true -> existsb (N.eqb x) s = true.
Proof.
  revert s. induction p as [|a p IH]; intros [|c s]; simpl; try discriminate.
  - intros H. apply andb_true_iff in H as [H _]. now rewrite H.
  - intros H. apply andb_true_iff in H as [_ H].
    rewrite (IH _ H). apply orb_true_r.
Qed.

Lemma startswith_app_last (p : str) (x : char) (l s : str) :
  existsb (N.eqb x) s = false ->
  startswith (p ++ [x]) (l ++ s) = true ->
  startswith (p ++ [x]) l = true.
Proof.
  intros Hs. revert l. induction p as [|a p IH]; intros [|c l] H.
  - apply (startswith_last_in []) in H. simpl in H. congruence.
  - simpl in *. apply andb_true_iff in H as [H _]. now rewrite H.
  - apply (startswith_last_in (a :: p)) in H. simpl in H. congruence.
  - simpl in *. apply andb_true_iff in H as [H1 H2].
    rewrite H1. now apply IH.
Qed.

(** An occurrence of a pattern in [l ++ s] lies in [l] when the last
    character of the pattern is not in [s]. *)
Lemma contains_app_last (p : str) (x : char) (l s : str) :
  existsb (N.eqb x) s = false ->
  contains (p ++ [x]) (l ++ s) = true ->
  contains (p ++ [x]) l = true.
Proof.
  intros Hs. induction l as [|c l IH]; intros H.
  - exfalso. simpl app in H. clear - Hs H.
    induction s as [|d s IHs].
    + simpl in H. rewrite orb_false_r in H.
      destruct p; discriminate.
    + simpl existsb in Hs. apply orb_false_iff in Hs as [Hd Hs].
      cbn [contains] in H. apply orb_true_iff in H as [H|H].
      * apply startswith_last_in in H. simpl in H.
        rewrite Hd, Hs in H. discriminate.
      * now apply IHs.
  - simpl app in H. cbn [contains] in *.
    apply orb_true_iff in H as [H|H]; apply orb_true_iff.
    + left. now apply (startswith_app_last p x (c :: l) s).
    + right. now apply IH.
Qed.

Lemma count_char_app (c : char) (a b : str) :
  count_char c (a ++ b) = count_char c a + count_char c b.
Proof. unfold count_char. now rewrite filter_app, length_app. Qed.

Lemma fix_unterminated_no_newline (l : str) :
  no_newline l = true -> no_newline (fix_unterminated_line l) = true.
Proof.
  intros H. unfold fix_unterminated_line.
  unfold no_newline in *.
  destruct (_ && _); [|destruct (_ && _)]; auto;
    rewrite forallb_app; apply andb_true_iff; split; auto.
Qed.

Lemma fix_unterminated_even (l0 : str) :
  contains (lit "insert_equation('") (fix_unterminated_line l0) = true ->
  Nat.even (count_char c_squote (fix_unterminated_line l0)) = true.
Proof.
  unfold fix_unterminated_line.
  destruct (contains (lit "insert_equation('") l0) eqn:Ec.
  - destruct (Nat.odd (count_char c_squote l0)) eqn:Eo; cbn [andb].
    + intros _. rewrite count_char_app.
      change (count_char c_squote (closing c_squote)) with 1.
      rewrite Nat.add_1_r, Nat.even_succ. exact Eo.
    + rewrite <- Nat.negb_odd.
      destruct (_ && _); intros _.
      * rewrite count_char_app.
        change (count_char c_squote (closing c_dquote)) with 0.
        now rewrite Nat.add_0_r, Eo.
      * now rewrite Eo.
  - cbn [andb]. destruct (_ && _).
    + intros H.
      apply (contains_app_last (lit "insert_equation(") c_squote) in H;
        [|reflexivity].
      change (lit "insert_equation(" ++ [c_squote])
        with (lit "insert_equation('") in H. congruence.
    + congruence.
Qed.

(** X6: After [_sanitize_unterminated_equation_strings], a line that holds
    [insert_equation('] holds an even number of apostrophes. *)
Theorem unterminated_equation_apostrophes_even (script line : str) :
  In line (split_nl (_sanitize_unterminated_equation_strings script)) ->
  contains (lit "insert_equation('") line = true ->
  Nat.even (count_char c_squote line) = true.
Proof.
  unfold _sanitize_unterminated_equation_strings.
  rewrite split_join_nl.
  - intros Hin. apply in_map_iff in Hin as (l0 & <- & _).
    apply fix_unterminated_even.
  - pose proof (split_nl_nonempty script).
    destruct (split_nl script); [congruence|discriminate].
  - pose proof (split_nl_no_newline script) as H.
    induction (split_nl script) as [|l ls IH]; [reflexivity|].
    simpl in *. apply andb_true_iff in H as [Hl H].
    now rewrite fix_unterminated_no_newline, IH.
Qed.

Lemma unterminated_equation_apostrophes_even_witness :
  Nat.even (count_char c_squote (lit "insert_equation('x')")) = true.
Proof.
  apply (unterminated_equation_apostrophes_even (lit "insert_equation('x")).
  - left. reflexivity.
  - reflexivity.
Defined.

End Unterminated.

(** ** Calls that need no repair *)

Section Balanced.
Import PyStr Re ScriptRunner Spec Notions.

Lemma repair_scan_balanced (lines : list str) :
  forallb (fun l => negb (is_some (opens l))) lines = true ->
  repair_scan lines
  = {| repaired := lines; buffer := []; quote_char := None |}.
Proof.
  induction lines as [|l lines IH] using rev_ind; intros H; [reflexivity|].
  rewrite forallb_app in H. apply andb_true_iff in H as [H Hl].
  simpl in Hl. rewrite andb_true_r in Hl. apply negb_true_iff in Hl.
  unfold repair_scan in *. rewrite fold_left_app. cbn [fold_left].
  rewrite (IH H). unfold repair_step. cbn [quote_char repaired buffer].
  unfold opens in Hl.
  destruct (is_insert_call l); [|reflexivity].
  destruct (Nat.odd (_count_unescaped l c_squote)); [discriminate|].
  destruct (Nat.odd (_count_unescaped l c_dquote)); [discriminate|].
  reflexivity.
Qed.

(** X7: When no line opens a quote, that is when every line that holds an
    [insert_text(], [insert_equation(] or [insert_latex_equation(] holds
    an even number of unescaped apostrophes and of unescaped double
    quotes, [_repair_multiline_calls] returns the lines as they are. *)
Theorem repair_balanced_lines_unchanged (lines : list str) :
  forallb (fun l => negb (is_some (opens l))) lines = true ->
  _repair_multiline_calls lines = lines.
Proof.
  intros H. unfold _repair_multiline_calls.
  now rewrite (repair_scan_balanced lines H).
Qed.

Lemma repair_balanced_lines_unchanged_witness :
  _repair_multiline_calls
    [lit "insert_text('a')"; lit "x = 'b"; lit "insert_paragraph()"]
  = [lit "insert_text('a')"; lit "x = 'b"; lit "insert_paragraph()"].
Proof.
  apply (repair_balanced_lines_unchanged
           [lit "insert_text('a')"; lit "x = 'b"; lit "insert_paragraph()"]).
  reflexivity.
Defined.

End Balanced.

(** ** Stripping *)

Section Stripping.
Import PyStr Re ScriptRunner Spec Notions.

Lemma lstrip_idem (s : str) : lstrip (lstrip s) = lstrip s.
Proof.
  induction s as [|c s IH]; [reflexivity|]. simpl.
  destruct (isspace c) eqn:E; [exact IH|]. simpl. now rewrite E.
Qed.

Lemma rstrip_idem (s : str) : rstrip (rstrip s) = rstrip s.
Proof. unfold rstrip. now rewrite rev_involutive, lstrip_idem. Qed.

Lemma lstrip_nonspace_head (c : char) (s : str) :
  isspace c = false -> lstrip (c :: s) = c :: s.
Proof. intros H. simpl. now rewrite H. Qed.

Lemma lstrip_rstrip_lstrip (s : str) :
  lstrip (rstrip (lstrip s)) = rstrip (lstrip s).
Proof.
  destruct (lstrip s) as [|c r] eqn:E; [reflexivity|].
  pose proof (lstrip_head s c r E) as Hc.
  destruct (rstrip_prefix (c :: r)) as [w Hw].
  destruct (rstrip (c :: r)) as [|d t] eqn:Er; [reflexivity|].
  simpl in Hw. injection Hw as <- _. now apply lstrip_nonspace_head.
Qed.

(** [strip] applied twice is [strip]. *)
Lemma strip_idem (s : str) : strip (strip s) = strip s.
Proof.
  unfold strip. rewrite lstrip_rstrip_lstrip. apply rstrip_idem.
Qed.

End Stripping.

(** ** Concatenated calls *)

Section Concat.
Import PyStr Re ScriptRunner Spec Notions.

Lemma flush_part_trimmed (parts : list str) (buf : str) :
  forallb is_trimmed parts = true ->
  forallb is_trimmed (flush_part parts buf) = true.
Proof.
  intros H. unfold flush_part.
  destruct (strip buf) as [|c r] eqn:E; [exact H|].
  rewrite forallb_app, H. cbn [forallb andb]. rewrite andb_true_r.
  unfold is_trimmed, is_blank. rewrite <- E, strip_idem, E.
  cbn [negb andb]. apply str_eqb_refl.
Qed.

Lemma split_concat_loop_trimmed (s : str) (st : concat_state) (skip : nat) :
  forallb is_trimmed (cc_parts st) = true ->
  forallb is_trimmed (cc_parts (split_concat_loop st skip s)) = true.
Proof.
  revert st skip. induction s as [|c s IH]; intros st skip H; [exact H|].
  cbn [split_concat_loop]. destruct skip as [|k]; [|now apply IH].
  destruct (cc_escaped st); [now apply IH|].
  destruct (N.eqb c c_backslash); [now apply IH|].
  destruct (isquote c); [now apply IH|].
  destruct (_ && _); apply IH; cbn [cc_parts]; [|exact H].
  now apply flush_part_trimmed.
Qed.

(** X8: [_split_concat_calls] returns at least one part; it returns the line
    as it is, or parts that are not empty and have no whitespace around
    them. *)
Theorem split_concat_calls_parts (line : str) :
  (exists p ps, _split_concat_calls line = p :: ps)
  /\ (_split_concat_calls line = [line]
      \/ forallb is_trimmed (_split_concat_calls line) = true).
Proof.
  unfold _split_concat_calls.
  destruct (negb (contains plus_sep line)); [split; eauto|].
  set (st := split_concat_loop _ 0 line).
  assert (H : forallb is_trimmed (flush_part (cc_parts st) (cc_buf st)) = true).
  { apply flush_part_trimmed. now apply split_concat_loop_trimmed. }
  destruct (flush_part (cc_parts st) (cc_buf st)) as [|p ps];
    split; eauto.
Qed.

End Concat.

(** ** The score-line formatter and the content of a script *)

Section ScoreContent.
Import PyStr Re ScriptRunner Spec Notions.

Lemma score_scan_no_score (lines : list str) :
  forallb no_score lines = true ->
  sc_out (fold_left score_step lines score_init) = lines
  /\ need_extra_blank_line (fold_left score_step lines score_init) = false.
Proof.
  induction lines as [|l lines IH] using rev_ind; intros H; [now split|].
  rewrite forallb_app in H. apply andb_true_iff in H as [H Hl].
  simpl in Hl. rewrite andb_true_r in Hl.
  assert (Hs : score_re l = None).
  { unfold no_score in Hl. now destruct (score_re l). }
  destruct (IH H) as [Ho Hn].
  rewrite fold_left_app. cbn [fold_left].
  set (st := fold_left score_step lines score_init) in *.
  unfold score_step. cbv zeta. rewrite Hs, Hn.
  destruct (str_eqb (strip l) insert_paragraph_line);
    [cbn [sc_out need_extra_blank_line]; now rewrite Ho|].
  destruct (str_eqb (strip l) insert_small_paragraph_line);
    [cbn [sc_out need_extra_blank_line]; now rewrite Ho|].
  cbn [andb sc_out need_extra_blank_line]. now rewrite Ho, Hn.
Qed.

(** X9: A line list without a score line is returned as it is by
    [_ensure_score_right_align]. *)
Theorem score_pass_without_score_lines (lines : list str) :
  forallb no_score lines = true -> _ensure_score_right_align lines = lines.
Proof. intros H. apply (score_scan_no_score lines H). Qed.

Lemma score_pass_without_score_lines_witness :
  _ensure_score_right_align
    [lit "insert_text('1. ')"; lit "insert_paragraph()";
     lit "insert_paragraph()"; lit "insert_text('[3]')"]
  = [lit "insert_text('1. ')"; lit "insert_paragraph()";
     lit "insert_paragraph()"; lit "insert_text('[3]')"].
Proof.
  apply (score_pass_without_score_lines
           [lit "insert_text('1. ')"; lit "insert_paragraph()";
            lit "insert_paragraph()"; lit "insert_text('[3]')"]).
  reflexivity.
Defined.

Lemma content_lines_app (a b : list str) :
  content_lines (a ++ b) = content_lines a ++ content_lines b.
Proof. apply filter_app. Qed.

Lemma content_lines_layout (a : list str) (l : str) :
  is_layout_line l = true -> content_lines (a ++ [l]) = content_lines a.
Proof.
  intros H. rewrite content_lines_app. unfold content_lines at 2.
  simpl. rewrite H. simpl. apply app_nil_r.
Qed.

Lemma content_lines_content (a : list str) (l : str) :
  is_layout_line l = false -> content_lines (a ++ [l]) = content_lines a ++ [l].
Proof.
  intros H. rewrite content_lines_app. unfold content_lines at 2.
  simpl. now rewrite H.
Qed.

Lemma break_is_layout (l : str) : is_break l = true -> is_layout_line l = true.
Proof. unfold is_layout_line. now intros ->. Qed.

Lemma paragraph_line_layout : is_layout_line insert_paragraph_line = true.
Proof. reflexivity. Qed.

Lemma align_right_line_layout : is_layout_line align_right_line = true.
Proof. reflexivity. Qed.

(** The breaks trimmed before a score line are layout lines. *)
Lemma trim_breaks_content_lines (r : list str) :
  content_lines (rev (trim_breaks r)) = content_lines (rev r).
Proof.
  induction r as [|last rest IH]; [reflexivity|].
  cbn [trim_breaks].
  destruct (is_paragraph last) eqn:Ep.
  - destruct rest as [|prev rest']; [reflexivity|].
    destruct (is_paragraph prev); [|reflexivity].
    rewrite IH. cbn [rev]. symmetry. apply content_lines_layout.
    apply break_is_layout. unfold is_break. now rewrite Ep.
  - destruct (is_small_paragraph last) eqn:Es; [|reflexivity].
    rewrite IH. cbn [rev]. symmetry. apply content_lines_layout.
    apply break_is_layout. unfold is_break. now rewrite Es, orb_true_r.
Qed.

Lemma strip_score_text_line (n : str) :
  strip (score_text_line n) = score_text_line n.
Proof.
  unfold strip. change (lstrip (score_text_line n)) with (score_text_line n).
  unfold rstrip, score_text_line.
  rewrite !rev_app_distr. simpl. rewrite !rev_app_distr, rev_involutive.
  simpl. now rewrite <- !app_assoc.
Qed.

Lemma score_text_line_content (n : str) :
  is_layout_line (score_text_line n) = false.
Proof.
  unfold is_layout_line, is_break, is_paragraph, is_small_paragraph.
  rewrite strip_score_text_line. reflexivity.
Qed.

Lemma score_emit_content_lines (out : list str) (n : str) :
  content_lines (score_emit out n) = content_lines out ++ [score_text_line n].
Proof.
  unfold score_emit.
  set (o1 := rev (trim_breaks (rev out))).
  assert (H1 : content_lines o1 = content_lines out).
  { unfold o1. rewrite trim_breaks_content_lines. now rewrite rev_involutive. }
  set (o2 := match rev o1 with
             | last :: _ =>
                 if negb (is_paragraph last) then o1 ++ [insert_paragraph_line]
                 else o1
             | [] => o1
             end).
  assert (H2 : content_lines o2 = content_lines out).
  { unfold o2. destruct (rev o1) as [|last r]; [exact H1|].
    destruct (negb (is_paragraph last)); [|exact H1].
    rewrite content_lines_layout; [exact H1|reflexivity]. }
  set (o3 := if negb _ then o2 ++ [align_right_line] else o2).
  assert (H3 : content_lines o3 = content_lines out).
  { unfold o3. destruct (negb _); [|exact H2].
    rewrite content_lines_layout; [exact H2|reflexivity]. }
  change [score_text_line n; insert_paragraph_line]
    with ([score_text_line n] ++ [insert_paragraph_line]).
  rewrite app_assoc, content_lines_layout by reflexivity.
  rewrite content_lines_content by apply score_text_line_content.
  now rewrite H3.
Qed.

Lemma align_right_no_score (l : str) :
  str_eqb (strip l) align_right_line = true -> score_re l = None.
Proof.
  intros H. apply str_eqb_eq in H.
  destruct (lstrip_strip l) as [w Hw].
  unfold score_re, m_ws. rewrite Hw, H. reflexivity.
Qed.

Lemma score_step_content_lines (st : score_state) (l : str) :
  content_lines (sc_out (score_step st l))
  = content_lines (sc_out st)
    ++ (if is_layout_line l then [] else [score_canonical l]).
Proof.
  unfold score_step. cbv zeta.
  destruct (str_eqb (strip l) insert_paragraph_line) eqn:Ep.
  { cbn [sc_out]. assert (H : is_layout_line l = true).
    { apply break_is_layout. unfold is_break, is_paragraph. now rewrite Ep. }
    rewrite H, app_nil_r. now apply content_lines_layout. }
  destruct (str_eqb (strip l) insert_small_paragraph_line) eqn:Es.
  { cbn [sc_out]. assert (H : is_layout_line l = true).
    { apply break_is_layout. unfold is_break, is_small_paragraph.
      now rewrite Es, orb_true_r. }
    rewrite H, app_nil_r. now apply content_lines_layout. }
  set (st1 := if _ && _ then _ else st).
  assert (H1 : content_lines (sc_out st1) = content_lines (sc_out st)).
  { unfold st1. destruct (_ && _); [|reflexivity].
    cbn [sc_out]. now apply content_lines_layout. }
  assert (Hl : is_layout_line l = str_eqb (strip l) align_right_line).
  { unfold is_layout_line, is_break, is_paragraph, is_small_paragraph.
    now rewrite Ep, Es. }
  unfold score_canonical.
  destruct (score_re l) as [n|] eqn:En; cbn [sc_out].
  - rewrite score_emit_content_lines, H1, Hl.
    destruct (str_eqb (strip l) align_right_line) eqn:Ea; [|reflexivity].
    apply align_right_no_score in Ea. congruence.
  - rewrite Hl. destruct (str_eqb (strip l) align_right_line) eqn:Ea.
    + rewrite app_nil_r, <- H1. apply content_lines_layout.
      unfold is_layout_line. now rewrite Ea, orb_true_r.
    + rewrite <- H1. apply content_lines_content.
      unfold is_layout_line, is_break, is_paragraph, is_small_paragraph.
      now rewrite Ep, Es, Ea.
Qed.

(** X10: [_ensure_score_right_align] adds and removes layout lines only
    (paragraph breaks and right-alignment instructions): the other lines
    of its output are the other lines of its input, in their order, each
    score line written as its canonical text. *)
Theorem score_pass_keeps_content (lines : list str) :
  content_lines (_ensure_score_right_align lines)
  = List.map score_canonical (content_lines lines).
Proof.
  unfold _ensure_score_right_align.
  induction lines as [|l lines IH] using rev_ind; [reflexivity|].
  rewrite fold_left_app. cbn [fold_left].
  rewrite score_step_content_lines, IH, content_lines_app, map_app.
  f_equal. unfold content_lines. simpl.
  now destruct (is_layout_line l).
Qed.

End ScoreContent.

(** ** Tab texts after the tab sanitizer *)

Section TabsAfter.
Import PyStr Re ScriptRunner Spec Notions.

(** X11: In the output of [_sanitize_tabs], the next line that is not blank
    after a tab text begins with [insert_equation(]. *)
Theorem sanitize_tabs_tab_before_equation (lines pre : list str) (line : str)
    (post : list str) :
  _sanitize_tabs lines = pre ++ line :: post ->
  is_tab_text line = true ->
  next_is_equation post = true.
Proof.
  revert pre. induction lines as [|l lines IH]; intros pre H Ht.
  - destruct pre; discriminate.
  - rewrite sanitize_tabs_cons in H. destruct pre as [|p pre].
    + simpl in H. injection H as <- <-.
      destruct (sanitized_line_view l lines) as (_ & _ & Hv).
      rewrite Hv in Ht. apply andb_true_iff in Ht as [_ Ht].
      now rewrite next_is_equation_sanitized.
    + simpl in H. injection H as _ H. now apply (IH pre).
Qed.

Lemma sanitize_tabs_tab_before_equation_witness :
  next_is_equation [lit "insert_equation('x')"] = true.
Proof.
  apply (sanitize_tabs_tab_before_equation
           [lit "insert_text('\t')"; lit "insert_text('\t')";
            lit "insert_equation('x')"]
           [lit "insert_text(' ')"] (lit "insert_text('\t')")
           [lit "insert_equation('x')"]);
    reflexivity.
Defined.

End TabsAfter.

(** ** The placeholder pass without a template *)

Section NoTemplate.
Import PyStr Re ScriptRunner Spec Notions.

Lemma ph_other_line_untemplated (st : ph_state) (line : str) :
  saw_template st = false ->
  ph_other_line st line (strip line) = push st [copied line].
Proof.
  intros H. unfold ph_other_line. now rewrite (synth_none (strip line) st H).
Qed.

Lemma ph_step_untemplated (st : ph_state) (l : str) :
  untemplated st -> no_template l = true ->
  untemplated (ph_step st l)
  /\ exists added,
       List.map snd (ph_out (ph_step st l)) = List.map snd (ph_out st) ++ added
       /\ forallb outer_marker_free added = true
       /\ (outer_marker_free l = true -> added = [l]).
Proof.
  intros (Ht & Hc & Hi) Hl. unfold no_template in Hl.
  apply negb_true_iff in Hl. unfold ph_step. rewrite Hl.
  destruct (fp_re (strip l)) as [m|] eqn:Em.
  - unfold ph_marker_line.
    destruct (str_eqb m (lit "###")) eqn:E1.
    { apply str_eqb_eq in E1. subst m. rewrite Hi. cbn [negb].
      split; [repeat split; assumption|].
      exists [l]. cbn [push set_out ph_out mark_seen_inside].
      rewrite map_app. repeat split.
      cbn [forallb]. unfold outer_marker_free. now rewrite Em. }
    destruct (str_eqb m (lit "@@@")) eqn:E2.
    { cbn [mark_outside seen_inside saw_template]. rewrite Ht.
      destruct (seen_inside st).
      - split; [repeat split; assumption|].
        exists [exit_box_line; insert_paragraph_line].
        cbn [push set_out ph_out]. rewrite map_app. repeat split.
        unfold outer_marker_free. rewrite Em, E2. discriminate.
      - split; [repeat split; assumption|].
        exists []. rewrite app_nil_r. repeat split.
        unfold outer_marker_free. rewrite Em, E2. discriminate. }
    destruct (str_eqb m (lit "&&&")) eqn:E3.
    { rewrite Hc. split; [repeat split; assumption|].
      exists []. rewrite app_nil_r. repeat split.
      unfold outer_marker_free. rewrite Em, E2, E3. discriminate. }
    split; [repeat split; assumption|].
    exists [l]. cbn [push set_out ph_out]. rewrite map_app. repeat split.
    cbn [forallb]. unfold outer_marker_free. now rewrite Em, E2, E3.
  - rewrite (ph_other_line_untemplated st l Ht).
    split; [repeat split; assumption|].
    exists [l]. cbn [push set_out ph_out]. rewrite map_app. repeat split.
    cbn [forallb]. unfold outer_marker_free. now rewrite Em.
Qed.

Lemma ph_scan_untemplated (lines : list str) :
  forallb no_template lines = true ->
  untemplated (ph_scan lines)
  /\ forallb outer_marker_free (_normalize_placeholders lines) = true
  /\ (forallb outer_marker_free lines = true ->
      _normalize_placeholders lines = lines).
Proof.
  unfold _normalize_placeholders.
  induction lines as [|l lines IH] using rev_ind; intros H.
  - repeat split.
  - rewrite forallb_app in H. apply andb_true_iff in H as [H Hl].
    simpl in Hl. rewrite andb_true_r in Hl.
    destruct (IH H) as (Hu & Hf & Hid).
    rewrite ph_scan_app. cbn [fold_left].
    destruct (ph_step_untemplated (ph_scan lines) l Hu Hl)
      as (Hu' & added & Ho & Ha & Hone).
    split; [exact Hu'|]. unfold ph_scan in *. rewrite Ho. split.
    + rewrite forallb_app. now rewrite Hf, Ha.
    + rewrite forallb_app. intros Hall.
      apply andb_true_iff in Hall as [Hall Hl'].
      simpl in Hl'. rewrite andb_true_r in Hl'.
      now rewrite (Hid Hall), (Hone Hl').
Qed.

(** X12: Without a template line in the script, no [focus_placeholder] call
    for the outside marker or the after-box marker is left in the output
    of [_normalize_placeholders]. *)
Theorem placeholders_without_template_markers (lines : list str) :
  forallb no_template lines = true ->
  forallb outer_marker_free (_normalize_placeholders lines) = true.
Proof. intros H. apply (ph_scan_untemplated lines H). Qed.

Lemma placeholders_without_template_markers_witness :
  forallb outer_marker_free
    (_normalize_placeholders
       [lit "focus_placeholder('###')"; lit "insert_text('a')";
        lit "focus_placeholder('@@@')"; lit "focus_placeholder('&&&')"])
  = true.
Proof.
  apply (placeholders_without_template_markers
           [lit "focus_placeholder('###')"; lit "insert_text('a')";
            lit "focus_placeholder('@@@')"; lit "focus_placeholder('&&&')"]).
  reflexivity.
Defined.

(** X13: A script with no template line and no [focus_placeholder] call for
    the outside or the after-box marker is returned as it is by
    [_normalize_placeholders]. *)
Theorem placeholders_without_templates_unchanged (lines : list str) :
  forallb no_template lines = true ->
  forallb outer_marker_free lines = true ->
  _normalize_placeholders lines = lines.
Proof. intros H. apply (ph_scan_untemplated lines H). Qed.

Lemma placeholders_without_templates_unchanged_witness :
  _normalize_placeholders
    [lit "insert_text('a')"; lit "focus_placeholder('###')";
     lit "insert_text('(b)')"]
  = [lit "insert_text('a')"; lit "focus_placeholder('###')";
     lit "insert_text('(b)')"].
Proof.
  apply (placeholders_without_templates_unchanged
           [lit "insert_text('a')"; lit "focus_placeholder('###')";
            lit "insert_text('(b)')"]);
    reflexivity.
Defined.

End NoTemplate.

(** ** Blank scripts *)

Section BlankScripts.
Import PyStr Re ScriptRunner Spec Notions.

Lemma lstrip_all_space (s : str) : forallb isspace s = true -> lstrip s = [].
Proof.
  induction s as [|c s IH]; [reflexivity|]. simpl.
  intros H. apply andb_true_iff in H as [Hc H]. rewrite Hc. now apply IH.
Qed.

Lemma strip_all_space (s : str) : forallb isspace s = true -> strip s = [].
Proof. intros H. unfold strip. now rewrite lstrip_all_space. Qed.

Lemma split_from_all (p : char -> bool) (cur s : str) :
  forallb p cur = true -> forallb p s = true ->
  forallb (forallb p) (split_from cur s) = true.
Proof.
  revert cur. induction s as [|c s IH]; intros cur Hc Hs; simpl.
  - now rewrite forallb_rev', Hc.
  - simpl in Hs. apply andb_true_iff in Hs as [Hp Hs].
    destruct (N.eqb c c_nl).
    + simpl. rewrite forallb_rev', Hc. now apply IH.
    + apply IH; [simpl; now rewrite Hp|exact Hs].
Qed.

Lemma join_nl_all_space (ls : list str) :
  forallb (forallb isspace) ls = true -> forallb isspace (join_nl ls) = true.
Proof.
  unfold join_nl. induction ls as [|l ls IH]; [reflexivity|].
  intros H. simpl in H. apply andb_true_iff in H as [Hl H].
  destruct ls as [|l2 ls]; [exact Hl|].
  rewrite join_cons by discriminate.
  rewrite !forallb_app, Hl, (IH H). reflexivity.
Qed.

Lemma forallb_skipn {A} (p : A -> bool) (n : nat) (l : list A) :
  forallb p l = true -> forallb p (skipn n l) = true.
Proof.
  revert l. induction n as [|n IH]; intros [|a l] H; auto.
  simpl in *. apply andb_true_iff in H as [_ H]. now apply IH.
Qed.

Lemma forallb_map_all {A} (p : A -> bool) (f : A -> A) (l : list A) :
  (forall a, p a = true -> p (f a) = true) ->
  forallb p l = true -> forallb p (List.map f l) = true.
Proof.
  intros Hf. induction l as [|a l IH]; [reflexivity|]. simpl.
  intros H. apply andb_true_iff in H as [Ha H].
  now rewrite (Hf a Ha), IH.
Qed.

Lemma dedent_all_space (s : str) :
  forallb isspace s = true -> forallb isspace (dedent s) = true.
Proof.
  intros H. unfold dedent.
  set (lines := List.map (fun l => if forallb is_sp_tab l then [] else l)
                  (split_nl s)).
  assert (Hl : forallb (forallb isspace) lines = true).
  { unfold lines. apply forallb_map_all.
    - intros a Ha. now destruct (forallb is_sp_tab a).
    - now apply split_from_all. }
  destruct (dedent_margin lines) as [[|c m]|];
    try (now apply join_nl_all_space).
  apply join_nl_all_space. apply forallb_map_all; [|exact Hl].
  intros a Ha. destruct (startswith (c :: m) a); [|exact Ha].
  now apply forallb_skipn.
Qed.

(** X14: A script of whitespace only is empty for [run]: there is no text to
    hand to the interpreter, and nothing is run. *)
Theorem normalize_blank_script (script : str) :
  forallb isspace script = true -> normalize script = None.
Proof.
  intros H. unfold normalize.
  rewrite (strip_all_space (dedent script) (dedent_all_space script H)).
  reflexivity.
Qed.

Lemma normalize_blank_script_witness :
  normalize (lit "  " ++ [c_nl; c_tab; c_cr; c_nl; c_ls] ++ lit " ") = None.
Proof.
  apply (normalize_blank_script
           (lit "  " ++ [c_nl; c_tab; c_cr; c_nl; c_ls] ++ lit " ")).
  reflexivity.
Defined.

End BlankScripts.

(** ** Code fences *)

Section Fences.
Import PyStr Re ScriptRunner Spec Notions.

Lemma split_from_app_nl (cur x y : str) :
  split_from cur (x ++ c_nl :: y) = split_from cur x ++ split_nl y.
Proof.
  revert cur. induction x as [|c x IH]; intros cur.
  - simpl. reflexivity.
  - simpl. destruct (N.eqb c c_nl); [|apply IH].
    simpl. f_equal. apply IH.
Qed.



End Fences.

(** ** The fallback tokenizer: names and arguments *)

Section FallbackNames.
Import PyStr Re HwpController Fallback FallbackSpec Notions.

Lemma prefix_before_unique (c : char) (a b t : str) :
  existsb (N.eqb c) a = false -> existsb (N.eqb c) b = false ->
  startswith (a ++ [c]) t = true -> startswith (b ++ [c]) t = true ->
  a = b.
Proof.
  revert b t. induction a as [|x a IH]; intros [|y b] [|z t] Ha Hb H1 H2;
    simpl in *; try discriminate; auto.
  - apply andb_true_iff in H1 as [H1 _]. apply andb_true_iff in H2 as [H2 _].
    apply N.eqb_eq in H1, H2. subst. rewrite N.eqb_refl in Hb. discriminate.
  - apply andb_true_iff in H1 as [H1 _]. apply andb_true_iff in H2 as [H2 _].
    apply N.eqb_eq in H1, H2. subst. rewrite N.eqb_refl in Ha. discriminate.
  - apply andb_true_iff in H1 as [H1 H1'].
    apply andb_true_iff in H2 as [H2 H2'].
    apply N.eqb_eq in H1, H2. subst.
    apply orb_false_iff in Ha as [_ Ha]. apply orb_false_iff in Hb as [_ Hb].
    f_equal. now apply (IH b t).
Qed.

Lemma match_name_first (ns : list str) (name text : str) :
  forallb (fun n => negb (existsb (N.eqb c_lparen) n)) ns = true ->
  In name ns ->
  startswith (name ++ [c_lparen]) text = true ->
  match_name ns text
  = Some (name, skipn (List.length name + 1) text).
Proof.
  intros Hns Hin Hs. induction ns as [|n ns IH]; [contradiction|].
  simpl in Hns. apply andb_true_iff in Hns as [Hn Hns].
  apply negb_true_iff in Hn.
  cbn [match_name]. unfold m_lit.
  destruct (startswith (n ++ [c_lparen]) text) eqn:E.
  - assert (n = name).
    { apply (prefix_before_unique c_lparen n name text); auto.
      destruct Hin as [<-|Hin]; [exact Hn|].
      rewrite forallb_forall in Hns. apply Hns in Hin.
      now apply negb_true_iff in Hin. }
    subst n. rewrite length_app. reflexivity.
  - destruct Hin as [->|Hin]; [congruence|]. now apply IH.
Qed.

(** X16: At any place of the text at most one instruction name is followed by
    an opening parenthesis, so the order in which [names] is tried, longest
    first, does not matter: a name that matches is the one found. *)
Theorem match_name_unambiguous (name text : str) :
  In name names ->
  startswith (name ++ [c_lparen]) text = true ->
  match_name names text = Some (name, skipn (List.length name + 1) text).
Proof. apply match_name_first. reflexivity. Qed.

Lemma match_name_unambiguous_witness :
  match_name names (lit "insert_text('a')")
  = Some (lit "insert_text", lit "'a')").
Proof.
  apply (match_name_unambiguous (lit "insert_text") (lit "insert_text('a')")).
  - vm_compute. tauto.
  - reflexivity.
Defined.

Lemma until_char_stop (q : char) (s rest : str) :
  existsb (N.eqb q) s = false -> until_char q (s ++ q :: rest) = s.
Proof.
  induction s as [|c s IH]; simpl; intros H.
  - now rewrite N.eqb_refl.
  - apply orb_false_iff in H as [Hc H]. rewrite N.eqb_sym in Hc.
    rewrite Hc. now rewrite IH.
Qed.

Lemma until_char_all (q : char) (s : str) :
  existsb (N.eqb q) s = false -> until_char q s = s.
Proof.
  induction s as [|c s IH]; simpl; intros H; [reflexivity|].
  apply orb_false_iff in H as [Hc H]. rewrite N.eqb_sym in Hc.
  rewrite Hc. now rewrite IH.
Qed.

(** X17: The string argument of a one-string instruction is the text between
    the opening quote and the next occurrence of that quote, whether a
    backslash precedes it or not; without a closing quote it is all the
    text after the opening quote. *)
Theorem unwrap_string_first_quote (q : char) (s rest : str) :
  isquote q = true ->
  existsb (N.eqb q) s = false ->
  unwrap_string (q :: s ++ q :: rest) = s /\ unwrap_string (q :: s) = s.
Proof.
  intros Hq Hs. unfold unwrap_string. rewrite Hq.
  split; [now apply until_char_stop|now apply until_char_all].
Qed.

Lemma unwrap_string_first_quote_witness :
  unwrap_string (c_squote :: (lit "a" ++ [c_backslash]) ++ c_squote :: lit " b'")
  = lit "a" ++ [c_backslash]
  /\ unwrap_string (c_squote :: lit "a" ++ [c_backslash])
     = lit "a" ++ [c_backslash].
Proof.
  apply (unwrap_string_first_quote c_squote (lit "a" ++ [c_backslash])
           (lit " b'"));
    reflexivity.
Defined.

End FallbackNames.

(** ** The fallback tokenizer: whole scripts *)

Section FallbackScripts.
Import PyStr Re HwpController Fallback FallbackSpec Notions.

Lemma match_name_none (ns : list str) (text : str) :
  forallb (fun n => negb (startswith (n ++ [c_lparen]) text)) ns = true ->
  match_name ns text = None.
Proof.
  induction ns as [|n ns IH]; [reflexivity|]. simpl.
  intros H. apply andb_true_iff in H as [Hn H].
  apply negb_true_iff in Hn. unfold m_lit. rewrite Hn. now apply IH.
Qed.

Lemma no_name_cons (ns : list str) (c : char) (text : str) :
  forallb (fun n => negb (contains (n ++ [c_lparen]) (c :: text))) ns = true ->
  forallb (fun n => negb (startswith (n ++ [c_lparen]) (c :: text))) ns = true
  /\ forallb (fun n => negb (contains (n ++ [c_lparen]) text)) ns = true.
Proof.
  induction ns as [|n ns IH]; [now split|].
  cbn [forallb]. intros H. apply andb_true_iff in H as [Hn H].
  apply negb_true_iff in Hn. apply contains_cons_false in Hn as [H1 H2].
  destruct (IH H) as [I1 I2]. rewrite H1, H2, I1, I2. now split.
Qed.

Lemma scan_args_in_string (q : char) (s rest : str) (depth : nat) (acc : str) :
  existsb (N.eqb q) s = false ->
  existsb (N.eqb c_backslash) s = false ->
  N.eqb q c_backslash = false ->
  scan_args depth (Some q) false acc (s ++ q :: rest)
  = scan_args depth None false (acc ++ s ++ [q]) rest.
Proof.
  intros Hq Hb Hqb. revert acc. induction s as [|c s IH]; intros acc.
  - simpl. now rewrite Hqb, N.eqb_refl.
  - cbn [existsb] in Hq, Hb. apply orb_false_iff in Hq as [Hq1 Hq].
    apply orb_false_iff in Hb as [Hb1 Hb].
    rewrite N.eqb_sym in Hq1. rewrite N.eqb_sym in Hb1.
    cbn [app scan_args]. rewrite Hb1, Hq1, (IH Hq Hb).
    now rewrite <- app_assoc.
Qed.

Lemma skipn_length_app {A} (p r : list A) :
  skipn (List.length p) (p ++ r) = r.
Proof. induction p as [|a p IH]; [reflexivity|exact IH]. Qed.

Lemma isquote_not_space (q : char) : isquote q = true -> isspace q = false.
Proof. intros H. destruct (isquote_cases q H) as [-> | ->]; reflexivity. Qed.

Lemma isquote_not_backslash (q : char) :
  isquote q = true -> N.eqb q c_backslash = false.
Proof. intros H. destruct (isquote_cases q H) as [-> | ->]; reflexivity. Qed.

Lemma strip_quoted (q : char) (s : str) :
  isquote q = true -> strip (q :: s ++ [q]) = q :: s ++ [q].
Proof.
  intros H. apply isquote_not_space in H.
  unfold strip. rewrite (lstrip_nonspace_head q _ H).
  unfold rstrip. change (q :: s ++ [q]) with ((q :: s) ++ [q]).
  rewrite rev_app_distr. cbn [rev app].
  rewrite (lstrip_nonspace_head q _ H).
  change (q :: rev s ++ [q]) with ([q] ++ rev (q :: s)).
  now rewrite rev_app_distr, rev_involutive.
Qed.

Section WithController.

Variable table_args : Type.
Variable parse_table_args : str -> option table_args.
Variable int_of_float : str -> option Z.
Variable lower : str -> str.
Variable controller : list (call table_args) -> call table_args -> option exn.
Variable cancel_check : option (nat -> bool).

Abbreviation run_fallback :=
  (_execute_fallback parse_table_args int_of_float lower controller
     cancel_check).

Section NoCancel.

Hypothesis no_cancel : forall f, cancel_check = Some f -> forall n, f n = false.

Lemma fallback_loop_no_name (fuel : nat) (st : fb_state table_args)
    (text : str) :
  List.length text <= fuel ->
  forallb (fun n => negb (contains (n ++ [c_lparen]) text)) names = true ->
  exists st',
    fallback_loop parse_table_args int_of_float lower controller cancel_check
      fuel st text = Some (Returned, st')
    /\ events st' = events st /\ log st' = log st.
Proof.
  revert fuel st. induction text as [|c text IH]; intros fuel st Hf Hn.
  - exists st. destruct fuel; auto.
  - destruct fuel as [|fuel]; [simpl in Hf; lia|].
    cbn [fallback_loop].
    destruct (poll_no_cancel table_args cancel_check no_cancel st)
      as (Hp & He & Hl).
    destruct (poll cancel_check st) as [b st1]. simpl in Hp, He, Hl. subst b.
    apply no_name_cons in Hn as [Hs Hn].
    rewrite (match_name_none names (c :: text) Hs).
    destruct (IH fuel st1) as (st' & E & E1 & E2); [simpl in Hf; lia|exact Hn|].
    exists st'. rewrite E, E1, E2, He, Hl. auto.
Qed.

(** X18: With no cancellation requested, a script in which no instruction name
    is followed by an opening parenthesis goes through the fallback
    tokenizer without a call on the controller and without a log line. *)
Theorem fallback_ignores_unknown_text (script : str) :
  forallb (fun n => negb (contains (n ++ [c_lparen]) script)) names = true ->
  exists st,
    run_fallback script = Some (Returned, st)
    /\ events st = [] /\ log st = [].
Proof.
  intros H. unfold _execute_fallback.
  apply (fallback_loop_no_name (List.length script) (fb_init table_args)
           script (le_n _) H).
Qed.

(** X19: With no cancellation requested, a script that is one one-string
    instruction, its argument in quotes and without a backslash or that
    quote in it, makes exactly one call on the controller, with the text
    between the quotes, parentheses in it included; the log holds a line
    exactly when that call raises. *)
Theorem fallback_single_string_instruction (name : str) (q : char) (s : str) :
  In name funcs_one_str ->
  isquote q = true ->
  existsb (N.eqb q) s = false ->
  existsb (N.eqb c_backslash) s = false ->
  exists st,
    run_fallback (name ++ [c_lparen] ++ [q] ++ s ++ [q; c_rparen])
    = Some (Returned, st)
    /\ events st
       = [Called (OneStr name s) (controller [] (OneStr name s))]
    /\ log st
       = match controller [] (OneStr name s) with
         | Some exc => [failed_message name exc]
         | None => []
         end.
Proof.
  intros Hin Hq Hs Hb.
  set (script := name ++ [c_lparen] ++ [q] ++ s ++ [q; c_rparen]).
  assert (Hnames : In name names).
  { simpl in Hin. vm_compute.
    repeat destruct Hin as [<-|Hin]; try contradiction; tauto. }
  assert (Hstart : startswith (name ++ [c_lparen]) script = true).
  { unfold script. rewrite app_assoc.
    generalize (name ++ [c_lparen]). intros p.
    induction p as [|x p IH]; simpl; [reflexivity|].
    now rewrite N.eqb_refl. }
  assert (Hrest : skipn (List.length name + 1) script
                  = q :: s ++ [q; c_rparen]).
  { unfold script. rewrite app_assoc.
    replace (List.length name + 1) with (List.length (name ++ [c_lparen]))
      by (rewrite length_app; reflexivity).
    apply skipn_length_app. }
  unfold _execute_fallback. fold script.
  destruct script as [|c0 script0] eqn:Escript.
  { destruct name; discriminate. }
  cbn [List.length fallback_loop].
  destruct (poll_no_cancel table_args cancel_check no_cancel
              (fb_init table_args)) as (Hp & He & Hl).
  destruct (poll cancel_check (fb_init table_args)) as [b st1].
  simpl in Hp, He, Hl. subst b.
  rewrite (match_name_first names name (c0 :: script0) eq_refl Hnames Hstart),
    Hrest.
  assert (Hscan : scan_args 1 None false [] (q :: s ++ [q; c_rparen])
                  = (q :: s ++ [q], [])).
  { cbn [scan_args]. rewrite (isquote_not_backslash q Hq), Hq.
    change (s ++ [q; c_rparen]) with (s ++ q :: [c_rparen]).
    rewrite scan_args_in_string;
      [|exact Hs|exact Hb|exact (isquote_not_backslash q Hq)].
    reflexivity. }
  rewrite Hscan, (strip_quoted q s Hq).
  assert (Hdisp :
    dispatch parse_table_args int_of_float lower controller cancel_check
      name (q :: s ++ [q]) st1
    = logged_call controller name (snd (poll cancel_check st1))
        (OneStr name (unwrap_string (q :: s ++ [q])))).
  { unfold dispatch.
    destruct (poll_no_cancel table_args cancel_check no_cancel st1)
      as (Hp2 & _).
    destruct (poll cancel_check st1) as [b st2].
    simpl in Hp2. subst b. cbn [snd].
    simpl in Hin.
    repeat destruct Hin as [<-|Hin]; try contradiction; reflexivity. }
  destruct (poll_no_cancel table_args cancel_check no_cancel st1)
    as (_ & He2 & Hl2).
  assert (Hu : unwrap_string (q :: s ++ [q]) = s).
  { unfold unwrap_string. rewrite Hq. now apply until_char_stop. }
  rewrite Hu in Hdisp.
  exists (logged_call controller name (snd (poll cancel_check st1))
            (OneStr name s)).
  split; [destruct script0; cbn [fallback_loop]; now rewrite Hdisp|].
  unfold logged_call, do_call. rewrite He2, He. cbn [fb_init events calls_of flat_map].
  destruct (controller [] (OneStr name s)) as [exc|];
    cbn [add_log add_event events log]; rewrite He2, He, Hl2, Hl; auto.
Qed.

End NoCancel.

(** X20: A cancellation noticed right before an instruction without arguments,
    after the check at the head of the loop said no: the instruction is
    not called, the cancellation is logged as a failure of that
    instruction, and the tokenizer, at the end of the script, returns. *)
Theorem fallback_cancel_before_last_instruction (name : str)
    (f : nat -> bool) :
  In name funcs_no_args ->
  cancel_check = Some f -> f 0 = false -> f 1 = true ->
  run_fallback (name ++ lit "()")
  = Some (Returned,
          {| events := [CancelSeen name];
             log := [failed_message name cancelled];
             polls := 2 |}).
Proof.
  intros Hin Hc H0 H1. unfold _execute_fallback. rewrite Hc.
  simpl in Hin.
  repeat destruct Hin as [<-|Hin]; try contradiction;
    vm_compute; rewrite H0, H1; reflexivity.
Qed.

End WithController.

Lemma fallback_ignores_unknown_text_witness :
  exists st,
    _execute_fallback (fun _ => None) (fun _ => Some 50%Z) (fun s => s)
      failing_controller (Some (fun _ => false))
      (lit "print(len('x')); y = insert_text")
    = Some (Returned, st)
    /\ events st = [] /\ log st = [].
Proof.
  apply (fallback_ignores_unknown_text unit (fun _ => None)
           (fun _ => Some 50%Z) (fun s => s) failing_controller
           (Some (fun _ => false))).
  - intros f E n. injection E as <-. reflexivity.
  - reflexivity.
Defined.

Lemma fallback_single_string_instruction_witness :
  exists st,
    _execute_fallback (fun _ => None) (fun _ => Some 50%Z) (fun s => s)
      failing_controller (Some (fun _ => false))
      (lit "insert_text" ++ [c_lparen] ++ [c_squote] ++ lit "f(x) = 1"
       ++ [c_squote; c_rparen])
    = Some (Returned, st)
    /\ events st
       = [Called (OneStr (lit "insert_text") (lit "f(x) = 1"))
            (failing_controller []
               (OneStr (lit "insert_text") (lit "f(x) = 1")))]
    /\ log st
       = match failing_controller []
                 (OneStr (lit "insert_text") (lit "f(x) = 1")) with
         | Some exc => [failed_message (lit "insert_text") exc]
         | None => []
         end.
Proof.
  apply (fallback_single_string_instruction unit (fun _ => None)
           (fun _ => Some 50%Z) (fun s => s) failing_controller
           (Some (fun _ => false))).
  - intros f E n. injection E as <-. reflexivity.
  - left. reflexivity.
  - reflexivity.
  - reflexivity.
  - reflexivity.
Defined.

Lemma fallback_cancel_before_last_instruction_witness :
  _execute_fallback (fun _ => None) (fun _ => Some 50%Z) (fun s => s)
    failing_controller (Some (fun n => Nat.eqb n 1))
    (lit "exit_box" ++ lit "()")
  = Some (Returned,
          {| events := [CancelSeen (lit "exit_box")];
             log := [failed_message (lit "exit_box") cancelled];
             polls := 2 |}).
Proof.
  apply (fallback_cancel_before_last_instruction unit (fun _ => None)
           (fun _ => Some 50%Z) (fun s => s) failing_controller
           (Some (fun n => Nat.eqb n 1)) (lit "exit_box")
           (fun n => Nat.eqb n 1)).
  - right. right. left. reflexivity.
  - reflexivity.
  - reflexivity.
  - reflexivity.
Defined.

End FallbackScripts.

(** ** The composer: what its methods keep *)

Section Combinators.
Import PyStr HwpController ComposerNotions.
Variable P : composer -> Prop.

Lemma preserves_ret {A} (a : A) : preserves P (ret a).
Proof. intros st H. exact H. Qed.

Lemma preserves_get : preserves P get.
Proof. intros st H. exact H. Qed.

Lemma preserves_raise {A} (e : exn) : preserves P (@raise A e).
Proof. intros st H. exact H. Qed.

Lemma preserves_bind {A B} (m : M A) (k : A -> M B) :
  preserves P m -> (forall a, preserves P (k a)) -> preserves P (bind m k).
Proof.
  intros Hm Hk st H. unfold bind. specialize (Hm st H).
  destruct (m st) as [[a|e] st']; simpl in Hm; [now apply Hk|exact Hm].
Qed.

Lemma preserves_modify (f : composer -> composer) :
  (forall st, P st -> P (f st)) -> preserves P (modify f).
Proof. intros Hf st H. now apply Hf. Qed.

Lemma preserves_try_except {A} (m : M A) (h : exn -> M A) :
  preserves P m -> (forall e, preserves P (h e)) ->
  preserves P (try_except m h).
Proof.
  intros Hm Hh st H. unfold try_except. specialize (Hm st H).
  destruct (m st) as [[a|e] st']; simpl in Hm; [exact Hm|now apply Hh].
Qed.

Lemma preserves_try_finally {A} (m : M A) (f : M unit) :
  preserves P m -> preserves P f -> preserves P (try_finally m f).
Proof.
  intros Hm Hf st H. unfold try_finally. specialize (Hm st H).
  destruct (m st) as [r st']. simpl in Hm. specialize (Hf st' Hm).
  destruct (f st') as [[u|e] st'']; exact Hf.
Qed.

Lemma preserves_when (b : bool) (m : M unit) :
  preserves P m -> preserves P (when b m).
Proof. intros Hm. destruct b; [exact Hm|apply preserves_ret]. Qed.

Lemma preserves_for_each {A} (l : list A) (f : A -> M unit) :
  (forall a, preserves P (f a)) -> preserves P (for_each l f).
Proof.
  intros Hf. induction l as [|a l IH]; [apply preserves_ret|].
  apply preserves_bind; auto.
Qed.

Lemma preserves_pass : forall e, preserves P (pass e).
Proof. intros e. apply preserves_ret. Qed.

Lemma preserves_ensure_connected : preserves P _ensure_connected.
Proof.
  intros st H. unfold _ensure_connected. now destruct (_hwp st).
Qed.

Lemma preserves_call (sink : list sink_op -> sink_op -> option str)
    (op : sink_op) :
  (forall st calls, P st -> P (with_sink_calls calls st)) ->
  preserves P (call sink op).
Proof.
  intros Hs st H. unfold call.
  destruct (sink (sink_calls st) op); simpl; now apply Hs.
Qed.

End Combinators.

Ltac frame_step side :=
  first
    [ match goal with H : context [ComposerNotions.preserves] |- _ => solve [apply H] end
    | apply preserves_ret | apply preserves_get | apply preserves_raise
    | apply preserves_pass
    | apply preserves_ensure_connected
    | apply preserves_call; solve [side]
    | apply preserves_modify; solve [side]
    | apply preserves_bind; [|intros ?]
    | apply preserves_try_except; [|intros ?]
    | apply preserves_try_finally
    | apply preserves_when
    | apply preserves_for_each; intros ?
    | match goal with
      | |- ComposerNotions.preserves _ (if ?b then _ else _) => destruct b
      | |- ComposerNotions.preserves _ (match ?x with _ => _ end) => destruct x
      end ].

(** *** Properties that depend on the handle only *)

Section MethodsKeep.
Import PyStr HwpController ComposerNotions.

Variable sink : list sink_op -> sink_op -> option str.
Variable has_HTableCreation : bool.

Variable P : composer -> Prop.

(** [P] reads the handle only. *)
Hypothesis P_stable : forall st st', _hwp st' = _hwp st -> P st -> P st'.

Ltac side :=
  let st := fresh "st" in
  intros st; intros; apply (P_stable st); [reflexivity|assumption].

Ltac frame := repeat frame_step side.

Lemma keep_insert_text_raw (text : str) :
  preserves P (_insert_text_raw sink text).
Proof. unfold _insert_text_raw. frame. Qed.

Lemma keep_set_paragraph_align (align : alignment) :
  preserves P (_set_paragraph_align sink align).
Proof. unfold _set_paragraph_align. frame. Qed.

Lemma keep_maybe_insert_line_indent (spaces : nat) :
  preserves P (_maybe_insert_line_indent sink spaces).
Proof.
  pose proof keep_insert_text_raw.
  unfold _maybe_insert_line_indent. frame.
Qed.

Lemma keep_insert_paragraph : preserves P (insert_paragraph sink).
Proof.
  pose proof keep_set_paragraph_align.
  unfold insert_paragraph. frame.
Qed.

Lemma keep_apply_next_line_alignment :
  preserves P (apply_next_line_alignment sink).
Proof.
  pose proof keep_set_paragraph_align.
  unfold apply_next_line_alignment. frame.
Qed.

Lemma keep_insert_text (text : str) : preserves P (insert_text sink text).
Proof.
  pose proof keep_insert_paragraph. pose proof keep_apply_next_line_alignment.
  pose proof keep_insert_text_raw.
  unfold insert_text. frame.
Qed.

Lemma keep_set_font_size_pt (height : Z) :
  preserves P (_set_font_size_pt sink height).
Proof. unfold _set_font_size_pt. frame. Qed.

Lemma keep_insert_equation (hwpeqn : str) :
  preserves P (insert_equation sink hwpeqn).
Proof.
  pose proof keep_insert_text. pose proof keep_apply_next_line_alignment.
  pose proof keep_maybe_insert_line_indent.
  unfold insert_equation. frame.
Qed.

Lemma keep_leave_box : preserves P leave_box.
Proof. unfold leave_box. frame. Qed.

Lemma keep_exit_box : preserves P (exit_box sink).
Proof.
  pose proof keep_insert_text. pose proof keep_insert_paragraph.
  pose proof keep_set_font_size_pt. pose proof keep_leave_box.
  unfold exit_box. frame.
Qed.

Lemma keep_run (action_name : str) : preserves P (_run sink action_name).
Proof. unfold _run. frame. Qed.

Lemma keep_apply_table_font : preserves P (_apply_table_font sink).
Proof. unfold _apply_table_font. frame. Qed.

Lemma keep_create_table (rows cols : Z) :
  preserves P (create_table sink has_HTableCreation rows cols).
Proof. unfold create_table. frame. Qed.

Lemma keep_fill_cell (cols : Z) (align_center : bool) (c : nat) (value : str) :
  preserves P (fill_cell sink cols align_center c value).
Proof.
  pose proof keep_insert_text. pose proof keep_insert_equation.
  pose proof keep_run. pose proof keep_apply_table_font.
  unfold fill_cell. frame.
Qed.

Lemma keep_fill_row (rows cols : Z) (align_center : bool) (r : nat)
    (row : list str) :
  preserves P (fill_row sink rows cols align_center r row).
Proof.
  pose proof keep_fill_cell. pose proof keep_run.
  unfold fill_row. frame.
Qed.

Lemma keep_fill_table (rows cols : Z) (d : option cell_data)
    (align_center : bool) :
  preserves P (fill_table sink rows cols d align_center).
Proof.
  pose proof keep_fill_row.
  unfold fill_table. frame.
Qed.

Lemma keep_insert_table (rows cols : Z) (d : option cell_data)
    (align_center exit_after : bool) :
  preserves P
    (insert_table sink has_HTableCreation rows cols d align_center exit_after).
Proof.
  pose proof keep_maybe_insert_line_indent. pose proof keep_create_table.
  pose proof keep_fill_table. pose proof keep_exit_box.
  pose proof keep_set_paragraph_align.
  unfold insert_table. frame.
Qed.

(** The body of [insert_table] under its [try]. *)
Lemma keep_table_body (rows cols : Z) (d : option cell_data)
    (align_center : bool) :
  preserves P
    (try_except
       (_maybe_insert_line_indent sink 1 ;;
        create_table sink has_HTableCreation rows cols ;;
        modify (with_line_start false) ;;
        modify (with_first_line_written true) ;;
        fill_table sink rows cols d align_center)
       (fun exc =>
          raise (HwpControllerError (msg_table_failed ++ exn_str exc)))).
Proof.
  pose proof keep_maybe_insert_line_indent. pose proof keep_create_table.
  pose proof keep_fill_table.
  frame.
Qed.

End MethodsKeep.

Section KeptFlags.
Import PyStr HwpController ComposerNotions.

Lemma connected_stable (st st' : composer) :
  _hwp st' = _hwp st -> connected st -> connected st'.
Proof. unfold connected. congruence. Qed.

End KeptFlags.

(** ** The composer without a handle *)

Section Unconnected.
Import PyStr HwpController ComposerNotions.

Lemma quiet_ret {A} (a : A) : quiet (ret a).
Proof. intros st H. repeat split; auto. discriminate. Qed.

Lemma quiet_get : quiet get.
Proof. intros st H. repeat split; auto. discriminate. Qed.

Lemma quiet_modify (f : composer -> composer) :
  (forall st, _hwp (f st) = _hwp st /\ sink_calls (f st) = sink_calls st) ->
  quiet (modify f).
Proof.
  intros Hf st H. destruct (Hf st) as [H1 H2]. simpl.
  repeat split; congruence.
Qed.

Lemma quiet_bind {A B} (m : M A) (k : A -> M B) :
  quiet m -> (forall a, quiet (k a)) -> quiet (bind m k).
Proof.
  intros Hm Hk st H. unfold bind. destruct (Hm st H) as (H1 & H2 & H3).
  destruct (m st) as [[a|e] st']; simpl in *.
  - destruct (Hk a st' H1) as (K1 & K2 & K3).
    split; [exact K1|]. split; [congruence|exact K3].
  - split; [exact H1|]. split; [exact H2|].
    intros e0 [= <-]. now apply H3.
Qed.

(** What follows [_ensure_connected] is not run without a handle. *)
Lemma quiet_guard {B} (k : unit -> M B) : quiet (bind _ensure_connected k).
Proof.
  intros st H. unfold bind, _ensure_connected. rewrite H. simpl.
  repeat split; auto. now intros e [= <-].
Qed.

Lemma quiet_try_except {A} (m : M A) (h : exn -> M A) :
  quiet m -> (forall e, quiet (h e)) -> quiet (try_except m h).
Proof.
  intros Hm Hh st H. unfold try_except. destruct (Hm st H) as (H1 & H2 & H3).
  destruct (m st) as [[a|e] st']; simpl in *.
  - split; [exact H1|]. split; [exact H2|discriminate].
  - destruct (Hh e st' H1) as (K1 & K2 & K3).
    split; [exact K1|]. split; [congruence|exact K3].
Qed.

Lemma quiet_when (b : bool) (m : M unit) : quiet m -> quiet (when b m).
Proof. intros Hm. destruct b; [exact Hm|apply quiet_ret]. Qed.

Lemma quiet_pass : forall e, quiet (pass e).
Proof. intros e. apply quiet_ret. Qed.

Lemma needs_handle_guard {B} (k : unit -> M B) :
  needs_handle (bind _ensure_connected k).
Proof.
  intros st H. unfold bind, _ensure_connected. rewrite H. simpl. eauto.
Qed.

Lemma needs_handle_bind {A B} (m : M A) (k : A -> M B) :
  quiet m -> (forall a, needs_handle (k a)) -> needs_handle (bind m k).
Proof.
  intros Hm Hk st H. unfold bind. destruct (Hm st H) as (H1 & _).
  destruct (m st) as [[a|e] st']; simpl in *; [now apply Hk|eauto].
Qed.

Ltac quiet_side := intros; split; reflexivity.

Ltac quiet_step :=
  first
    [ match goal with H : context [quiet] |- _ => solve [apply H] end
    | apply quiet_ret | apply quiet_get | apply quiet_pass
    | apply quiet_guard
    | apply quiet_modify; solve [quiet_side]
    | apply quiet_bind; [|intros ?]
    | apply quiet_try_except; [|intros ?]
    | apply quiet_when
    | match goal with
      | |- quiet (if ?b then _ else _) => destruct b
      | |- quiet (match ?x with _ => _ end) => destruct x
      end ].

Section WithSink.

Variable sink : list sink_op -> sink_op -> option str.
Variable has_HTableCreation : bool.

Lemma quiet_insert_text_raw (text : str) : quiet (_insert_text_raw sink text).
Proof. unfold _insert_text_raw. repeat quiet_step. Qed.

Lemma quiet_set_paragraph_align (align : alignment) :
  quiet (_set_paragraph_align sink align).
Proof. unfold _set_paragraph_align. repeat quiet_step. Qed.

Lemma quiet_maybe_insert_line_indent (spaces : nat) :
  quiet (_maybe_insert_line_indent sink spaces).
Proof.
  pose proof quiet_insert_text_raw.
  unfold _maybe_insert_line_indent. repeat quiet_step.
Qed.

Lemma quiet_insert_paragraph : quiet (insert_paragraph sink).
Proof. unfold insert_paragraph. repeat quiet_step. Qed.

Lemma quiet_apply_next_line_alignment :
  quiet (apply_next_line_alignment sink).
Proof.
  pose proof quiet_set_paragraph_align.
  unfold apply_next_line_alignment. repeat quiet_step.
Qed.

Lemma quiet_insert_text (text : str) : quiet (insert_text sink text).
Proof.
  pose proof quiet_insert_paragraph.
  pose proof quiet_apply_next_line_alignment.
  pose proof quiet_insert_text_raw.
  unfold insert_text. repeat quiet_step.
Qed.

Lemma quiet_insert_equation (hwpeqn : str) :
  quiet (insert_equation sink hwpeqn).
Proof.
  pose proof quiet_insert_text.
  pose proof quiet_apply_next_line_alignment.
  pose proof quiet_maybe_insert_line_indent.
  unfold insert_equation. repeat quiet_step.
Qed.

Lemma needs_handle_insert_equation (hwpeqn : str) :
  needs_handle (insert_equation sink hwpeqn).
Proof.
  unfold insert_equation.
  apply needs_handle_bind; [apply quiet_get|intros st0].
  apply needs_handle_bind.
  { pose proof quiet_insert_text. repeat quiet_step. }
  intros content.
  apply needs_handle_bind; [apply quiet_apply_next_line_alignment|intros skip].
  apply needs_handle_bind.
  { pose proof quiet_maybe_insert_line_indent. repeat quiet_step. }
  intros _. apply needs_handle_guard.
Qed.

(** X21: Before [connect], [insert_paragraph], [exit_box], [_set_font_size_pt],
    [insert_table] with dimensions of at least one and [insert_equation]
    raise the error that asks for [connect] first, and [insert_text] raises
    it or returns; none of them makes a call on the sink, and all but
    [insert_equation] and [insert_text], which may take up a pending
    one-line alignment, leave the composer as it was. *)
Theorem methods_before_connect (st : composer) :
  _hwp st = false ->
  insert_paragraph sink st = (Raise not_connected_error, st)
  /\ exit_box sink st = (Raise not_connected_error, st)
  /\ (forall height,
        _set_font_size_pt sink height st = (Raise not_connected_error, st))
  /\ (forall rows cols d align_center exit_after,
        (0 < rows)%Z -> (0 < cols)%Z ->
        insert_table sink has_HTableCreation rows cols d align_center
          exit_after st
        = (Raise not_connected_error, st))
  /\ (forall hwpeqn,
        fst (insert_equation sink hwpeqn st) = Raise not_connected_error
        /\ sink_calls (snd (insert_equation sink hwpeqn st)) = sink_calls st)
  /\ (forall text,
        (fst (insert_text sink text st) = Ok tt
         \/ fst (insert_text sink text st) = Raise not_connected_error)
        /\ sink_calls (snd (insert_text sink text st)) = sink_calls st).
Proof.
  intros H. repeat split.
  - unfold insert_paragraph, bind, _ensure_connected. now rewrite H.
  - unfold exit_box, bind, _ensure_connected. now rewrite H.
  - intros height. unfold _set_font_size_pt, bind, _ensure_connected.
    now rewrite H.
  - intros rows cols d ac ea Hr Hc. unfold insert_table.
    destruct (Z.leb_spec rows 0); [lia|].
    destruct (Z.leb_spec cols 0); [lia|].
    cbn [orb]. unfold bind, _ensure_connected. now rewrite H.
  - destruct (needs_handle_insert_equation hwpeqn st H) as [e He].
    rewrite He. f_equal.
    now apply (proj2 (proj2 (quiet_insert_equation hwpeqn st H))).
  - apply (quiet_insert_equation hwpeqn st H).
  - destruct (quiet_insert_text text st H) as (_ & _ & H3).
    destruct (fst (insert_text sink text st)) as [[]|e]; [now left|].
    right. f_equal. now apply H3.
  - apply (quiet_insert_text text st H).
Qed.

End WithSink.

Lemma methods_before_connect_witness :
  insert_paragraph TextSteps.sink_ok initial
  = (Raise not_connected_error, initial)
  /\ insert_table TextSteps.sink_ok true 2 3 None false true initial
     = (Raise not_connected_error, initial)
  /\ fst (insert_equation TextSteps.sink_ok (lit "x") initial)
     = Raise not_connected_error.
Proof.
  pose proof (methods_before_connect TextSteps.sink_ok true initial eq_refl)
    as (H1 & _ & _ & H4 & H5 & _).
  split; [exact H1|split; [|apply H5]].
  apply (H4 2%Z 3%Z None false true); reflexivity.
Defined.

End Unconnected.

(** ** Alignment, boxes and tables *)

Section BoxesAndTables.
Import PyStr HwpController ComposerNotions.

Lemma with_sink_calls_same (st : composer) :
  with_sink_calls (sink_calls st) st = st.
Proof. now destruct st. Qed.

Lemma with_sink_calls_twice (a b : list sink_op) (st : composer) :
  with_sink_calls b (with_sink_calls a st) = with_sink_calls b st.
Proof. reflexivity. Qed.

Section WithSink.

Variable sink : list sink_op -> sink_op -> option str.
Variable has_HTableCreation : bool.

(** X22: [_set_paragraph_align] never raises and changes no flag of the
    composer.  Without a handle it makes no call on the sink; with a
    handle it runs the action on [HAction] and, exactly when that raises,
    runs it once more on the handle itself, whatever the second call
    does. *)
Theorem set_paragraph_align_best_effort (align : alignment) (st : composer) :
  _set_paragraph_align sink align st
  = (Ok tt,
     with_sink_calls
       (sink_calls st
        ++ (if _hwp st then
              match sink (sink_calls st) (HAction_Run (align_action align))
              with
              | None => [HAction_Run (align_action align)]
              | Some _ =>
                  [HAction_Run (align_action align);
                   Hwp_Run (align_action align)]
              end
            else []))
       st).
Proof.
  unfold _set_paragraph_align, try_except, bind, _ensure_connected, call, pass,
    ret.
  destruct st as [h b1 b2 b3 b4 b5 b6 b7 b8 b9 b10 b11 calls].
  destruct h; simpl.
  - destruct (sink calls (HAction_Run (align_action align))); simpl.
    + rewrite <- app_assoc.
      destruct (sink _ (Hwp_Run (align_action align))); reflexivity.
    + reflexivity.
  - now rewrite app_nil_r.
Qed.

Lemma set_paragraph_align_flags (align : alignment) (st : composer) :
  fst (_set_paragraph_align sink align st) = Ok tt
  /\ exists calls,
       snd (_set_paragraph_align sink align st) = with_sink_calls calls st.
Proof.
  unfold _set_paragraph_align, try_except, bind, _ensure_connected, call, pass,
    ret.
  destruct st as [h b1 b2 b3 b4 b5 b6 b7 b8 b9 b10 b11 calls].
  destruct h; simpl; [|split; [reflexivity|now eexists]].
  destruct (sink calls (HAction_Run (align_action align))); simpl;
    [|split; [reflexivity|now eexists]].
  destruct (sink _ (Hwp_Run (align_action align)));
    (split; [reflexivity|now eexists]).
Qed.

Lemma try_except_pass_returns (m : M unit) (st : composer) :
  fst (try_except m pass st) = Ok tt.
Proof. unfold try_except. now destruct (m st) as [[[]|e] st']. Qed.

Lemma leave_box_outside (st : composer) :
  leave_box st = (Ok tt, with_box_line_start false
                           (with_in_condition_box false st)).
Proof. reflexivity. Qed.

(** The way out of the table, from any state. *)
Lemma exit_box_way_out (st1 : composer) :
  let m :=
    try_except
      (call sink (HAction_Run (lit "TableLowerCell")) ;;
       call sink (HAction_Run (lit "MoveDown")) ;;
       leave_box)
      (fun _ =>
         try_except
           (call sink (HAction_Run (lit "CloseEx")) ;;
            call sink (HAction_Run (lit "MoveDown")) ;;
            leave_box)
           (fun exc =>
              leave_box ;;
              raise (HwpControllerError
                       (msg_exit_box_failed ++ exn_str exc)))) in
  outside_box (snd (m st1))
  /\ (fst (m st1) = Ok tt
      \/ exists msg,
           fst (m st1)
           = Raise (HwpControllerError (msg_exit_box_failed ++ msg))).
Proof.
  cbv zeta.
  unfold try_except, bind, call, leave_box, modify, raise, outside_box, bind.
  repeat match goal with
         | |- context [sink ?a ?b] => destruct (sink a b); cbn [fst snd]
         end;
    (split; [split; reflexivity|]);
    first [left; reflexivity | right; eexists; reflexivity].
Qed.

Lemma exit_box_result (st : composer) :
  connected st ->
  exists r st2,
    exit_box sink st = (r, st2)
    /\ outside_box st2
    /\ (r = Ok tt
        \/ exists msg,
             r = Raise (HwpControllerError
                          (msg_exit_box_failed ++ msg_exit_box_failed ++ msg))).
Proof.
  intros Hc. unfold connected in Hc.
  unfold exit_box. unfold bind at 1. unfold _ensure_connected. rewrite Hc.
  unfold try_except at 1. unfold bind at 1. unfold get.
  unfold bind at 1.
  set (spacer := when (_in_condition_box st) _).
  assert (Hs : fst (spacer st) = Ok tt).
  { unfold spacer. destruct (_in_condition_box st); [|reflexivity].
    apply try_except_pass_returns. }
  clearbody spacer.
  destruct (spacer st) as [r st1]. simpl in Hs. subst r.
  destruct (exit_box_way_out st1) as [Ho Hr]. cbv zeta in Ho, Hr.
  match goal with
  | |- context [match ?x with _ => _ end] => destruct x as [[u|e] st2]
  end.
  - destruct u. cbn [fst snd] in *. exists (Ok tt), st2. auto.
  - unfold raise. cbn [fst snd] in *.
    destruct Hr as [Hr|[msg Hr]]; [discriminate|].
    injection Hr as ->. eexists _, st2. split; [reflexivity|].
    split; [exact Ho|]. right. exists msg. reflexivity.
Qed.

(** X23: After [exit_box] on a connected composer, the composer is outside
    any box whether the method returned or raised; when it raises, the
    message carries the prefix of the method twice. *)
Theorem exit_box_leaves_box (st : composer) :
  connected st ->
  outside_box (snd (exit_box sink st))
  /\ (fst (exit_box sink st) = Ok tt
      \/ exists msg,
           fst (exit_box sink st)
           = Raise (HwpControllerError
                      (msg_exit_box_failed ++ msg_exit_box_failed ++ msg))).
Proof.
  intros Hc. destruct (exit_box_result st Hc) as (r & st2 & E & Ho & Hr).
  rewrite E. auto.
Qed.

End WithSink.

Lemma exit_box_leaves_box_witness :
  outside_box
    (snd (exit_box TextSteps.sink_ok TextSteps.in_box_after_equation)).
Proof.
  apply (exit_box_leaves_box TextSteps.sink_ok
           TextSteps.in_box_after_equation).
  reflexivity.
Defined.

End BoxesAndTables.

(** ** Tables *)

Section Tables.
Import PyStr HwpController ComposerNotions.

Lemma chunks_fuel_concat (cols : nat) (fuel : nat) (flat : list str) :
  0 < cols -> List.length flat <= fuel ->
  List.concat (chunks_fuel fuel cols flat) = flat
  /\ forallb (fun row => Nat.leb 1 (List.length row)
                         && Nat.leb (List.length row) cols)
       (chunks_fuel fuel cols flat) = true.
Proof.
  intros Hc. revert flat. induction fuel as [|fuel IH]; intros flat Hf.
  - destruct flat; [now split|simpl in Hf; lia].
  - destruct flat as [|x flat]; [now split|].
    cbn [chunks_fuel].
    destruct (IH (skipn cols (x :: flat))) as [I1 I2].
    { rewrite length_skipn. cbn [List.length] in *. lia. }
    split.
    + cbn [List.concat]. rewrite I1. apply firstn_skipn.
    + cbn [forallb]. rewrite I2, andb_true_r.
      rewrite length_firstn. cbn [List.length].
      apply andb_true_iff. split; apply Nat.leb_le; lia.
Qed.

(** X24: A flat list of cells is cut into rows of [cols] cells, the last row
    being shorter when the cells do not fill it: the rows, one after the
    other, are the cells again, and no row is empty or longer than
    [cols]. *)
Theorem chunks_rows (cols : nat) (flat : list str) :
  0 < cols ->
  List.concat (chunks cols flat) = flat
  /\ forallb (fun row => Nat.leb 1 (List.length row)
                         && Nat.leb (List.length row) cols)
       (chunks cols flat) = true.
Proof. intros H. apply chunks_fuel_concat; [exact H|apply le_n]. Qed.

Lemma chunks_rows_witness :
  List.concat (chunks 2 [lit "a"; lit "b"; lit "c"]) = [lit "a"; lit "b"; lit "c"]
  /\ forallb (fun row => Nat.leb 1 (List.length row)
                         && Nat.leb (List.length row) 2)
       (chunks 2 [lit "a"; lit "b"; lit "c"]) = true.
Proof. apply (chunks_rows 2 [lit "a"; lit "b"; lit "c"]). lia. Defined.

Section WithSink.

Variable sink : list sink_op -> sink_op -> option str.
Variable has_HTableCreation : bool.

Lemma for_each_combine_map {A} (f : A -> A) (g : nat * A -> M unit)
    (l : list A) (idx : list nat) :
  (forall i x, g (i, f x) = g (i, x)) ->
  for_each (combine idx (List.map f l)) g = for_each (combine idx l) g.
Proof.
  intros Hg. revert idx. induction l as [|x l IH]; intros [|i idx];
    try reflexivity.
  cbn [List.map combine for_each]. now rewrite Hg, IH.
Qed.

Lemma fill_row_truncated (rows cols : Z) (align_center : bool) (r : nat)
    (row : list str) :
  fill_row sink rows cols align_center r (firstn (Z.to_nat cols) row)
  = fill_row sink rows cols align_center r row.
Proof.
  unfold fill_row. cbv zeta.
  rewrite length_firstn, Nat.min_assoc, Nat.min_id.
  rewrite firstn_firstn.
  replace (Nat.min (Nat.min (Z.to_nat cols) (List.length row)) (Z.to_nat cols))
    with (Nat.min (Z.to_nat cols) (List.length row)) by lia.
  reflexivity.
Qed.

Lemma fill_table_truncated (rows cols : Z) (data : list (list str))
    (align_center : bool) :
  (0 < rows)%Z ->
  fill_table sink rows cols
    (Some (Rows (List.map (firstn (Z.to_nat cols))
                   (firstn (Z.to_nat rows) data)))) align_center
  = fill_table sink rows cols (Some (Rows data)) align_center.
Proof.
  intros Hr. unfold fill_table.
  destruct data as [|row data]; [now rewrite firstn_nil|].
  destruct (Z.to_nat rows) as [|n] eqn:En; [lia|].
  cbn [firstn List.map has_cells cell_rows]. cbv zeta.
  set (f := firstn (Z.to_nat cols)).
  change (f row :: List.map f (firstn n data))
    with (List.map f (firstn (S n) (row :: data))).
  rewrite length_map, length_firstn, Nat.min_assoc, Nat.min_id.
  set (m := Nat.min (S n) (List.length (row :: data))).
  rewrite firstn_map, firstn_firstn.
  replace (Nat.min m (S n)) with m by (unfold m; lia).
  apply for_each_combine_map. intros i x. cbn [fst snd].
  apply fill_row_truncated.
Qed.

(** X25: [insert_table] reads no more than [rows] rows of the cell data and no
    more than [cols] cells of a row: the cells beyond the dimensions of the
    table are left out, without an error. *)
Theorem insert_table_ignores_extra_cells (rows cols : Z)
    (data : list (list str)) (align_center exit_after : bool) :
  insert_table sink has_HTableCreation rows cols
    (Some (Rows (List.map (firstn (Z.to_nat cols))
                   (firstn (Z.to_nat rows) data)))) align_center exit_after
  = insert_table sink has_HTableCreation rows cols (Some (Rows data))
      align_center exit_after.
Proof.
  unfold insert_table.
  destruct (Z.leb_spec rows 0); [reflexivity|].
  cbn [orb]. destruct (Z.leb cols 0); [reflexivity|].
  now rewrite fill_table_truncated.
Qed.

End WithSink.
End Tables.

(** ** After a table *)

Section AfterTable.
Import PyStr HwpController ComposerNotions.

Section WithSink.

Variable sink : list sink_op -> sink_op -> option str.
Variable has_HTableCreation : bool.

Lemma try_except_wrapped (m : M unit) (pre : str) (st : composer) :
  let r :=
    try_except m
      (fun exc => raise (HwpControllerError (pre ++ exn_str exc))) st in
  fst r = Ok tt
  \/ exists msg, fst r = Raise (HwpControllerError (pre ++ msg)).
Proof.
  unfold try_except, raise. destruct (m st) as [[[]|e] st']; simpl; eauto.
Qed.

Lemma insert_table_result (rows cols : Z) (d : option cell_data)
    (align_center : bool) (st : composer) :
  connected st -> (0 < rows)%Z -> (0 < cols)%Z ->
  exists r st',
    insert_table sink has_HTableCreation rows cols d align_center true st
    = (r, st')
    /\ outside_box st' /\ _line_start st' = true
    /\ (r = Ok tt
        \/ exists msg,
             r = Raise (HwpControllerError (msg_table_failed ++ msg))).
Proof.
  intros Hc Hr Hcols. unfold insert_table.
  destruct (Z.leb_spec rows 0); [lia|].
  destruct (Z.leb_spec cols 0); [lia|].
  cbn [orb]. unfold bind at 1. unfold _ensure_connected.
  unfold connected in Hc. rewrite Hc.
  unfold try_finally.
  pose proof (keep_table_body sink has_HTableCreation connected
                connected_stable rows cols d align_center st Hc) as Hk.
  match goal with
  | |- context [let (_, _) := ?m st in _] =>
      assert (Hres : fst (m st) = Ok tt
                     \/ exists msg,
                          fst (m st)
                          = Raise (HwpControllerError (msg_table_failed ++ msg)));
      [|destruct (m st) as [r1 st1]]
  end.
  { apply try_except_wrapped. }
  cbn [fst snd] in Hk, Hres. cbn [when].
  unfold bind at 1.
  destruct (exit_box_result sink st1 Hk) as (r2 & st2 & E2 & Ho & _).
  unfold try_except at 1. rewrite E2.
  assert (E2' : (match r2 with
                 | Ok a => (Ok a, st2)
                 | Raise e => pass e st2
                 end) = (Ok tt, st2)).
  { destruct r2 as [[]|e]; reflexivity. }
  rewrite E2'. unfold bind at 1.
  destruct (set_paragraph_align_flags sink AlignLeft st2) as (Ea & calls & Es).
  unfold try_except at 1.
  destruct (_set_paragraph_align sink AlignLeft st2) as [ra st3].
  cbn [fst snd] in Ea, Es. subst ra st3.
  unfold modify.
  destruct Ho as [Ho1 Ho2].
  eexists _, _. split; [reflexivity|].
  repeat split; auto.
Qed.

(** X26: After [insert_table] with [exit_after] on a connected composer, with
    dimensions of at least one, the composer is outside any box and at
    the start of a line, whether the table was made or the method raised;
    what it raises is a table failure. *)
Theorem insert_table_exits (rows cols : Z) (d : option cell_data)
    (align_center : bool) (st : composer) :
  connected st -> (0 < rows)%Z -> (0 < cols)%Z ->
  let r := insert_table sink has_HTableCreation rows cols d align_center true
             st in
  outside_box (snd r)
  /\ _line_start (snd r) = true
  /\ (fst r = Ok tt
      \/ exists msg,
           fst r = Raise (HwpControllerError (msg_table_failed ++ msg))).
Proof.
  intros Hc Hr Hcols.
  destruct (insert_table_result rows cols d align_center st Hc Hr Hcols)
    as (r & st' & E & Ho & Hl & Hres).
  cbv zeta. rewrite E. auto.
Qed.

End WithSink.

Lemma insert_table_exits_witness :
  outside_box
    (snd (insert_table TextSteps.sink_ok true 1 2 (Some (Flat [lit "a"])) false
            true TextSteps.in_box_after_equation))
  /\ _line_start
       (snd (insert_table TextSteps.sink_ok true 1 2 (Some (Flat [lit "a"]))
               false true TextSteps.in_box_after_equation)) = true.
Proof.
  pose proof (insert_table_exits TextSteps.sink_ok true 1 2
                (Some (Flat [lit "a"])) false
                TextSteps.in_box_after_equation eq_refl eq_refl eq_refl)
    as (H1 & H2 & _).
  split; [exact H1|exact H2].
Defined.

End AfterTable.

(** ** Texts, equations and alignment, one after the other *)

Section Sequences.
Import PyStr HwpController ComposerNotions TextSteps.

Lemma returns_bind {A B} (Pre : composer -> Prop) (Mid : A -> composer -> Prop)
    (Post : B -> composer -> Prop) (m : M A) (k : A -> M B) :
  returns Pre m Mid -> (forall a, returns (Mid a) (k a) Post) ->
  returns Pre (bind m k) Post.
Proof.
  intros Hm Hk st b st2 Hp E. unfold bind in E.
  destruct (m st) as [[a|e] st1] eqn:Em; [|discriminate].
  apply (Hk a st1 b st2); [|exact E]. now apply (Hm st a st1).
Qed.

Lemma returns_weaken {A} (Pre Pre' : composer -> Prop)
    (Post Post' : A -> composer -> Prop) (m : M A) :
  returns Pre' m Post' ->
  (forall st, Pre st -> Pre' st) ->
  (forall a st, Post' a st -> Post a st) ->
  returns Pre m Post.
Proof. intros H H1 H2 st a st' Hp E. apply H2, (H st a st'); auto. Qed.

Lemma returns_ret {A} (P : composer -> Prop) (a : A) :
  returns P (ret a) (fun _ => P).
Proof. intros st b st' Hp [= <- <-]. exact Hp. Qed.

Lemma returns_get (P : composer -> Prop) :
  returns P get (fun st0 st => st = st0 /\ P st).
Proof. intros st b st' Hp [= <- <-]. auto. Qed.

Lemma returns_modify (P Q : composer -> Prop) (f : composer -> composer) :
  (forall st, P st -> Q (f st)) -> returns P (modify f) (fun _ => Q).
Proof. intros H st b st' Hp [= _ <-]. auto. Qed.

Lemma returns_when (P : composer -> Prop) (b : bool) (m : M unit) :
  returns P m (fun _ => P) -> returns P (when b m) (fun _ => P).
Proof. intros H. destruct b; [exact H|apply returns_ret]. Qed.

Section WithSink.

Variable sink : list sink_op -> sink_op -> option str.

Lemma returns_set_paragraph_align (P : composer -> Prop)
    (align : alignment) :
  on_flags P -> returns P (_set_paragraph_align sink align) (fun _ => P).
Proof.
  intros HP st a st' Hp E.
  destruct (set_paragraph_align_flags sink align st) as (_ & calls & Es).
  rewrite E in Es. simpl in Es. subst st'. now apply HP.
Qed.

Lemma call_state (op : sink_op) (st : composer) :
  snd (call sink op st) = with_sink_calls (sink_calls st ++ [op]) st.
Proof. unfold call. now destruct (sink (sink_calls st) op). Qed.

Lemma returns_call (P : composer -> Prop) (op : sink_op) :
  on_flags P -> returns P (call sink op) (fun _ => P).
Proof.
  intros HP st a st' Hp E. pose proof (call_state op st) as Hs.
  rewrite E in Hs. simpl in Hs. subst st'. now apply HP.
Qed.

Lemma returns_for_each {A} (P : composer -> Prop) (l : list A)
    (f : A -> M unit) :
  (forall a, returns P (f a) (fun _ => P)) ->
  returns P (for_each l f) (fun _ => P).
Proof.
  intros Hf. induction l as [|a l IH]; [apply returns_ret|].
  apply (returns_bind P (fun _ => P)); auto.
Qed.

Lemma returns_try_except {A} (P : composer -> Prop)
    (Post : A -> composer -> Prop) (m : M A) (h : exn -> M A) :
  returns P m Post ->
  preserves P m ->
  (forall e, returns P (h e) Post) ->
  returns P (try_except m h) Post.
Proof.
  intros Hm Hkeep Hh st a st' Hp E. unfold try_except in E.
  destruct (m st) as [[a0|e] st1] eqn:Em.
  - injection E as <- <-. now apply (Hm st a0 st1).
  - apply (Hh e st1 a st'); [|exact E].
    specialize (Hkeep st Hp). now rewrite Em in Hkeep.
Qed.

Lemma insert_text_raw_state (text : str) (st : composer) :
  exists calls,
    snd (_insert_text_raw sink text st) = with_sink_calls calls st.
Proof.
  unfold _insert_text_raw. destruct text as [|c text].
  { exists (sink_calls st). now rewrite with_sink_calls_same. }
  unfold bind at 1. unfold _ensure_connected.
  destruct (_hwp st);
    [|exists (sink_calls st); now rewrite with_sink_calls_same].
  unfold try_except.
  assert (Hcalls : forall (l : list sink_op) (s0 : composer),
            exists calls,
              snd (for_each l (fun op => call sink op) s0)
              = with_sink_calls calls s0).
  { induction l as [|op l IH]; intros s0.
    - exists (sink_calls s0). now rewrite with_sink_calls_same.
    - cbn [for_each]. unfold bind.
      pose proof (call_state op s0) as Hs.
      destruct (call sink op s0) as [[[]|e] s1]; simpl in Hs; subst s1.
      + destruct (IH (with_sink_calls (sink_calls s0 ++ [op]) s0))
          as [calls Hc].
        exists calls. now rewrite Hc.
      + now eexists. }
  assert (Hkeys : forall (t : str) (s0 : composer),
            exists calls,
              snd (for_each t (fun c => call sink (KeyIndicator c)) s0)
              = with_sink_calls calls s0).
  { induction t as [|k t IH]; intros s0.
    - exists (sink_calls s0). now rewrite with_sink_calls_same.
    - cbn [for_each]. unfold bind.
      pose proof (call_state (KeyIndicator k) s0) as Hs.
      destruct (call sink (KeyIndicator k) s0) as [[[]|e] s1];
        simpl in Hs; subst s1.
      + destruct (IH (with_sink_calls (sink_calls s0 ++ [KeyIndicator k]) s0))
          as [calls Hc].
        exists calls. now rewrite Hc.
      + now eexists. }
  destruct (Hcalls [HAction_GetDefault (lit "InsertText");
                    Set_Text (c :: text);
                    HAction_Execute (lit "InsertText")] st) as [calls1 H1].
  assert (E : (call sink (HAction_GetDefault (lit "InsertText")) ;;
               call sink (Set_Text (c :: text)) ;;
               call sink (HAction_Execute (lit "InsertText"))) st
              = for_each [HAction_GetDefault (lit "InsertText");
                          Set_Text (c :: text);
                          HAction_Execute (lit "InsertText")]
                  (fun op => call sink op) st).
  { cbn [for_each]. unfold bind, ret.
    destruct (call sink _ st) as [[[]|e] s1]; [|reflexivity].
    destruct (call sink _ s1) as [[[]|e] s2]; [|reflexivity].
    destruct (call sink _ s2) as [[[]|e] s3]; reflexivity. }
  rewrite E.
  destruct (for_each _ _ st) as [[[]|e] s1]; simpl in H1; subst s1.
  - now eexists.
  - destruct (Hkeys (c :: text) (with_sink_calls calls1 st)) as [calls2 H2].
    exists calls2. now rewrite H2.
Qed.

Lemma returns_insert_text_raw (P : composer -> Prop) (text : str) :
  on_flags P -> returns P (_insert_text_raw sink text) (fun _ => P).
Proof.
  intros HP st a st' Hp E.
  destruct (insert_text_raw_state text st) as [calls Hs].
  rewrite E in Hs. simpl in Hs. subst st'. now apply HP.
Qed.

Lemma preserves_returns {A} (P : composer -> Prop) (m : M A) :
  preserves P m -> returns P m (fun _ => P).
Proof.
  intros H st a st' Hp E. specialize (H st Hp). now rewrite E in H.
Qed.

Lemma returns_any_bind {A B} (Post : B -> composer -> Prop) (m : M A)
    (k : A -> M B) :
  (forall a, returns (fun _ => True) (k a) Post) ->
  returns (fun _ => True) (bind m k) Post.
Proof.
  intros Hk. apply (returns_bind _ (fun _ _ => True)); [|exact Hk].
  intros st a st' _ _. exact I.
Qed.

Lemma set_paragraph_align_result (align : alignment) (st : composer) :
  exists calls,
    _set_paragraph_align sink align st = (Ok tt, with_sink_calls calls st).
Proof.
  destruct (set_paragraph_align_flags sink align st) as (E1 & calls & E2).
  exists calls. destruct (_set_paragraph_align sink align st).
  simpl in *. now subst.
Qed.

Ltac align_results :=
  repeat match goal with
         | H : context [_set_paragraph_align sink ?a ?s] |- _ =>
             let calls := fresh "calls" in
             let E := fresh "E" in
             destruct (set_paragraph_align_result a s) as [calls E];
             rewrite E in H; clear E; simpl in H
         end.

(** What [insert_paragraph] leaves when it returns. *)
Lemma insert_paragraph_returns (b : bool) :
  returns (fun st => _align_right_next_line st = b) (insert_paragraph sink)
    (fun _ st' => fresh_line st' /\ _align_right_next_line st' = b).
Proof.
  intros st a st' Hp E. unfold fresh_line.
  destruct st as [h b1 b2 b3 b4 b5 b6 b7 b8 b9 b10 b11 calls].
  simpl in Hp. subst b5.
  unfold insert_paragraph, bind, try_except, _ensure_connected, call, get,
    when, modify, raise, ret in E.
  simpl in E. destruct h; [|discriminate].
  match type of E with
  | context [sink ?x ?op] => destruct (sink x op); [discriminate|]
  end.
  simpl in E.
  destruct b1, b6, b8; simpl in E; align_results;
    injection E as _ <-; simpl; auto.
Qed.

(** What the one-line alignment leaves when a right alignment is
    pending. *)
Lemma apply_next_line_alignment_right (st : composer) :
  right_alignment_pending st ->
  exists st',
    apply_next_line_alignment sink st = (Ok true, st')
    /\ _align_right_next_line st' = false.
Proof.
  intros [H1 H2].
  destruct st as [h b1 b2 b3 b4 b5 b6 b7 b8 b9 b10 b11 calls].
  simpl in H1, H2. subst b3 b5.
  unfold apply_next_line_alignment, bind, get, when, modify, ret.
  simpl.
  destruct (set_paragraph_align_result AlignRight
              {| _hwp := h; _in_condition_box := b1; _box_line_start := b2;
                 _line_start := true; _first_line_written := b4;
                 _align_right_next_line := true; _line_right_aligned := b6;
                 _align_justify_next_line := b7;
                 _line_justify_aligned := b8; _last_was_equation := b9;
                 _underline_active := b10; _bold_active := b11;
                 sink_calls := calls |}) as [c1 E1].
  rewrite E1. simpl. destruct b7; simpl.
  - match goal with
    | |- context [_set_paragraph_align sink ?a ?s] =>
        destruct (set_paragraph_align_result a s) as [c2 E2]; rewrite E2
    end.
    simpl. eexists. split; reflexivity.
  - eexists. split; reflexivity.
Qed.

Ltac pending_side :=
  intros; unfold no_alignment_pending in *; simpl; assumption.

Lemma keep_pending_emit (text : str) :
  preserves no_alignment_pending (step_emit sink text).
Proof.
  unfold step_emit.
  assert (H : forall t, preserves no_alignment_pending (_insert_text_raw sink t)).
  { intros t. unfold _insert_text_raw. repeat frame_step pending_side. }
  repeat frame_step pending_side.
Qed.

Lemma keep_pending_box_prefix (text : str) :
  preserves no_alignment_pending (step_box_prefix text).
Proof. unfold step_box_prefix. repeat frame_step pending_side. Qed.

Lemma keep_pending_equation_space (text : str) :
  preserves no_alignment_pending (step_equation_space text).
Proof. unfold step_equation_space. repeat frame_step pending_side. Qed.

(** A text at the start of a line takes up the right alignment asked
    for. *)
Lemma insert_text_takes_alignment (text : str) :
  text <> [] ->
  returns right_alignment_pending (insert_text sink text)
    (fun _ => no_alignment_pending).
Proof.
  intros Hne st a st' Hp E.
  rewrite insert_text_steps in E. unfold insert_text_in_order in E.
  destruct text as [|c text]; [congruence|].
  revert st a st' Hp E.
  change (returns right_alignment_pending
            (step_tab_break sink (tab_marker (c :: text)) ;;
             text0 <- step_alignment sink (tab_marker (c :: text)) ;;
             text1 <- step_equation_space text0 ;;
             text2 <- step_box_prefix text1 ;;
             step_emit sink text2)
            (fun _ => no_alignment_pending)).
  apply (returns_bind _ (fun _ => right_alignment_pending)).
  { unfold step_tab_break.
    apply (returns_bind _ (fun st0 st => st = st0 /\ right_alignment_pending st));
      [apply returns_get|intros st0].
    destruct (_line_start st0 && _ && _).
    - cbn [when]. intros st a st' [-> [H1 H2]] E.
      destruct (insert_paragraph_returns true st0 a st' H2 E) as [[F1 _] F2].
      split; assumption.
    - cbn [when]. intros st a st' [-> H] [= _ <-]. exact H. }
  intros _.
  apply (returns_bind _ (fun _ => no_alignment_pending)).
  { unfold step_alignment. intros st a st' Hp E. unfold bind at 1 in E.
    destruct (apply_next_line_alignment_right st Hp) as (st1 & E1 & H1).
    rewrite E1 in E. cbv beta iota in E.
    match type of E with
    | ?m st1 = _ =>
        assert (Hk : preserves no_alignment_pending m)
          by (repeat frame_step pending_side);
        specialize (Hk st1 H1); rewrite E in Hk; exact Hk
    end. }
  intros text0.
  apply (returns_bind _ (fun _ => no_alignment_pending));
    [apply preserves_returns, keep_pending_equation_space|intros text1].
  apply (returns_bind _ (fun _ => no_alignment_pending));
    [apply preserves_returns, keep_pending_box_prefix|intros text2].
  apply preserves_returns, keep_pending_emit.
Qed.

(** X27: A right alignment asked for at the start of a line lasts one line:
    when the text and the paragraph break after it return, no alignment is
    pending or in force, and the composer is at the start of a line. *)
Theorem right_alignment_lasts_one_line (text : str) (st : composer) :
  _line_start st = true ->
  text <> [] ->
  let run :=
    set_align_right_next_line ;; insert_text sink text ;;
    insert_paragraph sink in
  fst (run st) = Ok tt ->
  _align_right_next_line (snd (run st)) = false
  /\ fresh_line (snd (run st)).
Proof.
  intros Hl Hne run Hok.
  assert (H : returns (fun s => _line_start s = true) run
                (fun _ s' => fresh_line s' /\ _align_right_next_line s' = false)).
  { unfold run.
    apply (returns_bind _ (fun _ => right_alignment_pending)).
    { unfold set_align_right_next_line. apply returns_modify.
      intros s Hs. split; [exact Hs|reflexivity]. }
    intros _.
    apply (returns_bind _ (fun _ => no_alignment_pending)).
    { now apply insert_text_takes_alignment. }
    intros _. apply (insert_paragraph_returns false). }
  destruct (run st) as [r st'] eqn:E. simpl in Hok. subst r.
  destruct (H st tt st' Hl E) as [F1 F2]. simpl. auto.
Qed.

(** X28: After an equation that returns, outside a box, a text that begins
    with one space is written without it. *)
Theorem text_after_equation_drops_space (hwpeqn t : str) (st : composer) :
  let st1 := snd (insert_equation sink hwpeqn st) in
  fst (insert_equation sink hwpeqn st) = Ok tt ->
  _in_condition_box st1 = false ->
  insert_text sink (c_space :: t) st1 = step_emit sink t st1.
Proof.
  intros st1 Hok Hbox.
  assert (H : returns (fun _ => True) (insert_equation sink hwpeqn)
                (fun _ s' => _line_start s' = false
                             /\ _last_was_equation s' = true)).
  { unfold insert_equation.
    do 6 (apply returns_any_bind; intros ?).
    intros s u s' _ E. unfold bind, modify in E.
    injection E as _ <-. split; reflexivity. }
  destruct (insert_equation sink hwpeqn st) as [r s1] eqn:E.
  simpl in Hok. subst r. destruct (H st tt s1 I E) as [Hls Heq].
  subst st1. cbn [snd] in *.
  rewrite insert_text_steps.
  unfold insert_text_in_order.
  change (tab_marker (c_space :: t)) with (c_space :: t).
  unfold step_tab_break, step_alignment, step_equation_space,
    step_box_prefix, apply_next_line_alignment, bind, get, ret.
  cbv beta zeta.
  repeat (rewrite Hls; cbn [andb when ret]).
  rewrite Heq, Hbox.
  change (starts_with_space (c_space :: t)) with true.
  cbn [andb skipn]. reflexivity.
Qed.

End WithSink.

Lemma right_alignment_lasts_one_line_witness :
  _align_right_next_line
    (snd ((set_align_right_next_line ;;
           insert_text sink_ok (lit "[3]") ;;
           insert_paragraph sink_ok) (with_hwp true initial))) = false
  /\ fresh_line
       (snd ((set_align_right_next_line ;;
              insert_text sink_ok (lit "[3]") ;;
              insert_paragraph sink_ok) (with_hwp true initial))).
Proof.
  apply (right_alignment_lasts_one_line sink_ok (lit "[3]")
           (with_hwp true initial)).
  - reflexivity.
  - discriminate.
  - reflexivity.
Defined.

Lemma text_after_equation_drops_space_witness :
  insert_text sink_ok (c_space :: lit "x")
    (snd (insert_equation sink_ok (lit "y") (with_hwp true initial)))
  = step_emit sink_ok (lit "x")
      (snd (insert_equation sink_ok (lit "y") (with_hwp true initial))).
Proof.
  apply (text_after_equation_drops_space sink_ok (lit "y") (lit "x")
           (with_hwp true initial));
    reflexivity.
Defined.

End Sequences.

(** ** Connection errors and the worker *)

Section ConnectErrors.
Import PyStr HwpController TypingWorker Connect.

Lemma rpc_message_after_prefix (msg : str) :
  _is_rpc_unavailable_message (msg_connect_failed ++ msg)
  = _is_rpc_unavailable_message msg.
Proof. reflexivity. Qed.

(** X29: The worker classifies the message of a failed connection as
    transport-unavailable exactly when [connect] found the transport
    unavailable in one of the two exceptions it formats. *)
Theorem connect_error_classified (primary_exc : exn)
    (secondary_exc : option exn) :
  _is_rpc_unavailable_message
    (_format_connect_error primary_exc secondary_exc)
  = _is_rpc_unavailable_error primary_exc
    || match secondary_exc with
       | Some exc => _is_rpc_unavailable_error exc
       | None => false
       end.
Proof.
  unfold _format_connect_error.
  destruct (_is_rpc_unavailable_error primary_exc
            || match secondary_exc with
               | Some exc => _is_rpc_unavailable_error exc
               | None => false
               end) eqn:E.
  - reflexivity.
  - rewrite rpc_message_after_prefix.
    apply orb_false_iff in E as [E _]. exact E.
Qed.

End ConnectErrors.

(** ** The parts of a generated script *)

Section Parts.
Import PyStr Re ScriptRunner Spec Notions AIWorker.

Lemma split_from_cur (cur t : str) :
  split_from cur t
  = match split_from [] t with
    | l1 :: rest => (rev cur ++ l1) :: rest
    | [] => []
    end.
Proof.
  revert cur. induction t as [|c t IH]; intros cur.
  - simpl. now rewrite app_nil_r.
  - simpl. destruct (N.eqb c c_nl).
    + now rewrite app_nil_r.
    + rewrite (IH (c :: cur)), (IH [c]).
      destruct (split_from [] t); [reflexivity|].
      simpl. now rewrite <- app_assoc.
Qed.

Lemma split_from_snoc (c : char) (t cur : str) :
  N.eqb c c_nl = false ->
  exists init last,
    split_from cur t = init ++ [last]
    /\ split_from cur (t ++ [c]) = init ++ [last ++ [c]].
Proof.
  intros Hc. revert cur. induction t as [|d t IH]; intros cur.
  - exists [], (rev cur). simpl. rewrite Hc. now split.
  - simpl. destruct (N.eqb d c_nl).
    + destruct (IH []) as (init & last & E1 & E2).
      exists (rev cur :: init), last. rewrite E1, E2. now split.
    + apply IH.
Qed.

Lemma strip_cons_space (c : char) (l : str) :
  isspace c = true -> strip (c :: l) = strip l.
Proof. intros H. unfold strip. simpl. now rewrite H. Qed.

Lemma rstrip_snoc_space (c : char) (l : str) :
  isspace c = true -> rstrip (l ++ [c]) = rstrip l.
Proof.
  intros H. unfold rstrip. rewrite rev_app_distr. simpl. now rewrite H.
Qed.

Lemma rstrip_snoc_nonspace (c : char) (l : str) :
  isspace c = false -> rstrip (l ++ [c]) = l ++ [c].
Proof.
  intros H. unfold rstrip. rewrite rev_app_distr. simpl. rewrite H.
  simpl. now rewrite rev_involutive.
Qed.

Lemma lstrip_snoc (c : char) (l : str) :
  lstrip (l ++ [c]) = lstrip l ++ [c] \/ (lstrip l = [] /\ isspace c = true
                                           /\ lstrip (l ++ [c]) = []).
Proof.
  induction l as [|d l IH]; simpl.
  - destruct (isspace c) eqn:E; [right|left]; auto.
  - destruct (isspace d); [exact IH|now left].
Qed.

Lemma strip_snoc_space (c : char) (l : str) :
  isspace c = true -> strip (l ++ [c]) = strip l.
Proof.
  intros H. unfold strip.
  destruct (lstrip_snoc c l) as [E|(E1 & _ & E2)].
  - rewrite E. now apply rstrip_snoc_space.
  - now rewrite E1, E2.
Qed.

Section Lines.

Variable Q : str -> bool.

Lemma lines_lstrip (t : str) :
  forallb (on_stripped Q) (split_nl t) = true ->
  forallb (on_stripped Q) (split_nl (lstrip t)) = true.
Proof.
  induction t as [|c t IH]; intros H; [exact H|].
  simpl. destruct (isspace c) eqn:Ec; [|exact H].
  apply IH. unfold split_nl in *. simpl in H.
  destruct (N.eqb c c_nl).
  - simpl in H. now apply andb_true_iff in H as [_ H].
  - rewrite split_from_cur in H.
    destruct (split_from [] t) as [|l1 rest]; [reflexivity|].
    simpl in *. apply andb_true_iff in H as [H1 H2].
    unfold on_stripped in *. rewrite strip_cons_space in H1 by exact Ec.
    now rewrite H1, H2.
Qed.

Lemma lines_rstrip (t : str) :
  forallb (on_stripped Q) (split_nl t) = true ->
  forallb (on_stripped Q) (split_nl (rstrip t)) = true.
Proof.
  induction t as [|c t IH] using rev_ind; intros H; [exact H|].
  destruct (isspace c) eqn:Ec.
  - rewrite rstrip_snoc_space by exact Ec. apply IH.
    unfold split_nl in *.
    destruct (N.eqb c c_nl) eqn:En.
    + apply N.eqb_eq in En. subst c.
      rewrite split_from_app_nl, forallb_app in H.
      now apply andb_true_iff in H as [H _].
    + destruct (split_from_snoc c t [] En) as (init & last & E1 & E2).
      rewrite E2 in H. rewrite E1. rewrite forallb_app in *.
      apply andb_true_iff in H as [H1 H2]. rewrite H1.
      simpl in *. unfold on_stripped in *.
      now rewrite strip_snoc_space in H2 by exact Ec.
  - now rewrite rstrip_snoc_nonspace by exact Ec.
Qed.

Lemma lines_strip (t : str) :
  forallb (on_stripped Q) (split_nl t) = true ->
  forallb (on_stripped Q) (split_nl (strip t)) = true.
Proof. intros H. unfold strip. now apply lines_rstrip, lines_lstrip. Qed.

End Lines.

Lemma no_newline_rev (cur : str) :
  no_newline cur = true -> no_newline (rev cur) = true.
Proof. unfold no_newline. now rewrite forallb_rev'. Qed.

Lemma splitlines_from_no_newline (n : nat) (s cur : str) :
  List.length s <= n ->
  no_newline cur = true ->
  forallb no_newline (splitlines_from cur s) = true.
Proof.
  revert s cur. induction n as [|n IH]; intros s cur Hn Hc;
    pose proof (no_newline_rev cur Hc) as Hr.
  - destruct s; [|simpl in Hn; lia]. cbn [splitlines_from].
    destruct cur; [reflexivity|]. cbn [forallb]. now rewrite Hr.
  - destruct s as [|c s]; cbn [splitlines_from].
    + destruct cur; [reflexivity|]. cbn [forallb]. now rewrite Hr.
    + cbn [List.length] in Hn. destruct (is_line_boundary c) eqn:Eb.
      * cbn [forallb]. rewrite Hr. cbn [andb].
        destruct (N.eqb c c_cr); [|apply IH; [lia|reflexivity]].
        destruct s as [|d s]; [reflexivity|].
        cbn [List.length] in Hn.
        destruct (N.eqb d c_nl); apply IH; cbn [List.length]; try lia;
          reflexivity.
      * apply IH; [lia|]. unfold no_newline in *. cbn [forallb]. rewrite Hc.
        destruct (N.eqb c c_nl) eqn:En; [|reflexivity].
        apply N.eqb_eq in En. subst c. discriminate.
Qed.

Lemma keeps_line_not_nested (l : str) :
  keeps_line l = true -> is_nested_call (strip l) = false.
Proof.
  unfold keeps_line. destruct (strip l); [reflexivity|].
  now intros H%negb_true_iff.
Qed.

(** X30: No line of a part that [_sanitize_part] returns is an
    [insert_template], [focus_placeholder], [insert_box],
    [insert_view_box] or [exit_box] instruction: a part cannot nest a
    template, a placeholder or a box of its own. *)
Theorem sanitize_part_no_nested_call (script line : str) :
  In line (split_nl (_sanitize_part script)) ->
  is_nested_call (strip line) = false.
Proof.
  intros Hin.
  assert (H : forallb (on_stripped (fun s => negb (is_nested_call s)))
                (split_nl (_sanitize_part script)) = true).
  { unfold _sanitize_part. destruct (_extract_code script) as [|c code];
      [reflexivity|].
    apply lines_strip.
    set (kept := filter keeps_line (splitlines (c :: code))).
    destruct kept as [|k kept'] eqn:Ek; [reflexivity|].
    rewrite split_join_nl; [|discriminate|].
    - rewrite <- Ek. unfold kept. rewrite forallb_forall.
      intros l Hl. apply filter_In in Hl as [_ Hl].
      unfold on_stripped. now rewrite (keeps_line_not_nested l Hl).
    - rewrite <- Ek. unfold kept. apply forallb_filter.
      now apply (splitlines_from_no_newline (List.length (c :: code))). }
  rewrite forallb_forall in H. apply H in Hin.
  unfold on_stripped in Hin. now apply negb_true_iff in Hin.
Qed.

Lemma sanitize_part_no_nested_call_witness :
  is_nested_call (strip (lit "insert_text('a')")) = false.
Proof.
  apply (sanitize_part_no_nested_call
           (lit "  insert_box()" ++ [c_cr; c_nl] ++ lit "insert_text('a')"
            ++ [c_nl] ++ lit "exit_box()" ++ [c_nl])
           (lit "insert_text('a')")).
  vm_compute. left. reflexivity.
Defined.

End Parts.
